(** * Search highlights and text-layer projection of the React PDF viewer

    A shallow embedding of the two pieces of logic the viewer owns:

    - [createHighlightsForText] of [src/lib/utils.ts]: the per-page full
      text, the literal case-insensitive search and the rectangles of the
      runs a match touches;
    - [renderHighlight] of [src/lib/PDFHighlight.tsx] and [renderTextLayer]
      of [src/lib/PDFPage.tsx]: the placement of highlight boxes and of the
      transparent text spans.

    Conventions.  A JavaScript string is the list of its UTF-16 code units
    ([N]).  A JavaScript number is a real number, without NaN or
    infinities, and arithmetic is exact, except where the rounding of the
    operands decides a comparison of the source: there the rounding of the
    runtime is a parameter, [round].  The parts of the
    runtime the code calls are modelled next to it: [String.prototype.trim],
    the pattern language of [RegExp] (a fragment), [RegExp.prototype.exec]
    with the flags [gi], and the canvas text measurement, which is a
    parameter. *)

From Stdlib Require Import List Arith Lia NArith Bool String Ascii Sorted.
From Stdlib Require Import DecimalString DecimalNat Reals Lra.
Import ListNotations.

(** ** The JavaScript runtime the code relies on *)

Module JS.

Local Open Scope N_scope.

Definition jsstring := list N.

(** Code units of a Latin-1 literal. *)
Definition units (s : string) : jsstring :=
  map N_of_ascii (list_ascii_of_string s).

Definition ch (a : ascii) : N := N_of_ascii a.

(** [WhiteSpace] and [LineTerminator] of ECMAScript, the characters
    [String.prototype.trim] strips. *)
Definition isLineTerminator (c : N) : bool :=
  (c =? 10) || (c =? 13) || (c =? 8232) || (c =? 8233).

Definition isWhiteSpace (c : N) : bool :=
  (c =? 9) || (c =? 11) || (c =? 12) || (c =? 32) || (c =? 160)
  || (c =? 5760) || ((8192 <=? c) && (c <=? 8202))
  || (c =? 8239) || (c =? 8287) || (c =? 12288) || (c =? 65279).

Definition isTrimmed (c : N) : bool := isWhiteSpace c || isLineTerminator c.

Fixpoint trimStart (s : jsstring) : jsstring :=
  match s with
  | c :: s' => if isTrimmed c then trimStart s' else s
  | [] => []
  end.

Definition trimEnd (s : jsstring) : jsstring := rev (trimStart (rev s)).

Definition trim (s : jsstring) : jsstring := trimEnd (trimStart s).

(** Truthiness of a string: the empty string is falsy. *)
Definition truthy (s : jsstring) : bool :=
  match s with [] => false | _ :: _ => true end.

(** [SyntaxCharacter] of the pattern grammar; it is also the class
    [[.*+?^${}()|[\]\\]] of the replacement in [utils.ts]. *)
Definition syntaxCharacters : jsstring := units ".*+?^${}()|[]\".

Definition isSyntaxCharacter (c : N) : bool := existsb (N.eqb c) syntaxCharacters.

(** [s.replace(/[.*+?^${}()|[\]\\]/g, '\\$&')]: every character of the class
    is replaced by a backslash followed by itself. *)
Definition escapeMetacharacters (s : jsstring) : jsstring :=
  flat_map (fun c => if isSyntaxCharacter c then [ch "\"; c] else [c]) s.

(** *** Patterns

    The fragment of the pattern language that is modelled: pattern
    characters, identity escapes of syntax characters, [.], [^], [$], [|],
    capturing groups and the greedy quantifiers [*], [+], [?]. *)
Inductive regex : Type :=
| Empty
| Char (c : N)
| Any
| Bol
| Eol
| Seq (r1 r2 : regex)
| Alt (r1 r2 : regex)
| Group (r : regex)
| Star (r : regex)
| Plus (r : regex)
| Opt (r : regex).

Definition seqOf (l : list regex) : regex := fold_right Seq Empty l.

(** The pattern that matches the characters of [s] one after the other. *)
Definition literal (s : jsstring) : regex := seqOf (map Char s).

Definition quantifier (atom : regex) (p : jsstring) : regex * jsstring :=
  match p with
  | c :: p' =>
      if c =? ch "*" then (Star atom, p')
      else if c =? ch "+" then (Plus atom, p')
      else if c =? ch "?" then (Opt atom, p')
      else (atom, p)
  | [] => (atom, [])
  end.

(** Recursive descent over a [Disjunction].  [acc] holds the terms of the
    current alternative, last first.  The result is the expression and the
    rest of the pattern, which starts with [)] when a group ends.  [None]
    stands for a SyntaxError or a pattern outside the fragment. *)
Fixpoint parseDisjunction (fuel : nat) (p : jsstring) (acc : list regex)
  : option (regex * jsstring) :=
  match fuel with
  | O => None
  | S fuel' =>
    match p with
    | [] => Some (seqOf (rev acc), [])
    | c :: p' =>
      if c =? ch "|" then
        match parseDisjunction fuel' p' [] with
        | Some (r2, rest) => Some (Alt (seqOf (rev acc)) r2, rest)
        | None => None
        end
      else if c =? ch ")" then Some (seqOf (rev acc), p)
      else if c =? ch "(" then
        match parseDisjunction fuel' p' [] with
        | Some (r, d :: rest) =>
            if d =? ch ")" then
              let (t, rest') := quantifier (Group r) rest in
              parseDisjunction fuel' rest' (t :: acc)
            else None
        | _ => None
        end
      else if c =? ch "^" then parseDisjunction fuel' p' (Bol :: acc)
      else if c =? ch "$" then parseDisjunction fuel' p' (Eol :: acc)
      else if c =? ch "." then
        let (t, rest) := quantifier Any p' in
        parseDisjunction fuel' rest (t :: acc)
      else if c =? ch "\" then
        match p' with
        | d :: p'' =>
            if isSyntaxCharacter d then
              let (t, rest) := quantifier (Char d) p'' in
              parseDisjunction fuel' rest (t :: acc)
            else None
        | [] => None
        end
      else if isSyntaxCharacter c then None
      else
        let (t, rest) := quantifier (Char c) p' in
        parseDisjunction fuel' rest (t :: acc)
    end
  end.

(** [new RegExp(pattern, 'gi')]. *)
Definition newRegExp (pattern : jsstring) : option regex :=
  match parseDisjunction (S (List.length pattern)) pattern [] with
  | Some (r, []) => Some r
  | _ => None
  end.

(** *** Matching *)

Section Matching.

(** [String.prototype.toUpperCase] on a string of one code unit, a table of
    the runtime. *)
Variable toUpperCase : N -> jsstring.

(** [Canonicalize] of a pattern without the [u] flag. *)
Definition Canonicalize (c : N) : N :=
  match toUpperCase c with
  | [cu] => if (128 <=? c) && (cu <? 128) then c else cu
  | _ => c
  end.

Definition sameChar (a b : N) : bool := Canonicalize a =? Canonicalize b.

(** Greedy repetition of a matcher [step], at most [n] times: an iteration
    is tried first, and one that consumes nothing is rejected; when none
    succeeds the continuation [k] takes over. *)
Fixpoint repeatGreedy (step : nat -> (nat -> option nat) -> option nat)
    (k : nat -> option nat) (n : nat) (pos : nat) {struct n} : option nat :=
  match n with
  | O => k pos
  | S n' =>
      match step pos (fun p => if Nat.ltb pos p then repeatGreedy step k n' p
                               else None) with
      | Some e => Some e
      | None => k pos
      end
  end.

(** Backtracking matcher in continuation style: [matchAt r s pos k] matches
    [r] at index [pos] of [s] and hands the index after the match to [k];
    the result is the end index of the overall match. *)
Fixpoint matchAt (r : regex) (s : jsstring) (pos : nat) (k : nat -> option nat)
  {struct r} : option nat :=
  match r with
  | Empty => k pos
  | Char c =>
      match nth_error s pos with
      | Some x => if sameChar x c then k (S pos) else None
      | None => None
      end
  | Any =>
      match nth_error s pos with
      | Some x => if isLineTerminator x then None else k (S pos)
      | None => None
      end
  | Bol => if Nat.eqb pos 0 then k pos else None
  | Eol => if Nat.eqb pos (List.length s) then k pos else None
  | Seq r1 r2 => matchAt r1 s pos (fun p => matchAt r2 s p k)
  | Alt r1 r2 =>
      match matchAt r1 s pos k with
      | Some e => Some e
      | None => matchAt r2 s pos k
      end
  | Group r1 => matchAt r1 s pos k
  | Star r1 =>
      repeatGreedy (fun p k' => matchAt r1 s p k') k (S (List.length s)) pos
  | Plus r1 =>
      matchAt r1 s pos
        (repeatGreedy (fun p k' => matchAt r1 s p k') k (S (List.length s)))
  | Opt r1 =>
      match matchAt r1 s pos (fun p => if Nat.ltb pos p then k p else None) with
      | Some e => Some e
      | None => k pos
      end
  end.

(** The first index from [i] on, among [n] candidates, at which [r] matches. *)
Fixpoint search (r : regex) (s : jsstring) (n : nat) (i : nat)
  : option (nat * nat) :=
  match n with
  | O => None
  | S n' =>
      match matchAt r s i Some with
      | Some e => Some (i, e)
      | None => search r s n' (S i)
      end
  end.

(** [regex.exec(s)] of a global expression whose [lastIndex] is
    [lastIndex]: the span of the leftmost match starting at or after it. *)
Definition exec (r : regex) (s : jsstring) (lastIndex : nat)
  : option (nat * nat) :=
  if Nat.ltb (List.length s) lastIndex then None
  else search r s (S (List.length s - lastIndex)) lastIndex.

(** [while ((match = regex.exec(s)) !== null) { ... }]: after a match
    [lastIndex] is its end index.  The spans are collected in order.  The
    loop of the source does not end when a match is empty; [None] stands for
    that. *)
Fixpoint execAll (fuel : nat) (r : regex) (s : jsstring) (lastIndex : nat)
  : option (list (nat * nat)) :=
  match fuel with
  | O => None
  | S fuel' =>
      match exec r s lastIndex with
      | None => Some []
      | Some (i, e) =>
          match execAll fuel' r s e with
          | Some ms => Some ((i, e) :: ms)
          | None => None
          end
      end
  end.

End Matching.

(** Upper case of the ASCII letters, the other code units unchanged: the
    restriction of the runtime's table to ASCII text. *)
Definition asciiUpperCase (c : N) : jsstring :=
  if (97 <=? c) && (c <=? 122) then [c - 32] else [c].

End JS.

(** ** Data model ([src/lib/types.ts] and the text content of pdf.js) *)

(** A text item of [page.getTextContent()].  [str] is [None] for an item
    that carries no string (marked content).  [transform] is the array
    [[scaleX, skewY, skewX, scaleY, translateX, translateY]]. *)
Module TextItem.
Record t : Type := mk
  { str : option JS.jsstring;
    transform : list R;
    width : R;
    height : R;
    fontName : string }.
End TextItem.

(** [textContent]: the items of a page and, per font name, the font family
    of its style when the style has one. *)
Module TextContent.
Record t : Type := mk
  { items : list TextItem.t;
    styles : string -> option string }.
End TextContent.

(** A loaded document: the text content of page 1, page 2, ... *)
Definition PDFDocumentProxy := list TextContent.t.

Module PDFPageViewport.
Record t : Type := mk
  { width : R;
    height : R;
    scale : R;
    rotation : R }.
End PDFPageViewport.

Module PDFRect.
Record t : Type := mk
  { left : R;
    top : R;
    width : R;
    height : R }.
End PDFRect.

Module PDFHighlight.
Record t : Type := mk
  { id : string;
    pageNumber : nat;
    rects : list PDFRect.t;
    color : string;
    opacity : R;
    content : JS.jsstring }.
End PDFHighlight.

(** Reading the components of a transform; an entry a short array lacks is
    [undefined] in the source and is not modelled ([0] stands in). *)
Module Matrix.
Local Open Scope R_scope.
Definition scaleX (m : list R) : R := nth 0 m 0.
Definition skewY (m : list R) : R := nth 1 m 0.
Definition skewX (m : list R) : R := nth 2 m 0.
Definition scaleY (m : list R) : R := nth 3 m 0.
Definition translateX (m : list R) : R := nth 4 m 0.
Definition translateY (m : list R) : R := nth 5 m 0.
End Matrix.

(** ** [src/lib/utils.ts]: createHighlightsForText *)

Module Utils.
Import JS.

(** An entry of [textItems]: a retained run and its place in [fullText]. *)
Module Run.
Record t : Type := mk
  { text : jsstring;
    startIndex : nat;
    endIndex : nat;
    transform : list R;
    width : R;
    height : R }.
End Run.

(** The body of [textContent.items.forEach]: an item whose [str] is a
    non-empty string is appended to [textItems] and to [fullText]. *)
Definition addItem (acc : jsstring * list Run.t) (item : TextItem.t)
  : jsstring * list Run.t :=
  let (fullText, textItems) := acc in
  match TextItem.str item with
  | Some s =>
      if truthy s then
        (fullText ++ s,
         textItems ++
           [ {| Run.text := s;
                Run.startIndex := List.length fullText;
                Run.endIndex := List.length fullText + List.length s;
                Run.transform := TextItem.transform item;
                Run.width := TextItem.width item;
                Run.height := TextItem.height item |} ])
      else acc
  | None => acc
  end.

Definition collectText (items : list TextItem.t) : jsstring * list Run.t :=
  fold_left addItem items ([], []).

(** [textItem.endIndex > startIndex && textItem.startIndex < endIndex]. *)
Definition overlaps (startIndex endIndex : nat) (textItem : Run.t) : bool :=
  Nat.ltb startIndex (Run.endIndex textItem)
  && Nat.ltb (Run.startIndex textItem) endIndex.

(** The runs that contribute a rectangle to the match [[startIndex, endIndex)]. *)
Definition contributing (textItems : list Run.t) (startIndex endIndex : nat)
  : list Run.t :=
  filter (overlaps startIndex endIndex) textItems.

(** The rectangle of a run, in PDF coordinates.  [a || b] on numbers takes
    [b] when [a] is zero. *)
Definition rectOf (textItem : Run.t) : PDFRect.t :=
  let scaleX := Matrix.scaleX (Run.transform textItem) in
  let scaleY := Matrix.scaleY (Run.transform textItem) in
  let translateX := Matrix.translateX (Run.transform textItem) in
  let translateY := Matrix.translateY (Run.transform textItem) in
  let fontSize := Rabs scaleY in
  {| PDFRect.left := translateX;
     PDFRect.top := translateY;
     PDFRect.width :=
       if Req_EM_T (Run.width textItem) 0
       then (Rabs scaleX * INR (List.length (Run.text textItem)))%R
       else Run.width textItem;
     PDFRect.height := fontSize |}.

(** A number interpolated into a template string. *)
Definition decimal (n : nat) : string := NilEmpty.string_of_uint (Nat.to_uint n).

(** [`highlight-${pageNum}-${startIndex}`]. *)
Definition highlightId (pageNum startIndex : nat) : string :=
  ("highlight-" ++ decimal pageNum ++ "-" ++ decimal startIndex)%string.

(** [match[0]]: the part of the text between the two indices. *)
Definition substring (s : jsstring) (startIndex endIndex : nat) : jsstring :=
  firstn (endIndex - startIndex) (skipn startIndex s).

(** The body of the [while] loop for one match: the highlight it pushes, if
    any. *)
Definition highlightsOfMatch (pageNum : nat) (fullText : jsstring)
    (textItems : list Run.t) (color : string) (opacity : R)
    (m : nat * nat) : list PDFHighlight.t :=
  let (startIndex, endIndex) := m in
  let rects := map rectOf (contributing textItems startIndex endIndex) in
  if Nat.ltb 0 (List.length rects) then
    [ {| PDFHighlight.id := highlightId pageNum startIndex;
         PDFHighlight.pageNumber := pageNum;
         PDFHighlight.rects := rects;
         PDFHighlight.color := color;
         PDFHighlight.opacity := opacity;
         PDFHighlight.content := substring fullText startIndex endIndex |} ]
  else [].

(** How a piece of the source ends: with a value, with an exception, or
    not at all. *)
Inductive completion (A : Type) : Type :=
| Normal (a : A)
| Throw
| Diverge.

Arguments Normal {A} a.
Arguments Throw {A}.
Arguments Diverge {A}.

Section Search.

Variable toUpperCase : N -> jsstring.

(** The [while] loop over [searchRegex.exec(fullText)], from
    [lastIndex = 0]: the spans of the matches, in order. *)
Definition matchesIn (searchRegex : regex) (fullText : jsstring)
  : option (list (nat * nat)) :=
  execAll toUpperCase (S (List.length fullText)) searchRegex fullText 0.

(** The search of a page: the expression is built from the escaped search
    text and run over [fullText].  A SyntaxError of [new RegExp] is an
    exception; a loop that does not end is [Diverge]. *)
Definition findMatches (fullText searchText : jsstring)
  : completion (list (nat * nat)) :=
  match newRegExp (escapeMetacharacters searchText) with
  | Some searchRegex =>
      match matchesIn searchRegex fullText with
      | Some ms => Normal ms
      | None => Diverge
      end
  | None => Throw
  end.

(** One iteration of the loop over the pages: the highlights it pushes. *)
Definition pageHighlights (searchText : jsstring) (pageNum : nat)
    (page : TextContent.t) (color : string) (opacity : R)
  : completion (list PDFHighlight.t) :=
  let (fullText, textItems) := collectText (TextContent.items page) in
  match findMatches fullText searchText with
  | Normal ms =>
      Normal (flat_map
                (highlightsOfMatch pageNum fullText textItems color opacity) ms)
  | Throw => Throw
  | Diverge => Diverge
  end.

(** The loop [for (pageNum = ...; pageNum <= numPages; pageNum++)] over the
    pages from [pageNum] on. *)
Fixpoint pagesFrom (searchText : jsstring) (pageNum : nat)
    (pages : list TextContent.t) (color : string) (opacity : R)
  : completion (list PDFHighlight.t) :=
  match pages with
  | [] => Normal []
  | page :: rest =>
      match pageHighlights searchText pageNum page color opacity with
      | Normal hs =>
          match pagesFrom searchText (S pageNum) rest color opacity with
          | Normal hs' => Normal (hs ++ hs')
          | Throw => Throw
          | Diverge => Diverge
          end
      | Throw => Throw
      | Diverge => Diverge
      end
  end.

(** [createHighlightsForText(pdfDocument, searchText, color, opacity)].  The
    result is [Some] of the returned array; [None] stands for a call that
    does not return.  An exception is caught by the [try]/[catch] of the
    source, which returns the empty array.  The document is one whose pages
    are at hand; [PageLoading] below has pages that fail to load. *)
Definition createHighlightsForText (pdfDocument : option PDFDocumentProxy)
    (searchText : jsstring) (color : string) (opacity : R)
  : option (list PDFHighlight.t) :=
  match pdfDocument with
  | None => Some []
  | Some pages =>
      if negb (truthy (trim searchText)) then Some []
      else
        match pagesFrom searchText 1 pages color opacity with
        | Normal highlights => Some highlights
        | Throw => Some []
        | Diverge => None
        end
  end.

End Search.

End Utils.

(** ** [src/lib/PDFHighlight.tsx]: renderHighlight

    The repository holds two versions of the component. *)

(** The version that takes rectangles in PDF coordinates (origin at the
    bottom left) and converts them to the screen. *)
Module PdfSpaceHighlight.
Local Open Scope R_scope.

Definition canvasRect (viewport : PDFPageViewport.t) (rect : PDFRect.t)
  : PDFRect.t :=
  {| PDFRect.left := PDFRect.left rect * PDFPageViewport.scale viewport;
     PDFRect.top :=
       (PDFPageViewport.height viewport - PDFRect.top rect - PDFRect.height rect)
       * PDFPageViewport.scale viewport;
     PDFRect.width := PDFRect.width rect * PDFPageViewport.scale viewport;
     PDFRect.height := PDFRect.height rect * PDFPageViewport.scale viewport |}.

Definition renderHighlight (viewport : PDFPageViewport.t)
    (highlight : PDFHighlight.t) : list PDFRect.t :=
  map (canvasRect viewport) (PDFHighlight.rects highlight).

(** The boxes drawn for a page. *)
Definition render (highlights : list PDFHighlight.t) (pageNumber : nat)
    (viewport : PDFPageViewport.t) : list (list PDFRect.t) :=
  map (renderHighlight viewport)
      (filter (fun h => Nat.eqb (PDFHighlight.pageNumber h) pageNumber)
              highlights).

End PdfSpaceHighlight.

(** The version that takes rectangles already converted to viewport pixels
    by the caller and draws them unchanged. *)
Module PixelSpaceHighlight.

Definition canvasRect (viewport : PDFPageViewport.t) (rect : PDFRect.t)
  : PDFRect.t :=
  {| PDFRect.left := PDFRect.left rect;
     PDFRect.top := PDFRect.top rect;
     PDFRect.width := PDFRect.width rect;
     PDFRect.height := PDFRect.height rect |}.

Definition renderHighlight (viewport : PDFPageViewport.t)
    (highlight : PDFHighlight.t) : list PDFRect.t :=
  map (canvasRect viewport) (PDFHighlight.rects highlight).

Definition render (highlights : list PDFHighlight.t) (pageNumber : nat)
    (viewport : PDFPageViewport.t) : list (list PDFRect.t) :=
  map (renderHighlight viewport)
      (filter (fun h => Nat.eqb (PDFHighlight.pageNumber h) pageNumber)
              highlights).

End PixelSpaceHighlight.

(** ** [src/lib/PDFPage.tsx]: renderTextLayer *)

Module PDFPage.
Import JS.
Local Open Scope R_scope.

(** The [span] appended to the text layer for a text item: its text and the
    style properties the code sets from numbers.  [width] and [transform]
    are [None] when the property is left unset; [transform = Some f] is
    [scaleX(f)] with origin [0% 0%]. *)
Module Span.
Record t : Type := mk
  { textContent : jsstring;
    fontSize : R;
    fontFamily : string;
    left : R;
    top : R;
    width : option R;
    transform : option R }.
End Span.

(** The horizontal scale in effect on a span: the one of its [transform],
    or 1 when none is set. *)
Definition horizontalScale (span : Span.t) : R :=
  match Span.transform span with
  | Some f => f
  | None => 1
  end.

(** [style.fontFamily || 'sans-serif'] with
    [style = textContent.styles[textItem.fontName] || {}]. *)
Definition fontFamilyOf (styles : string -> option string) (fontName : string)
  : string :=
  match styles fontName with
  | Some family => if String.eqb family "" then "sans-serif"%string else family
  | None => "sans-serif"%string
  end.

(** The local [fontHeight] of the source, which no style property uses. *)
Definition fontHeight (pdfViewport : PDFPageViewport.t) (transform : list R)
  : R :=
  sqrt (Matrix.skewX transform * Matrix.skewX transform
        + Matrix.scaleY transform * Matrix.scaleY transform)
  * PDFPageViewport.scale pdfViewport.

(** The number the literal [0.01] denotes: the double nearest to 1/100,
    [5764607523034235 * 2^-59]. *)
Definition tolerance : R := 5764607523034235 / 576460752303423488.

Section TextLayer.

(** The rounding of the runtime's arithmetic: [round x] is the double
    nearest to [x].  The numbers a comparison of the source sees are the
    results of its operations, each rounded. *)
Variable round : R -> R.

(** [ctx.font = `${fontSize}px ${fontFamily}`; ctx.measureText(str).width]
    on a fresh canvas: the width the browser measures. *)
Variable measureText : R -> string -> jsstring -> R.

(** [Math.abs(scaleFactorX - 1) > 0.01] as the runtime decides it, with
    [scaleFactorX = textWidth / measuredWidth] and
    [textWidth = textItem.width * pdfViewport.scale]. *)
Definition exceedsTolerance (width scale measuredWidth : R) : bool :=
  if Rlt_dec tolerance
       (Rabs (round (round (round (width * scale) / measuredWidth) - 1)))
  then true else false.

(** The body of [textContent.items.forEach]: the span of an item, or [None]
    when the item is skipped. *)
Definition renderTextItem (styles : string -> option string)
    (pdfViewport : PDFPageViewport.t) (textItem : TextItem.t)
  : option Span.t :=
  match TextItem.str textItem with
  | None => None
  | Some str =>
    if negb (truthy str) || negb (truthy (trim str)) then None
    else if Nat.ltb (List.length (TextItem.transform textItem)) 6 then None
    else
      let scaleX := Matrix.scaleX (TextItem.transform textItem) in
      let skewY := Matrix.skewY (TextItem.transform textItem) in
      let skewX := Matrix.skewX (TextItem.transform textItem) in
      let scaleY := Matrix.scaleY (TextItem.transform textItem) in
      let translateX := Matrix.translateX (TextItem.transform textItem) in
      let translateY := Matrix.translateY (TextItem.transform textItem) in
      let family := fontFamilyOf styles (TextItem.fontName textItem) in
      let fontSize :=
        sqrt (scaleX * scaleX + skewY * skewY) * PDFPageViewport.scale pdfViewport in
      let left := translateX * PDFPageViewport.scale pdfViewport in
      let top :=
        (translateY - sqrt (skewX * skewX + scaleY * scaleY))
        * PDFPageViewport.scale pdfViewport in
      let widthAndTransform :=
        if Rlt_dec 0 (TextItem.width textItem) then
          let textWidth :=
            TextItem.width textItem * PDFPageViewport.scale pdfViewport in
          let measuredWidth := measureText fontSize family str in
          (Some textWidth,
           if Rlt_dec 0 measuredWidth then
             let scaleFactorX := textWidth / measuredWidth in
             if exceedsTolerance (TextItem.width textItem)
                  (PDFPageViewport.scale pdfViewport) measuredWidth
             then Some scaleFactorX
             else None
           else None)
        else (None, None) in
      Some
        {| Span.textContent := str;
           Span.fontSize := fontSize;
           Span.fontFamily := family;
           Span.left := left;
           Span.top := top;
           Span.width := fst widthAndTransform;
           Span.transform := snd widthAndTransform |}
  end.

(** [renderTextLayer(pdfPage, pdfViewport)]: the spans appended to the text
    layer, in order. *)
Definition renderTextLayer (textContent : TextContent.t)
    (pdfViewport : PDFPageViewport.t) : list Span.t :=
  flat_map
    (fun textItem =>
       match renderTextItem (TextContent.styles textContent) pdfViewport textItem with
       | Some span => [span]
       | None => []
       end)
    (TextContent.items textContent).

End TextLayer.

End PDFPage.

(** ** The literal search the specification describes

    An occurrence of the query in [fullText]: the characters of the query,
    one after the other, each compared up to case. *)

Module LiteralSearch.
Import JS.

Section Scan.

Variable toUpperCase : N -> jsstring.

(** [query] occurs at the head of [s], up to case. *)
Fixpoint prefixCI (query s : jsstring) : bool :=
  match query, s with
  | [], _ => true
  | c :: query', x :: s' => sameChar toUpperCase x c && prefixCI query' s'
  | _ :: _, [] => false
  end.

(** [query] occurs in [s] at index [i], up to case. *)
Definition occursAt (query s : jsstring) (i : nat) : bool :=
  Nat.leb i (List.length s) && prefixCI query (skipn i s).

End Scan.

End LiteralSearch.

(** ** The end-to-end scenario of the specification *)

Module Scenario.
Local Open Scope R_scope.

Definition item : TextItem.t :=
  {| TextItem.str := Some (JS.units "Hello world");
     TextItem.transform := [12; 0; 0; 12; 50; 700];
     TextItem.width := 66;
     TextItem.height := 12;
     TextItem.fontName := "g_d0_f1" |}.

Definition page : TextContent.t :=
  {| TextContent.items := [item];
     TextContent.styles := fun _ => None |}.

Definition document : PDFDocumentProxy := [page].

Definition viewport : PDFPageViewport.t :=
  {| PDFPageViewport.width := 612;
     PDFPageViewport.height := 792;
     PDFPageViewport.scale := 1;
     PDFPageViewport.rotation := 0 |}.

(** A run set with a horizontal scale of 10 and a vertical scale of 12. *)
Definition condensedItem : TextItem.t :=
  {| TextItem.str := Some (JS.units "Hello world");
     TextItem.transform := [10; 0; 0; 12; 50; 700];
     TextItem.width := 55;
     TextItem.height := 12;
     TextItem.fontName := "g_d0_f1" |}.

Definition condensedPage : TextContent.t :=
  {| TextContent.items := [condensedItem];
     TextContent.styles := fun _ => None |}.

End Scenario.

(** ** Predicates used to state the properties *)

Module Spans.

(** What a successful match tells about the continuation: it was entered at
    an index between the start of the match and the end of the text. *)
Definition advances (len : nat)
    (step : nat -> (nat -> option nat) -> option nat) : Prop :=
  forall (pos : nat) (k : nat -> option nat) (e : nat),
    step pos k = Some e -> pos <= len ->
    exists p, pos <= p <= len /\ k p = Some e.

(** Spans that follow each other from [from] on, inside a text of length
    [len]: each starts where the previous one ended or later. *)
Fixpoint chained (from : nat) (ms : list (nat * nat)) (len : nat) : Prop :=
  match ms with
  | [] => True
  | (a, e) :: ms' => from <= a /\ a <= e <= len /\ chained e ms' len
  end.

(** Runs that tile [[from, to)] in order: each is non-empty and starts
    where the previous one ends. *)
Fixpoint tiles (from : nat) (runs : list Utils.Run.t) (to : nat) : Prop :=
  match runs with
  | [] => from = to
  | run :: runs' =>
      Utils.Run.startIndex run = from
      /\ Utils.Run.startIndex run < Utils.Run.endIndex run
      /\ tiles (Utils.Run.endIndex run) runs' to
  end.

(** Where a run comes from: an item with that text and geometry. *)
Definition fromItem (item : TextItem.t) (run : Utils.Run.t) : Prop :=
  TextItem.str item = Some (Utils.Run.text run)
  /\ Utils.Run.transform run = TextItem.transform item
  /\ Utils.Run.width run = TextItem.width item
  /\ Utils.Run.height run = TextItem.height item.

End Spans.

(** ** [src/lib/utils.ts]: searchTextInPage and getPageTextContent *)

Module PageSearch.
Import JS Utils.

(** An element of the array [searchTextInPage] returns; [x] and [y] are the
    fields of [position]. *)
Module Match.
Record t : Type := mk
  { text : jsstring;
    pageNumber : nat;
    x : R;
    y : R }.
End Match.

(** [textItem.startIndex <= startIndex && textItem.endIndex > startIndex]. *)
Definition contains (startIndex : nat) (textItem : Run.t) : bool :=
  Nat.leb (Run.startIndex textItem) startIndex
  && Nat.ltb startIndex (Run.endIndex textItem).

(** The body of the [while] loop: the [for ... of] loop over [textItems]
    pushes an entry for the first run that holds the start of the match and
    breaks. *)
Definition entryOfMatch (pageNumber : nat) (fullText : jsstring)
    (textItems : list Run.t) (m : nat * nat) : list Match.t :=
  let (startIndex, endIndex) := m in
  match find (contains startIndex) textItems with
  | Some textItem =>
      [ {| Match.text := substring fullText startIndex endIndex;
           Match.pageNumber := pageNumber;
           Match.x := Matrix.translateX (Run.transform textItem);
           Match.y := Matrix.translateY (Run.transform textItem) |} ]
  | None => []
  end.

Section Search.

Variable toUpperCase : N -> jsstring.

(** [searchTextInPage(pdfDocument, pageNumber, searchText)].  The entries
    of [textItems] carry no width and height here; those of [collectText]
    do, and nothing reads them.  [None] stands for a call that does not
    return; an exception is caught and gives the empty array. *)
Definition searchTextInPage (pdfDocument : option PDFDocumentProxy)
    (pageNumber : nat) (searchText : jsstring) : option (list Match.t) :=
  match pdfDocument with
  | None => Some []
  | Some pages =>
      if negb (truthy (trim searchText)) || Nat.ltb pageNumber 1
         || Nat.ltb (List.length pages) pageNumber
      then Some []
      else
        match nth_error pages (pageNumber - 1) with
        | None => Some []
        | Some page =>
            let (fullText, textItems) := collectText (TextContent.items page) in
            match findMatches toUpperCase fullText searchText with
            | Normal ms =>
                Some (flat_map (entryOfMatch pageNumber fullText textItems) ms)
            | Throw => Some []
            | Diverge => None
            end
        end
  end.

End Search.

(** [strings.join(' ')]. *)
Fixpoint join (strings : list jsstring) : jsstring :=
  match strings with
  | [] => []
  | [s] => s
  | s :: rest => s ++ ch " " :: join rest
  end.

(** [item.str || '']. *)
Definition strOrEmpty (item : TextItem.t) : jsstring :=
  match TextItem.str item with
  | Some s => s
  | None => []
  end.

(** [getPageTextContent(pdfDocument, pageNumber)]. *)
Definition getPageTextContent (pdfDocument : option PDFDocumentProxy)
    (pageNumber : nat) : jsstring :=
  match pdfDocument with
  | None => []
  | Some pages =>
      if Nat.ltb pageNumber 1 || Nat.ltb (List.length pages) pageNumber then []
      else
        match nth_error pages (pageNumber - 1) with
        | None => []
        | Some page => trim (join (map strOrEmpty (TextContent.items page)))
        end
  end.


End PageSearch.

(** ** [src/lib/utils.ts]: createHighlightsForText on pages that may fail

    [pdfDocument.getPage(pageNum)] and [page.getTextContent()] are promises
    of pdf.js and may reject.  The search awaits them inside its [try]
    block. *)

Module PageLoading.
Import JS Utils.

(** A document page by page: [Some] of the text content the two calls
    resolve to (text items as pdf.js gives them, with a transform array),
    or [None] for a page one of the calls rejects. *)
Definition PDFDocumentProxy := list (option TextContent.t).

Section Search.

Variable toUpperCase : N -> jsstring.

(** The loop over the pages from [pageNum] on: a page that fails to load
    ends it with an exception. *)
Fixpoint pagesFrom (searchText : jsstring) (pageNum : nat)
    (pages : PDFDocumentProxy) (color : string) (opacity : R)
  : completion (list PDFHighlight.t) :=
  match pages with
  | [] => Normal []
  | None :: _ => Throw
  | Some page :: rest =>
      match pageHighlights toUpperCase searchText pageNum page color opacity with
      | Normal hs =>
          match pagesFrom searchText (S pageNum) rest color opacity with
          | Normal hs' => Normal (hs ++ hs')
          | Throw => Throw
          | Diverge => Diverge
          end
      | Throw => Throw
      | Diverge => Diverge
      end
  end.

(** [createHighlightsForText(pdfDocument, searchText, color, opacity)]: as
    in [Utils], [Some] of the returned array or [None] for a call that does
    not return.  The [catch] block returns the empty array. *)
Definition createHighlightsForText (pdfDocument : option PDFDocumentProxy)
    (searchText : jsstring) (color : string) (opacity : R)
  : option (list PDFHighlight.t) :=
  match pdfDocument with
  | None => Some []
  | Some pages =>
      if negb (truthy (trim searchText)) then Some []
      else
        match pagesFrom searchText 1 pages color opacity with
        | Normal highlights => Some highlights
        | Throw => Some []
        | Diverge => None
        end
  end.

End Search.

End PageLoading.

(** ** [src/lib/PDFPage.tsx]: the highlight layer of a page *)

Module PDFPageHighlights.

(** [{highlights.length > 0 && viewport && (...)}]: nothing is rendered
    without highlights or before the viewport is known; otherwise the
    highlights of the page are filtered and handed to the [PDFHighlight]
    component, whose boxes are the result. *)
Definition highlightLayer (highlights : list PDFHighlight.t)
    (viewport : option PDFPageViewport.t) (pageNumber : nat)
  : option (list (list PDFRect.t)) :=
  if Nat.ltb 0 (List.length highlights) then
    match viewport with
    | Some viewport =>
        let pageHighlights :=
          filter (fun h => Nat.eqb (PDFHighlight.pageNumber h) pageNumber)
                 highlights in
        Some (PixelSpaceHighlight.render pageHighlights pageNumber viewport)
    | None => None
    end
  else None.

End PDFPageHighlights.

(** ** [example/src/highlightAPI.ts]: convertToReactHighlights *)

Module HighlightAPI.
Local Open Scope R_scope.

(** A rectangle of the API, in coordinates normalised to the page. *)
Module APIHighlightRect.
Record t : Type := mk
  { left : R;
    top : R;
    right : R;
    bottom : R;
    width : R;
    height : R;
    page : nat }.
End APIHighlightRect.

Module APISearchResult.
Record t : Type := mk
  { text : JS.jsstring;
    matched_text : JS.jsstring;
    rectangles : list APIHighlightRect.t;
    confidence : R;
    page_number : nat;
    line_span : nat }.
End APISearchResult.

(** The fields of [SearchOptions] the conversion reads. *)
Module SearchOptions.
Record t : Type := mk
  { color : option string;
    opacity : option R }.
End SearchOptions.

Module ViewportInfo.
Record t : Type := mk
  { width : R;
    height : R;
    scale : R;
    rotation : option R }.
End ViewportInfo.

Definition getViewportInfo (viewport : PDFPageViewport.t) : ViewportInfo.t :=
  {| ViewportInfo.width := PDFPageViewport.width viewport;
     ViewportInfo.height := PDFPageViewport.height viewport;
     ViewportInfo.scale := PDFPageViewport.scale viewport;
     ViewportInfo.rotation := Some (PDFPageViewport.rotation viewport) |}.

(** [config.defaultSearchOptions]. *)
Definition defaultColor : string := "#ffff00".
Definition defaultOpacity : R := 3 / 10.

(** [options.color || config.defaultSearchOptions.color]. *)
Definition colorOf (options : SearchOptions.t) : string :=
  match SearchOptions.color options with
  | Some c => if String.eqb c "" then defaultColor else c
  | None => defaultColor
  end.

(** [options.opacity || config.defaultSearchOptions.opacity]. *)
Definition opacityOf (options : SearchOptions.t) : R :=
  match SearchOptions.opacity options with
  | Some o => if Req_EM_T o 0 then defaultOpacity else o
  | None => defaultOpacity
  end.

Definition convertRect (viewport : ViewportInfo.t) (apiRect : APIHighlightRect.t)
  : PDFRect.t :=
  {| PDFRect.left := APIHighlightRect.left apiRect * ViewportInfo.width viewport;
     PDFRect.top := APIHighlightRect.top apiRect * ViewportInfo.height viewport;
     PDFRect.width := APIHighlightRect.width apiRect * ViewportInfo.width viewport;
     PDFRect.height :=
       APIHighlightRect.height apiRect * ViewportInfo.height viewport |}.

(** [`api-highlight-${match.page_number}-${matchIndex}`]. *)
Definition apiHighlightId (page_number matchIndex : nat) : string :=
  ("api-highlight-" ++ Utils.decimal page_number ++ "-"
   ++ Utils.decimal matchIndex)%string.

(** The body of [matches.forEach((match, matchIndex) => ...)]. *)
Definition convertMatch (viewport : ViewportInfo.t) (options : SearchOptions.t)
    (matchIndex : nat) (m : APISearchResult.t) : PDFHighlight.t :=
  {| PDFHighlight.id := apiHighlightId (APISearchResult.page_number m) matchIndex;
     PDFHighlight.pageNumber := APISearchResult.page_number m;
     PDFHighlight.rects :=
       map (convertRect viewport) (APISearchResult.rectangles m);
     PDFHighlight.color := colorOf options;
     PDFHighlight.opacity := opacityOf options;
     PDFHighlight.content := APISearchResult.matched_text m |}.

Fixpoint convertFrom (matchIndex : nat) (matches : list APISearchResult.t)
    (viewport : ViewportInfo.t) (options : SearchOptions.t)
  : list PDFHighlight.t :=
  match matches with
  | [] => []
  | m :: rest =>
      convertMatch viewport options matchIndex m
        :: convertFrom (S matchIndex) rest viewport options
  end.

Definition convertToReactHighlights (matches : list APISearchResult.t)
    (viewport : ViewportInfo.t) (options : SearchOptions.t)
  : list PDFHighlight.t :=
  convertFrom 0 matches viewport options.

(** A rectangle whose position and size are given as fractions of the
    page. *)
Definition normalised (apiRect : APIHighlightRect.t) : Prop :=
  0 <= APIHighlightRect.left apiRect <= 1
  /\ 0 <= APIHighlightRect.width apiRect <= 1
  /\ 0 <= APIHighlightRect.top apiRect <= 1
  /\ 0 <= APIHighlightRect.height apiRect <= 1.

(** A box whose corner lies in a viewport and which is no larger than the
    viewport, in pixels. *)
Definition withinViewport (viewport : PDFPageViewport.t) (box : PDFRect.t)
  : Prop :=
  0 <= PDFRect.left box <= PDFPageViewport.width viewport
  /\ 0 <= PDFRect.width box <= PDFPageViewport.width viewport
  /\ 0 <= PDFRect.top box <= PDFPageViewport.height viewport
  /\ 0 <= PDFRect.height box <= PDFPageViewport.height viewport.

End HighlightAPI.

(** ** [useKeyboardShortcuts]: the key handler *)

Module KeyboardShortcuts.
Import JS.

(** The entries of [KeyboardShortcutsHandlers]. *)
Inductive handler : Type :=
| onNextPage | onPreviousPage | onFirstPage | onLastPage
| onZoomIn | onZoomOut | onActualSize
| onRotateClockwise | onRotateCounterClockwise
| onPresentationMode | onHandTool | onTextSelection
| onFind | onFindNext | onFindPrevious
| onDownload | onPrint | onOpenFile | onGoToPage | onToggleSidebar.

(** The fields of the [KeyboardEvent] the handler reads; [tagName] and
    [isContentEditable] are those of [event.target]. *)
Module KeyboardEvent.
Record t : Type := mk
  { key : jsstring;
    ctrlKey : bool;
    metaKey : bool;
    shiftKey : bool;
    altKey : bool;
    tagName : jsstring;
    isContentEditable : bool }.
End KeyboardEvent.

(** [a === b] on strings. *)
Definition strEq (a b : jsstring) : bool :=
  if list_eq_dec N.eq_dec a b then true else false.

(** What a call of the handler does: the entry of [handlers] it invokes, if
    any (the entry may be absent, [handlers] being partial), and whether it
    calls [event.preventDefault()] and [event.stopPropagation()]. *)
Definition effect : Type := (option handler * bool)%type.

Definition call (h : handler) : effect := (Some h, true).

(** A branch that sets [preventDefault = false]. *)
Definition pass : effect := (None, false).

Section Handler.

(** [String.prototype.toLowerCase], a table of the runtime. *)
Variable toLowerCase : jsstring -> jsstring.

Definition handleKeyDown (enabled : bool) (event : KeyboardEvent.t) : effect :=
  if negb enabled then pass
  else if strEq (KeyboardEvent.tagName event) (units "INPUT")
          || strEq (KeyboardEvent.tagName event) (units "TEXTAREA")
          || KeyboardEvent.isContentEditable event
  then pass
  else
    let key := KeyboardEvent.key event in
    let shiftKey := KeyboardEvent.shiftKey event in
    let altKey := KeyboardEvent.altKey event in
    let modKey := KeyboardEvent.ctrlKey event || KeyboardEvent.metaKey event in
    let k := toLowerCase key in
    if strEq k (units "n") || strEq k (units "j") then
      if negb modKey then call onNextPage else pass
    else if strEq k (units "p") || strEq k (units "k") then
      if negb modKey then call onPreviousPage
      else if modKey && altKey && strEq key (units "p")
      then call onPresentationMode
      else if modKey && strEq key (units "p") then call onPrint
      else pass
    else if strEq k (units "home") then call onFirstPage
    else if strEq k (units "end") then call onLastPage
    else if strEq k (units "arrowleft") then
      if negb modKey then call onPreviousPage else pass
    else if strEq k (units "arrowright") then
      if negb modKey then call onNextPage else pass
    else if strEq k (units "arrowup") || strEq k (units "pageup")
    then call onPreviousPage
    else if strEq k (units "arrowdown") || strEq k (units "pagedown")
    then call onNextPage
    else if strEq k (units " ") then
      if negb shiftKey then call onNextPage else call onPreviousPage
    else if strEq k (units "enter") then
      if negb shiftKey then call onNextPage else call onPreviousPage
    else if strEq k (units "+") || strEq k (units "=") then
      if modKey then call onZoomIn else pass
    else if strEq k (units "-") then
      if modKey then call onZoomOut else pass
    else if strEq k (units "0") then
      if modKey then call onActualSize else pass
    else if strEq k (units "r") then
      if negb modKey && negb shiftKey then call onRotateClockwise
      else if negb modKey && shiftKey then call onRotateCounterClockwise
      else pass
    else if strEq k (units "h") then
      if negb modKey then call onHandTool else pass
    else if strEq k (units "s") then
      if negb modKey then call onTextSelection
      else if modKey then call onDownload
      else (None, true)
    else if strEq k (units "f") then
      if modKey then call onFind else pass
    else if strEq k (units "g") then
      if modKey && negb shiftKey then call onFindNext
      else if modKey && shiftKey then call onFindPrevious
      else if modKey && altKey then call onGoToPage
      else pass
    else if strEq k (units "o") then
      if modKey then call onOpenFile else pass
    else if strEq k (units "f4") then call onToggleSidebar
    else pass.

End Handler.

(** Lower case of the ASCII letters of a string, the other code units
    unchanged. *)
Definition asciiLowerCase (s : jsstring) : jsstring :=
  map (fun c => if (65 <=? c)%N && (c <=? 90)%N then (c + 32)%N else c) s.

(** The event with the Ctrl and Meta keys folded into Ctrl. *)
Definition foldMeta (event : KeyboardEvent.t) : KeyboardEvent.t :=
  {| KeyboardEvent.key := KeyboardEvent.key event;
     KeyboardEvent.ctrlKey :=
       KeyboardEvent.ctrlKey event || KeyboardEvent.metaKey event;
     KeyboardEvent.metaKey := false;
     KeyboardEvent.shiftKey := KeyboardEvent.shiftKey event;
     KeyboardEvent.altKey := KeyboardEvent.altKey event;
     KeyboardEvent.tagName := KeyboardEvent.tagName event;
     KeyboardEvent.isContentEditable := KeyboardEvent.isContentEditable event |}.

End KeyboardShortcuts.

(** ** [src/lib/worker.ts] and the worker utilities of [utils.ts] *)

Module Worker.
Import JS.

(** The module variables [isWorkerConfigured] and [workerRetryCount], and
    [pdfjsLib.GlobalWorkerOptions.workerSrc], which is [None] when the
    property is absent. *)
Module State.
Record t : Type := mk
  { isWorkerConfigured : bool;
    workerRetryCount : nat;
    workerSrc : option jsstring }.
End State.

(** The object [getWorkerInfo()] of [utils.ts] returns. *)
Module WorkerInfo.
Record t : Type := mk
  { configured : bool;
    workerSrc : option jsstring;
    retryCount : nat }.
End WorkerInfo.

Definition MAX_WORKER_RETRIES : nat := 3.

(** Truthiness of a value that may be [undefined]. *)
Definition truthyOpt (s : option jsstring) : bool :=
  match s with
  | Some s => truthy s
  | None => false
  end.

Section WithVersion.

(** [pdfjsLib.version]. *)
Variable version : jsstring.

Definition fallbackWorkers : list jsstring :=
  [ units "https://cdn.jsdelivr.net/npm/pdfjs-dist@" ++ version
      ++ units "/build/pdf.worker.min.mjs";
    units "https://unpkg.com/pdfjs-dist@" ++ version
      ++ units "/build/pdf.worker.min.mjs";
    units "https://cdnjs.cloudflare.com/ajax/libs/pdf.js/" ++ version
      ++ units "/pdf.worker.min.js" ].

(** [configurePDFWorker(workerSrc, force)]. *)
Definition configurePDFWorker (workerSrc : option jsstring) (force : bool)
    (st : State.t) : State.t :=
  if State.isWorkerConfigured st && negb force then st
  else
    let current := if force then None else State.workerSrc st in
    let configured :=
      if truthyOpt workerSrc && truthyOpt (option_map trim workerSrc)
      then workerSrc
      else if negb (truthyOpt current)
      then
        let workerIndex :=
          Nat.modulo (State.workerRetryCount st) (List.length fallbackWorkers) in
        nth_error fallbackWorkers workerIndex
      else current in
    {| State.isWorkerConfigured := true;
       State.workerRetryCount := State.workerRetryCount st;
       State.workerSrc := configured |}.

Definition getWorkerSrc (st : State.t) : option jsstring := State.workerSrc st.

(** [resetWorkerConfiguration()]. *)
Definition resetWorkerConfiguration (st : State.t) : State.t :=
  configurePDFWorker None true
    {| State.isWorkerConfigured := false;
       State.workerRetryCount := 0;
       State.workerSrc := None |}.

(** [retryWorkerConfiguration()]: the new state and the value returned. *)
Definition retryWorkerConfiguration (st : State.t) : State.t * bool :=
  if Nat.ltb (State.workerRetryCount st) MAX_WORKER_RETRIES then
    (configurePDFWorker None true
       {| State.isWorkerConfigured := false;
          State.workerRetryCount := S (State.workerRetryCount st);
          State.workerSrc := State.workerSrc st |},
     true)
  else (st, false).

(** [isWorkerConfiguredProperly()]. *)
Definition isWorkerConfiguredProperly (st : State.t) : bool :=
  match State.workerSrc st with
  | Some workerSrc =>
      truthy workerSrc && truthy (trim workerSrc)
      && negb (if list_eq_dec N.eq_dec workerSrc (units "undefined")
               then true else false)
  | None => false
  end
  && State.isWorkerConfigured st.

Definition getWorkerRetryCount (st : State.t) : nat := State.workerRetryCount st.

(** The module body: [configurePDFWorker()] on import, whatever the host
    page had set as worker source. *)
Definition onImport (hostWorkerSrc : option jsstring) : State.t :=
  configurePDFWorker None false
    {| State.isWorkerConfigured := false;
       State.workerRetryCount := 0;
       State.workerSrc := hostWorkerSrc |}.

(** [getWorkerInfo()] of [utils.ts]. *)
Definition getWorkerInfo (st : State.t) : WorkerInfo.t :=
  {| WorkerInfo.configured := isWorkerConfiguredProperly st;
     WorkerInfo.workerSrc := getWorkerSrc st;
     WorkerInfo.retryCount := getWorkerRetryCount st |}.

(** [resetWorker()] of [utils.ts]. *)
Definition resetWorker (st : State.t) : State.t := resetWorkerConfiguration st.

(** [testWorker()] of [utils.ts]: the new state and the [success] field of
    the result.  The call of [configurePDFWorker()] does not throw. *)
Definition testWorker (st : State.t) : State.t * bool :=
  (configurePDFWorker None false st, true).

(** What every call keeps: a configured worker, at most three retries
    counted, a worker source that is present and not empty. *)
Definition settled (st : State.t) : Prop :=
  State.isWorkerConfigured st = true
  /\ State.workerRetryCount st <= 3
  /\ exists s, State.workerSrc st = Some s /\ s <> [].

(** The calls a client can make. *)
Inductive operation : Type :=
| Configure (workerSrc : option jsstring) (force : bool)
| Reset
| Retry
| Test.

Definition apply (op : operation) (st : State.t) : State.t :=
  match op with
  | Configure workerSrc force => configurePDFWorker workerSrc force st
  | Reset => resetWorkerConfiguration st
  | Retry => fst (retryWorkerConfiguration st)
  | Test => fst (testWorker st)
  end.

(** The state after the import and a sequence of calls. *)
Definition run (hostWorkerSrc : option jsstring) (ops : list operation)
  : State.t :=
  fold_left (fun st op => apply op st) ops (onImport hostWorkerSrc).

End WithVersion.

End Worker.

(** ** [src/lib/PDFLoader.ts]: loadPDF *)

Module PDFLoader.
Import JS Worker.

(** [PDFLoadResult]; an error is represented by its message. *)
Module PDFLoadResult.
Record t : Type := mk
  { pdf : option PDFDocumentProxy;
    error : option jsstring;
    retriesUsed : nat }.
End PDFLoadResult.

Definition DEFAULT_RETRIES : nat := 3.

Fixpoint isPrefixOf (p s : jsstring) : bool :=
  match p, s with
  | [], _ => true
  | a :: p', b :: s' => N.eqb a b && isPrefixOf p' s'
  | _ :: _, [] => false
  end.

(** [s.includes(sub)]. *)
Fixpoint includes (s sub : jsstring) : bool :=
  isPrefixOf sub s
  || match s with
     | [] => false
     | _ :: s' => includes s' sub
     end.

Definition workerErrorKeywords : list jsstring :=
  [ units "worker"; units "terminated"; units "destroyed"; units "Worker";
    units "Transport destroyed"; units "Cannot resolve module";
    units "Failed to fetch"; units "NetworkError"; units "CORS";
    units "Invalid `workerSrc`"; units "workerSrc" ].

Section Loader.

Variable version : jsstring.

(** [String.prototype.toLowerCase], a table of the runtime. *)
Variable toLowerCase : jsstring -> jsstring.

(** What the outside world answers to an attempt: [createLoadingTask(file)]
    raced against the timeout gives a document or fails with a message.  The
    answer may depend on how many attempts were made before and on the
    configuration of the worker. *)
Variable load : nat -> State.t -> PDFDocumentProxy + jsstring.

(** [isWorkerError(error)]. *)
Definition isWorkerError (message : jsstring) : bool :=
  existsb (fun keyword => includes (toLowerCase message) (toLowerCase keyword))
          workerErrorKeywords.

(** The number of times the body of
    [for (let attempt = 0; attempt <= retries; attempt++)] runs: once for
    each integer from 0 to [retries], not at all when [retries] is
    negative.  [up r] is the least integer above [r], so that
    [attempt <= retries] holds exactly for the attempts below it. *)
Definition iterations (retries : R) : nat := Z.to_nat (up retries).

(** The message of a failed attempt. *)
Definition errorOf (answer : PDFDocumentProxy + jsstring) : option jsstring :=
  match answer with
  | inl _ => None
  | inr message => Some message
  end.

(** The [for] loop from [attempt] on, with [remaining] iterations left and
    the variables [lastError] and [retriesUsed] as they stand.  It ends with
    the result it returns, or falls through with [lastError] and
    [retriesUsed]. *)
Fixpoint attemptsFrom (retries : R) (remaining attempt : nat)
    (lastError : option jsstring) (retriesUsed : nat) (st : State.t)
  : State.t * (PDFLoadResult.t + option jsstring * nat) :=
  match remaining with
  | O => (st, inr (lastError, retriesUsed))
  | S remaining' =>
      match load attempt st with
      | inl pdf =>
          (st, inl {| PDFLoadResult.pdf := Some pdf;
                      PDFLoadResult.error := None;
                      PDFLoadResult.retriesUsed := attempt |})
      | inr message =>
          if isWorkerError message
             && (if Rlt_dec (INR attempt) retries then true else false)
          then
            let (st', retrySuccess) := retryWorkerConfiguration version st in
            if retrySuccess
            then attemptsFrom retries remaining' (S attempt) (Some message)
                   (attempt + 1) st'
            else (st', inr (Some message, attempt + 1))
          else attemptsFrom retries remaining' (S attempt) (Some message)
                 (attempt + 1) st
      end
  end.

(** [PDFLoader.loadPDF({ file, retries })]: the state of the worker it
    leaves and the result it resolves to.  [retries] is a finite number or
    absent; the attempt after the loop is numbered [retriesUsed], the number
    of attempts made in the loop. *)
Definition loadPDF (retries : option R) (st : State.t)
  : State.t * PDFLoadResult.t :=
  let retries :=
    match retries with
    | Some retries => retries
    | None => INR DEFAULT_RETRIES
    end in
  match attemptsFrom retries (iterations retries) 0 None 0 st with
  | (st', inl result) => (st', result)
  | (st', inr (lastError, retriesUsed)) =>
      if match lastError with
         | None => true
         | Some message => isWorkerError message
         end
      then
        let st'' := resetWorkerConfiguration version st' in
        match load retriesUsed st'' with
        | inl pdf =>
            (st'', {| PDFLoadResult.pdf := Some pdf;
                      PDFLoadResult.error := None;
                      PDFLoadResult.retriesUsed := retriesUsed + 1 |})
        | inr finalError =>
            (st'', {| PDFLoadResult.pdf := None;
                      PDFLoadResult.error := Some finalError;
                      PDFLoadResult.retriesUsed := retriesUsed |})
        end
      else
        (st', {| PDFLoadResult.pdf := None;
                 PDFLoadResult.error := lastError;
                 PDFLoadResult.retriesUsed := retriesUsed |})
  end.

End Loader.

End PDFLoader.

(** ** Sample inputs *)

Module Samples.
Local Open Scope R_scope.

(** The rectangle of the scenario's run, in PDF coordinates. *)
Definition rect : PDFRect.t :=
  {| PDFRect.left := 50; PDFRect.top := 700;
     PDFRect.width := 66; PDFRect.height := 12 |}.

(** The viewport of the scenario's page turned by 90 degrees. *)
Definition rotatedViewport : PDFPageViewport.t :=
  {| PDFPageViewport.width := 792;
     PDFPageViewport.height := 612;
     PDFPageViewport.scale := 1;
     PDFPageViewport.rotation := 90 |}.

(** A match of the API on page 1: one rectangle in the upper left quarter
    of the page. *)
Definition apiRect : HighlightAPI.APIHighlightRect.t :=
  {| HighlightAPI.APIHighlightRect.left := 1 / 4;
     HighlightAPI.APIHighlightRect.top := 1 / 4;
     HighlightAPI.APIHighlightRect.right := 1 / 2;
     HighlightAPI.APIHighlightRect.bottom := 1 / 2;
     HighlightAPI.APIHighlightRect.width := 1 / 4;
     HighlightAPI.APIHighlightRect.height := 1 / 4;
     HighlightAPI.APIHighlightRect.page := 1 |}.

Definition apiMatch : HighlightAPI.APISearchResult.t :=
  {| HighlightAPI.APISearchResult.text := JS.units "world";
     HighlightAPI.APISearchResult.matched_text := JS.units "world";
     HighlightAPI.APISearchResult.rectangles := [apiRect];
     HighlightAPI.APISearchResult.confidence := 1;
     HighlightAPI.APISearchResult.page_number := 1;
     HighlightAPI.APISearchResult.line_span := 1 |}.

Definition apiOptions : HighlightAPI.SearchOptions.t :=
  {| HighlightAPI.SearchOptions.color := None;
     HighlightAPI.SearchOptions.opacity := Some 0 |}.

(** Ctrl+Alt+G typed on the page body. *)
Definition ctrlAltG : KeyboardShortcuts.KeyboardEvent.t :=
  {| KeyboardShortcuts.KeyboardEvent.key := JS.units "g";
     KeyboardShortcuts.KeyboardEvent.ctrlKey := true;
     KeyboardShortcuts.KeyboardEvent.metaKey := false;
     KeyboardShortcuts.KeyboardEvent.shiftKey := false;
     KeyboardShortcuts.KeyboardEvent.altKey := true;
     KeyboardShortcuts.KeyboardEvent.tagName := JS.units "BODY";
     KeyboardShortcuts.KeyboardEvent.isContentEditable := false |}.

(** The letter n typed into a text field. *)
Definition typedN : KeyboardShortcuts.KeyboardEvent.t :=
  {| KeyboardShortcuts.KeyboardEvent.key := JS.units "n";
     KeyboardShortcuts.KeyboardEvent.ctrlKey := false;
     KeyboardShortcuts.KeyboardEvent.metaKey := false;
     KeyboardShortcuts.KeyboardEvent.shiftKey := false;
     KeyboardShortcuts.KeyboardEvent.altKey := false;
     KeyboardShortcuts.KeyboardEvent.tagName := JS.units "INPUT";
     KeyboardShortcuts.KeyboardEvent.isContentEditable := false |}.

(** Ctrl+P typed with the shift key or the caps lock on. *)
Definition ctrlCapitalP : KeyboardShortcuts.KeyboardEvent.t :=
  {| KeyboardShortcuts.KeyboardEvent.key := JS.units "P";
     KeyboardShortcuts.KeyboardEvent.ctrlKey := true;
     KeyboardShortcuts.KeyboardEvent.metaKey := false;
     KeyboardShortcuts.KeyboardEvent.shiftKey := true;
     KeyboardShortcuts.KeyboardEvent.altKey := false;
     KeyboardShortcuts.KeyboardEvent.tagName := JS.units "BODY";
     KeyboardShortcuts.KeyboardEvent.isContentEditable := false |}.

(** A document of two pages with the text of the scenario. *)
Definition twoPages : PDFDocumentProxy := [Scenario.page; Scenario.page].

(** The page of the scenario followed by a page that fails to load. *)
Definition secondPageFails : PageLoading.PDFDocumentProxy :=
  [Some Scenario.page; None].

(** A server that answers the first two attempts with a damaged file and
    the third with the scenario's document. *)
Definition damagedTwice (attempt : nat) (st : Worker.State.t)
  : PDFDocumentProxy + JS.jsstring :=
  if Nat.ltb attempt 2 then inr (JS.units "Invalid PDF structure")
  else inl Scenario.document.

(** A browser in which no worker ever starts. *)
Definition noWorker (attempt : nat) (st : Worker.State.t)
  : PDFDocumentProxy + JS.jsstring :=
  inr (JS.units "Setting up fake worker failed").

(** The worker as a host page may leave it: never configured. *)
Definition freshWorker : Worker.State.t :=
  {| Worker.State.isWorkerConfigured := false;
     Worker.State.workerRetryCount := 0;
     Worker.State.workerSrc := None |}.

End Samples.

(** * Properties *)

(** ** Escaped patterns are literal *)

Module PatternFacts.
Import JS.
Local Open Scope N_scope.

Lemma syntaxCharacters_eq :
  syntaxCharacters = [46; 42; 43; 63; 94; 36; 123; 125; 40; 41; 124; 91; 93; 92].
Proof. reflexivity. Qed.

(** A character outside the class differs from each syntax character. *)
Lemma notSyntax_neq (c d : N) :
  isSyntaxCharacter c = false -> In d syntaxCharacters -> (c =? d) = false.
Proof.
  unfold isSyntaxCharacter. intros H Hd.
  destruct (c =? d) eqn:E; [|reflexivity].
  assert (existsb (N.eqb c) syntaxCharacters = true) as Hc
      by (apply existsb_exists; exists d; split; assumption).
  congruence.
Qed.

Ltac in_syntax := rewrite syntaxCharacters_eq; simpl; tauto.

(** The quantifier characters are syntax characters, so neither a pattern
    character nor a backslash is taken for one. *)
Lemma quantifier_pattern_char (atom : regex) (c : N) (p : jsstring) :
  isSyntaxCharacter c = false -> quantifier atom (c :: p) = (atom, c :: p).
Proof.
  intros H. unfold quantifier, ch. simpl.
  rewrite !(notSyntax_neq c) by (assumption || in_syntax).
  reflexivity.
Qed.

Lemma quantifier_backslash (atom : regex) (p : jsstring) :
  quantifier atom (ch "\" :: p) = (atom, ch "\" :: p).
Proof. reflexivity. Qed.

Lemma quantifier_escaped (atom : regex) (q : jsstring) :
  quantifier atom (escapeMetacharacters q) = (atom, escapeMetacharacters q).
Proof.
  destruct q as [|c q]; [reflexivity|].
  unfold escapeMetacharacters. simpl.
  destruct (isSyntaxCharacter c) eqn:E; simpl.
  - apply quantifier_backslash.
  - apply quantifier_pattern_char. assumption.
Qed.

Lemma escapeMetacharacters_cons (c : N) (q : jsstring) :
  escapeMetacharacters (c :: q)
  = (if isSyntaxCharacter c then [ch "\"; c] else [c]) ++ escapeMetacharacters q.
Proof. reflexivity. Qed.

(** The parser reads an escaped string as the sequence of its characters,
    each a literal atom. *)
Lemma parseDisjunction_escaped (q : jsstring) :
  forall (fuel : nat) (acc : list regex),
    (List.length (escapeMetacharacters q) < fuel)%nat ->
    parseDisjunction fuel (escapeMetacharacters q) acc
    = Some (seqOf (rev acc ++ map Char q), []).
Proof.
  induction q as [|c q IH]; intros fuel acc Hfuel.
  - destruct fuel; [simpl in Hfuel; lia|]. simpl. rewrite app_nil_r. reflexivity.
  - rewrite escapeMetacharacters_cons in *.
    destruct (isSyntaxCharacter c) eqn:E.
    + destruct fuel as [|fuel]; [simpl in Hfuel; lia|].
      simpl app in *. simpl in Hfuel.
      cbn [parseDisjunction].
      change (ch "\" =? ch "|") with false.
      change (ch "\" =? ch ")") with false.
      change (ch "\" =? ch "(") with false.
      change (ch "\" =? ch "^") with false.
      change (ch "\" =? ch "$") with false.
      change (ch "\" =? ch ".") with false.
      change (ch "\" =? ch "\") with true.
      cbv iota. rewrite E, quantifier_escaped.
      rewrite IH by lia. simpl. rewrite <- app_assoc. reflexivity.
    + destruct fuel as [|fuel]; [simpl in Hfuel; lia|].
      simpl app in *. simpl in Hfuel.
      cbn [parseDisjunction]. unfold ch.
      rewrite !(notSyntax_neq c) by (assumption || in_syntax).
      rewrite E, quantifier_escaped.
      rewrite IH by lia. simpl. rewrite <- app_assoc. reflexivity.
Qed.

Lemma newRegExp_escaped (q : jsstring) :
  newRegExp (escapeMetacharacters q) = Some (literal q).
Proof.
  unfold newRegExp. rewrite parseDisjunction_escaped by lia. reflexivity.
Qed.

End PatternFacts.

(** ** The matcher and the scan *)

Module MatchFacts.
Import JS LiteralSearch Spans.

Lemma skipn_nth_error_Some (A : Type) (s : list A) :
  forall (pos : nat) (x : A),
    nth_error s pos = Some x -> skipn pos s = x :: skipn (S pos) s.
Proof.
  induction s as [|y s IH]; intros [|pos] x H; simpl in *; try discriminate.
  - congruence.
  - apply IH. assumption.
Qed.

Lemma skipn_nth_error_None (A : Type) (s : list A) :
  forall pos : nat, nth_error s pos = None -> skipn pos s = [].
Proof.
  induction s as [|y s IH]; intros [|pos] H; simpl in *;
    try reflexivity; try discriminate.
  apply IH. assumption.
Qed.

Section WithCase.

Variable toUpperCase : N -> jsstring.

Local Abbreviation matchAt := (JS.matchAt toUpperCase).
Local Abbreviation prefixCI := (LiteralSearch.prefixCI toUpperCase).
Local Abbreviation occursAt := (LiteralSearch.occursAt toUpperCase).
Local Abbreviation search := (JS.search toUpperCase).
Local Abbreviation exec := (JS.exec toUpperCase).
Local Abbreviation execAll := (JS.execAll toUpperCase).

(** A literal pattern matches at [pos] exactly when its characters occur
    there up to case, and the match ends after them. *)
Lemma matchAt_literal (q s : jsstring) :
  forall (pos : nat) (k : nat -> option nat),
    matchAt (literal q) s pos k
    = if prefixCI q (skipn pos s) then k (pos + List.length q) else None.
Proof.
  induction q as [|c q IH]; intros pos k.
  - simpl. rewrite Nat.add_0_r. reflexivity.
  - change (literal (c :: q)) with (Seq (Char c) (literal q)).
    cbn [JS.matchAt].
    destruct (nth_error s pos) as [x|] eqn:E.
    + rewrite (skipn_nth_error_Some _ _ _ _ E). cbn [LiteralSearch.prefixCI].
      destruct (sameChar toUpperCase x c); simpl; [|reflexivity].
      rewrite IH. simpl List.length.
      replace (pos + S (List.length q)) with (S pos + List.length q) by lia.
      reflexivity.
    + rewrite (skipn_nth_error_None _ _ _ E). reflexivity.
Qed.

Lemma repeatGreedy_advances (len : nat)
    (step : nat -> (nat -> option nat) -> option nat) (k0 : nat -> option nat) :
  advances len step ->
  forall (n pos e : nat),
    repeatGreedy step k0 n pos = Some e -> pos <= len ->
    exists p, pos <= p <= len /\ k0 p = Some e.
Proof.
  intros Hstep. induction n as [|n IH]; intros pos e H Hpos; simpl in H.
  - exists pos. split; [lia|assumption].
  - destruct (step pos _) as [e'|] eqn:E.
    + injection H as <-.
      destruct (Hstep _ _ _ E Hpos) as (p & Hp & Hk).
      destruct (Nat.ltb pos p); [|discriminate].
      destruct (IH _ _ Hk ltac:(lia)) as (p' & Hp' & Hk').
      exists p'. split; [lia|assumption].
    + exists pos. split; [lia|assumption].
Qed.

Lemma matchAt_advances (r : regex) (s : jsstring) :
  advances (List.length s) (fun pos k => matchAt r s pos k).
Proof.
  induction r; intros pos k e H Hpos; cbn [JS.matchAt] in H.
  - exists pos. split; [lia|assumption].
  - destruct (nth_error s pos) as [x|] eqn:E; [|discriminate].
    destruct (sameChar toUpperCase x c); [|discriminate].
    assert (pos < List.length s) by (apply nth_error_Some; congruence).
    exists (S pos). split; [lia|assumption].
  - destruct (nth_error s pos) as [x|] eqn:E; [|discriminate].
    destruct (isLineTerminator x); [discriminate|].
    assert (pos < List.length s) by (apply nth_error_Some; congruence).
    exists (S pos). split; [lia|assumption].
  - destruct (Nat.eqb pos 0); [|discriminate].
    exists pos. split; [lia|assumption].
  - destruct (Nat.eqb pos (List.length s)); [|discriminate].
    exists pos. split; [lia|assumption].
  - destruct (IHr1 _ _ _ H Hpos) as (p & Hp & H1).
    destruct (IHr2 _ _ _ H1 ltac:(lia)) as (p' & Hp' & H2).
    exists p'. split; [lia|assumption].
  - destruct (matchAt r1 s pos k) as [e'|] eqn:E.
    + injection H as <-. exact (IHr1 _ _ _ E Hpos).
    + exact (IHr2 _ _ _ H Hpos).
  - exact (IHr _ _ _ H Hpos).
  - exact (@repeatGreedy_advances _ _ _ IHr _ _ _ H Hpos).
  - destruct (IHr _ _ _ H Hpos) as (p & Hp & H1).
    destruct (@repeatGreedy_advances _ _ _ IHr _ _ _ H1 ltac:(lia))
      as (p' & Hp' & H2).
    exists p'. split; [lia|assumption].
  - destruct (matchAt r s pos _) as [e'|] eqn:E.
    + injection H as <-. destruct (IHr _ _ _ E Hpos) as (p & Hp & E1).
      destruct (Nat.ltb pos p); [|discriminate].
      exists p. split; assumption.
    + exists pos. split; [lia|assumption].
Qed.

(** A match that starts inside the text ends inside it, not before its
    start. *)
Lemma matchAt_span (r : regex) (s : jsstring) (pos e : nat) :
  matchAt r s pos Some = Some e -> pos <= List.length s ->
  pos <= e <= List.length s.
Proof.
  intros H Hpos.
  destruct (@matchAt_advances r s _ _ _ H Hpos) as (p & Hp & Hk).
  injection Hk as <-. assumption.
Qed.

(** [search] returns the first index at which the pattern matches. *)
Lemma search_Some (r : regex) (s : jsstring) :
  forall (n i a e : nat),
    search r s n i = Some (a, e) ->
    i <= a < i + n /\ matchAt r s a Some = Some e
    /\ forall j, i <= j < a -> matchAt r s j Some = None.
Proof.
  induction n as [|n IH]; intros i a e H; simpl in H; [discriminate|].
  destruct (matchAt r s i Some) as [e'|] eqn:E.
  - injection H as <- <-. split; [lia|]. split; [assumption|].
    intros j Hj. lia.
  - apply IH in H. destruct H as (Ha & Hm & Hbefore).
    split; [lia|]. split; [assumption|].
    intros j Hj. destruct (Nat.eq_dec j i) as [->|Hne]; [assumption|].
    apply Hbefore. lia.
Qed.

Lemma search_None (r : regex) (s : jsstring) :
  forall (n i : nat),
    search r s n i = None ->
    forall j, i <= j < i + n -> matchAt r s j Some = None.
Proof.
  induction n as [|n IH]; intros i H j Hj; simpl in H; [lia|].
  destruct (matchAt r s i Some) as [e'|] eqn:E; [discriminate|].
  destruct (Nat.eq_dec j i) as [->|Hne]; [assumption|].
  apply (IH (S i)); [assumption|lia].
Qed.

Lemma exec_Some (r : regex) (s : jsstring) (lastIndex a e : nat) :
  exec r s lastIndex = Some (a, e) ->
  lastIndex <= a /\ a <= e <= List.length s
  /\ matchAt r s a Some = Some e
  /\ forall j, lastIndex <= j < a -> matchAt r s j Some = None.
Proof.
  unfold JS.exec. intros H.
  destruct (Nat.ltb (List.length s) lastIndex) eqn:E; [discriminate|].
  apply Nat.ltb_ge in E. apply search_Some in H.
  destruct H as (Ha & Hm & Hbefore).
  assert (a <= List.length s) by lia.
  pose proof (matchAt_span _ _ _ _ Hm H) as Hspan.
  split; [lia|]. split; [lia|]. split; assumption.
Qed.

Lemma exec_None (r : regex) (s : jsstring) (lastIndex : nat) :
  exec r s lastIndex = None ->
  forall j, lastIndex <= j <= List.length s -> matchAt r s j Some = None.
Proof.
  unfold JS.exec. intros H j Hj.
  destruct (Nat.ltb (List.length s) lastIndex) eqn:E.
  - apply Nat.ltb_lt in E. lia.
  - apply Nat.ltb_ge in E. eapply search_None; [eassumption|lia].
Qed.

(** The spans of the loop follow each other, and each is the leftmost
    match from the end of the previous one. *)
Lemma execAll_chained (r : regex) (s : jsstring) :
  forall (fuel lastIndex : nat) (ms : list (nat * nat)),
    execAll fuel r s lastIndex = Some ms ->
    chained lastIndex ms (List.length s).
Proof.
  induction fuel as [|fuel IH]; intros lastIndex ms H; simpl in H;
    [discriminate|].
  destruct (exec r s lastIndex) as [[a e]|] eqn:E.
  - destruct (execAll fuel r s e) as [ms'|] eqn:E'; [|discriminate].
    injection H as <-. apply exec_Some in E.
    destruct E as (Ha & He & _). simpl.
    split; [assumption|]. split; [assumption|]. apply IH. assumption.
  - injection H as <-. exact I.
Qed.

Lemma execAll_matches (r : regex) (s : jsstring) :
  forall (fuel lastIndex : nat) (ms : list (nat * nat)),
    execAll fuel r s lastIndex = Some ms ->
    forall a e, In (a, e) ms -> matchAt r s a Some = Some e.
Proof.
  induction fuel as [|fuel IH]; intros lastIndex ms H a e Hin; simpl in H;
    [discriminate|].
  destruct (exec r s lastIndex) as [[a' e']|] eqn:E.
  - destruct (execAll fuel r s e') as [ms'|] eqn:E'; [|discriminate].
    injection H as <-. destruct Hin as [Heq|Hin].
    + injection Heq as -> ->. apply exec_Some in E. tauto.
    + eapply IH; eassumption.
  - injection H as <-. destruct Hin.
Qed.

(** Every index at which the pattern matches lies inside a reported span:
    it is reported, or an earlier reported match runs over it. *)
Lemma execAll_covers (r : regex) (s : jsstring) :
  forall (fuel lastIndex : nat) (ms : list (nat * nat)),
    execAll fuel r s lastIndex = Some ms ->
    forall i e', lastIndex <= i <= List.length s ->
      matchAt r s i Some = Some e' ->
      exists a e, In (a, e) ms /\ a <= i < e.
Proof.
  induction fuel as [|fuel IH]; intros lastIndex ms H i e' Hi Hm; simpl in H;
    [discriminate|].
  destruct (exec r s lastIndex) as [[a e]|] eqn:E.
  - destruct (execAll fuel r s e) as [ms'|] eqn:E'; [|discriminate].
    injection H as <-. apply exec_Some in E.
    destruct E as (Ha & He & Hma & Hbefore).
    assert (a <= i) as Hai.
    { destruct (Nat.le_gt_cases a i) as [|Hlt]; [assumption|].
      rewrite Hbefore in Hm by lia. discriminate. }
    destruct (Nat.lt_ge_cases i e) as [Hlt|Hge].
    + exists a, e. split; [left; reflexivity|lia].
    + destruct (IH _ _ E' i e' ltac:(lia) Hm) as (a1 & e1 & Hin & Hspan).
      exists a1, e1. split; [right; assumption|assumption].
  - rewrite (@exec_None r s lastIndex E i Hi) in Hm. discriminate.
Qed.

(** When no match is empty the loop ends: the fuel the model gives it,
    one more than what is left of the text, is enough. *)
Lemma execAll_total (r : regex) (s : jsstring) :
  (forall a e, matchAt r s a Some = Some e -> a < e) ->
  forall (fuel lastIndex : nat),
    0 < fuel -> List.length s < fuel + lastIndex ->
    exists ms, execAll fuel r s lastIndex = Some ms.
Proof.
  intros Hprogress. induction fuel as [|fuel IH]; intros lastIndex Hpos Hfuel;
    [lia|].
  simpl. destruct (exec r s lastIndex) as [[a e]|] eqn:E.
  - apply exec_Some in E. destruct E as (Ha & He & Hma & _).
    apply Hprogress in Hma.
    destruct (IH e ltac:(lia) ltac:(lia)) as (ms & ->).
    eexists. reflexivity.
  - eexists. reflexivity.
Qed.

(** Once the loop has ended, more fuel does not change its result. *)
Lemma execAll_more_fuel (r : regex) (s : jsstring) :
  forall (fuel fuel' lastIndex : nat) (ms : list (nat * nat)),
    execAll fuel r s lastIndex = Some ms -> fuel <= fuel' ->
    execAll fuel' r s lastIndex = Some ms.
Proof.
  induction fuel as [|fuel IH]; intros fuel' lastIndex ms H Hle; simpl in H;
    [discriminate|].
  destruct fuel' as [|fuel']; [lia|]. simpl.
  destruct (exec r s lastIndex) as [[a e]|]; [|assumption].
  destruct (execAll fuel r s e) as [ms'|] eqn:E; [|discriminate].
  rewrite (IH fuel' e ms' E ltac:(lia)). assumption.
Qed.

(** For a literal pattern the matcher and the occurrence test agree. *)
Lemma matchAt_literal_occurs (q s : jsstring) (i : nat) :
  i <= List.length s ->
  matchAt (literal q) s i Some
  = if occursAt q s i then Some (i + List.length q) else None.
Proof.
  intros Hi. rewrite matchAt_literal. unfold LiteralSearch.occursAt.
  assert (Nat.leb i (List.length s) = true) as -> by (apply Nat.leb_le; lia).
  reflexivity.
Qed.

Lemma occursAt_inside (q s : jsstring) (i : nat) :
  occursAt q s i = true -> i <= List.length s.
Proof.
  unfold LiteralSearch.occursAt. intros H.
  apply andb_true_iff in H. destruct H as [H _]. apply Nat.leb_le. assumption.
Qed.

Lemma literal_progress (q s : jsstring) :
  q <> [] -> forall a e, matchAt (literal q) s a Some = Some e -> a < e.
Proof.
  intros Hq a e H. rewrite matchAt_literal in H.
  destruct (prefixCI q (skipn a s)); [|discriminate].
  injection H as <-. destruct q; [congruence|]. simpl. lia.
Qed.

End WithCase.

End MatchFacts.

(** ** The full text of a page and its runs *)

Module TextFacts.
Import JS Utils Spans.

Lemma tiles_snoc (runs : list Run.t) :
  forall (from to : nat) (run : Run.t),
    tiles from runs to ->
    Run.startIndex run = to -> to < Run.endIndex run ->
    tiles from (runs ++ [run]) (Run.endIndex run).
Proof.
  induction runs as [|r runs IH]; intros from to run H Hs He; simpl in *.
  - subst. split; [reflexivity|]. split; [lia|reflexivity].
  - destruct H as (H1 & H2 & H3). split; [assumption|]. split; [assumption|].
    eapply IH; eassumption.
Qed.

(** Every index of the tiled interval lies in one of the runs. *)
Lemma tiles_cover (runs : list Run.t) :
  forall (from to i : nat),
    tiles from runs to -> from <= i < to ->
    exists run, In run runs /\ Run.startIndex run <= i < Run.endIndex run.
Proof.
  induction runs as [|r runs IH]; intros from to i H Hi; simpl in H.
  - lia.
  - destruct H as (H1 & H2 & H3).
    destruct (Nat.lt_ge_cases i (Run.endIndex r)) as [Hlt|Hge].
    + exists r. split; [left; reflexivity|lia].
    + destruct (IH _ _ i H3 ltac:(lia)) as (run & Hin & Hrun).
      exists run. split; [right; assumption|assumption].
Qed.

(** One step of the loop keeps the tiling and only adds a run copied from
    the item. *)
Lemma addItem_tiles (fullText : jsstring) (textItems : list Run.t)
    (item : TextItem.t) :
  tiles 0 textItems (List.length fullText) ->
  tiles 0 (snd (addItem (fullText, textItems) item))
        (List.length (fst (addItem (fullText, textItems) item))).
Proof.
  intros H. unfold addItem.
  destruct (TextItem.str item) as [s|]; [|assumption].
  destruct s as [|c s]; [assumption|].
  cbn [truthy fst snd]. rewrite length_app.
  match goal with
  | |- tiles 0 (_ ++ [?run]) _ =>
      change (List.length fullText + List.length (c :: s))
        with (Run.endIndex run);
      apply (tiles_snoc _ 0 (List.length fullText) run H)
  end.
  - reflexivity.
  - simpl. lia.
Qed.

Lemma fold_addItem_tiles (items : list TextItem.t) :
  forall (acc : jsstring * list Run.t),
    tiles 0 (snd acc) (List.length (fst acc)) ->
    tiles 0 (snd (fold_left addItem items acc))
          (List.length (fst (fold_left addItem items acc))).
Proof.
  induction items as [|item items IH]; intros [fullText textItems] H.
  - assumption.
  - simpl fold_left. apply IH. apply addItem_tiles. assumption.
Qed.

Lemma collectText_tiles (items : list TextItem.t) :
  tiles 0 (snd (collectText items)) (List.length (fst (collectText items))).
Proof. apply fold_addItem_tiles. reflexivity. Qed.

Lemma fold_addItem_origin (items : list TextItem.t) :
  forall (acc : jsstring * list Run.t) (run : Run.t),
    In run (snd (fold_left addItem items acc)) ->
    In run (snd acc) \/ exists item, In item items /\ fromItem item run.
Proof.
  induction items as [|item items IH]; intros [fullText textItems] run H.
  - left. assumption.
  - simpl fold_left in H. apply IH in H. destruct H as [H|(it & Hin & Hfrom)].
    + unfold addItem in H.
      destruct (TextItem.str item) as [s|] eqn:Es; [|left; assumption].
      destruct (truthy s); [|left; assumption].
      cbn [snd] in H. apply in_app_or in H. destruct H as [H|[<-|[]]].
      * left. assumption.
      * right. exists item. split; [left; reflexivity|].
        unfold fromItem. simpl. auto.
    + right. exists it. split; [right; assumption|assumption].
Qed.

Lemma collectText_origin (items : list TextItem.t) (run : Run.t) :
  In run (snd (collectText items)) ->
  exists item, In item items /\ fromItem item run.
Proof.
  intros H. apply fold_addItem_origin in H. destruct H as [[]|H]. assumption.
Qed.

(** A non-empty span inside the full text touches a run. *)
Lemma contributing_nonempty (items : list TextItem.t) (a e : nat) :
  a < e -> e <= List.length (fst (collectText items)) ->
  contributing (snd (collectText items)) a e <> [].
Proof.
  intros Hae He.
  destruct (tiles_cover _ _ _ a (collectText_tiles items) ltac:(lia))
    as (run & Hin & Hrun).
  assert (In run (contributing (snd (collectText items)) a e)) as Hc.
  { apply filter_In. split; [assumption|].
    unfold overlaps. apply andb_true_iff.
    split; apply Nat.ltb_lt; lia. }
  intros Hnil. rewrite Hnil in Hc. destruct Hc.
Qed.

End TextFacts.

(** ** The search as a whole *)

Module SearchFacts.
Import JS LiteralSearch Utils Spans.

Section WithCase.

Variable toUpperCase : N -> jsstring.

(** The expression the source builds from the search text is the literal
    pattern of its characters. *)
Lemma findMatches_literal (fullText searchText : jsstring) :
  findMatches toUpperCase fullText searchText
  = match matchesIn toUpperCase (literal searchText) fullText with
    | Some ms => Normal ms
    | None => Diverge
    end.
Proof.
  unfold findMatches. rewrite PatternFacts.newRegExp_escaped. reflexivity.
Qed.

(** The loop over the matches of a non-empty search text ends. *)
Lemma matchesIn_literal_total (fullText searchText : jsstring) :
  searchText <> [] ->
  exists ms, matchesIn toUpperCase (literal searchText) fullText = Some ms.
Proof.
  intros Hq. unfold matchesIn. apply MatchFacts.execAll_total.
  - apply MatchFacts.literal_progress. assumption.
  - lia.
  - lia.
Qed.

Lemma chained_sorted (len : nat) (ms : list (nat * nat)) :
  forall from : nat,
    chained from ms len ->
    Forall (fun m => from <= fst m /\ fst m <= snd m <= len) ms
    /\ StronglySorted (fun m1 m2 => snd m1 <= fst m2) ms.
Proof.
  induction ms as [|[a e] ms IH]; intros from H; simpl in H.
  - split; constructor.
  - destruct H as (Ha & He & H). destruct (IH e H) as (Hall & Hsorted).
    split.
    + constructor; [simpl; lia|].
      eapply Forall_impl; [|exact Hall]. simpl. intros m Hm. lia.
    + constructor; [assumption|].
      eapply Forall_impl; [|exact Hall]. simpl. intros m Hm. lia.
Qed.

Lemma pageHighlights_eq (searchText : jsstring) (pageNum : nat)
    (page : TextContent.t) (color : string) (opacity : R) :
  pageHighlights toUpperCase searchText pageNum page color opacity
  = match findMatches toUpperCase
            (fst (collectText (TextContent.items page))) searchText with
    | Normal ms =>
        Normal (flat_map
                  (highlightsOfMatch pageNum
                     (fst (collectText (TextContent.items page)))
                     (snd (collectText (TextContent.items page))) color opacity)
                  ms)
    | Throw => Throw
    | Diverge => Diverge
    end.
Proof.
  unfold pageHighlights.
  destruct (collectText (TextContent.items page)) as [fullText textItems].
  reflexivity.
Qed.

(** A highlight of the document belongs to one of its pages, whose number
    it carries. *)
Lemma pagesFrom_In (searchText : jsstring) (color : string) (opacity : R)
    (pages : list TextContent.t) :
  forall (pageNum : nat) (hs : list PDFHighlight.t) (h : PDFHighlight.t),
    pagesFrom toUpperCase searchText pageNum pages color opacity = Normal hs ->
    In h hs ->
    exists (k : nat) (page : TextContent.t) (hs' : list PDFHighlight.t),
      nth_error pages k = Some page
      /\ pageHighlights toUpperCase searchText (pageNum + k) page color opacity
         = Normal hs'
      /\ In h hs'.
Proof.
  induction pages as [|page pages IH]; intros pageNum hs h H Hin; simpl in H.
  - injection H as <-. destruct Hin.
  - destruct (pageHighlights toUpperCase searchText pageNum page color opacity)
      as [hs1| |] eqn:E1; try discriminate.
    destruct (pagesFrom toUpperCase searchText (S pageNum) pages color opacity)
      as [hs2| |] eqn:E2; try discriminate.
    injection H as <-. apply in_app_or in Hin. destruct Hin as [Hin|Hin].
    + exists 0, page, hs1. rewrite Nat.add_0_r. auto.
    + destruct (IH _ _ _ E2 Hin) as (k & pg & hs' & Hk & Hp & Hh).
      exists (S k), pg, hs'. replace (pageNum + S k) with (S pageNum + k) by lia.
      auto.
Qed.

(** A rectangle of a highlight is the rectangle of a run that overlaps the
    match. *)
Lemma highlightsOfMatch_rects (pageNum : nat) (fullText : jsstring)
    (textItems : list Run.t) (color : string) (opacity : R) (m : nat * nat)
    (h : PDFHighlight.t) :
  In h (highlightsOfMatch pageNum fullText textItems color opacity m) ->
  PDFHighlight.pageNumber h = pageNum
  /\ PDFHighlight.rects h
     = map rectOf (contributing textItems (fst m) (snd m))
  /\ PDFHighlight.id h = highlightId pageNum (fst m).
Proof.
  destruct m as [a e]. unfold highlightsOfMatch.
  destruct (Nat.ltb 0 _); [intros [<-|[]] | intros []].
  split; [reflexivity|]. split; reflexivity.
Qed.

(** A match that touches a run produces its highlight. *)
Lemma highlightsOfMatch_kept (pageNum : nat) (fullText : jsstring)
    (textItems : list Run.t) (color : string) (opacity : R) (m : nat * nat) :
  contributing textItems (fst m) (snd m) <> [] ->
  exists h,
    highlightsOfMatch pageNum fullText textItems color opacity m = [h]
    /\ PDFHighlight.id h = highlightId pageNum (fst m)
    /\ PDFHighlight.content h = substring fullText (fst m) (snd m).
Proof.
  destruct m as [a e]. simpl. intros H. unfold highlightsOfMatch.
  destruct (contributing textItems a e) as [|run runs]; [congruence|].
  simpl. eexists. split; [reflexivity|]. split; reflexivity.
Qed.

(** The spans found for a non-empty search text: the loop ends, the spans
    are non-empty, lie inside the text and follow each other. *)
Lemma literal_matches_spans (fullText searchText : jsstring) :
  searchText <> [] ->
  exists ms,
    matchesIn toUpperCase (literal searchText) fullText = Some ms
    /\ Forall (fun m => fst m < snd m <= List.length fullText) ms
    /\ StronglySorted (fun m1 m2 => snd m1 <= fst m2) ms.
Proof.
  intros Hq.
  destruct (matchesIn_literal_total fullText _ Hq) as (ms & Hms).
  exists ms. split; [assumption|]. unfold matchesIn in Hms.
  pose proof (MatchFacts.execAll_chained _ _ _ _ _ _ Hms) as Hc.
  apply chained_sorted in Hc. destruct Hc as (Hall & Hsorted).
  split; [|assumption].
  rewrite Forall_forall in *. intros [a e] Hin.
  pose proof (MatchFacts.execAll_matches _ _ _ _ _ _ Hms a e Hin) as Hm.
  apply MatchFacts.literal_progress in Hm; [|assumption].
  specialize (Hall _ Hin). simpl in *. lia.
Qed.

(** When every match touches a run, every match has its highlight, in
    order. *)
Lemma flat_map_kept (pageNum : nat) (fullText : jsstring)
    (textItems : list Run.t) (color : string) (opacity : R)
    (ms : list (nat * nat)) :
  (forall m, In m ms -> contributing textItems (fst m) (snd m) <> []) ->
  map PDFHighlight.id
      (flat_map (highlightsOfMatch pageNum fullText textItems color opacity) ms)
  = map (fun m => highlightId pageNum (fst m)) ms.
Proof.
  induction ms as [|m ms IH]; intros H; [reflexivity|].
  destruct (highlightsOfMatch_kept pageNum fullText textItems color opacity m
              (H m (or_introl eq_refl))) as (h & Hh & Hid & _).
  simpl flat_map. rewrite Hh. simpl. rewrite Hid. f_equal.
  apply IH. intros m' Hm'. apply H. right. assumption.
Qed.

End WithCase.

Lemma trimStart_all (s : jsstring) :
  Forall (fun c => isTrimmed c = true) s -> trimStart s = [].
Proof.
  induction 1 as [|c s Hc _ IH]; simpl; [reflexivity|].
  rewrite Hc. assumption.
Qed.

Lemma trim_all (s : jsstring) :
  Forall (fun c => isTrimmed c = true) s -> trim s = [].
Proof.
  intros H. unfold trim, trimEnd. rewrite (trimStart_all _ H). reflexivity.
Qed.

End SearchFacts.

(** * The search ([utils.ts]) *)

Import JS LiteralSearch Utils Spans.

(** Strictly ascending starts follow from spans that are non-empty and do
    not overlap. *)
Lemma sorted_starts (ms : list (nat * nat)) :
  Forall (fun m => fst m < snd m) ms ->
  StronglySorted (fun m1 m2 => snd m1 <= fst m2) ms ->
  StronglySorted (fun m1 m2 => fst m1 < fst m2) ms.
Proof.
  intros Hne Hs. induction Hs as [|m ms Hs IH Hall]; [constructor|].
  inversion Hne as [|m' ms' Hm Hne']; subst.
  constructor; [apply IH; assumption|].
  eapply Forall_impl; [|exact Hall]. simpl. intros m2 H2. lia.
Qed.

(** Claim C4.  A run is among the runs that contribute to the match
    [[s, e)] if and only if it is a run of the page with [endIndex > s] and
    [startIndex < e]; a run that ends at or before [s], or starts at or
    after [e], is not among them; and the rectangles of the highlight of a
    match are those of its contributing runs. *)
Theorem contributing_iff_overlap (textItems : list Run.t) (s e : nat)
    (run : Run.t) :
  (In run (contributing textItems s e)
   <-> In run textItems /\ Run.endIndex run > s /\ Run.startIndex run < e)
  /\ (Run.endIndex run <= s \/ e <= Run.startIndex run ->
      ~ In run (contributing textItems s e))
  /\ (forall pageNum fullText color opacity h,
        In h (highlightsOfMatch pageNum fullText textItems color opacity (s, e)) ->
        PDFHighlight.rects h = map rectOf (contributing textItems s e)).
Proof.
  assert (In run (contributing textItems s e)
          <-> In run textItems /\ Run.endIndex run > s /\ Run.startIndex run < e)
    as Hiff.
  { unfold contributing, overlaps. rewrite filter_In, andb_true_iff.
    rewrite !Nat.ltb_lt. unfold gt. tauto. }
  split; [exact Hiff|]. split.
  - intros Hout Hin. apply Hiff in Hin. lia.
  - intros pageNum fullText color opacity h Hin.
    apply SearchFacts.highlightsOfMatch_rects in Hin.
    destruct Hin as (_ & Hr & _). exact Hr.
Qed.

(** Claim C5.  The expression built from a search text is the literal
    pattern of its characters, whatever they are: each character, syntax
    character or not, becomes an atom that matches itself.  The search then
    ends, every span it reports is an occurrence of the search text in
    [fullText] up to case, and every occurrence up to case is reported or
    starts inside a reported one (the scan resumes at the end of a match). *)
Theorem search_is_literal (toUpperCase : N -> jsstring)
    (fullText searchText : jsstring) :
  searchText <> [] ->
  newRegExp (escapeMetacharacters searchText) = Some (literal searchText)
  /\ exists ms,
       findMatches toUpperCase fullText searchText = Normal ms
       /\ (forall a e, In (a, e) ms ->
             e = a + List.length searchText
             /\ occursAt toUpperCase searchText fullText a = true)
       /\ (forall i, occursAt toUpperCase searchText fullText i = true ->
             exists a e, In (a, e) ms /\ a <= i < e).
Proof.
  intros Hq. split; [apply PatternFacts.newRegExp_escaped|].
  rewrite SearchFacts.findMatches_literal.
  destruct (SearchFacts.matchesIn_literal_total toUpperCase fullText _ Hq)
    as (ms & Hms).
  exists ms. split; [rewrite Hms; reflexivity|]. unfold matchesIn in Hms. split.
  - intros a e Hin.
    pose proof (MatchFacts.execAll_matches _ _ _ _ _ _ Hms a e Hin) as Hm.
    pose proof (MatchFacts.execAll_chained _ _ _ _ _ _ Hms) as Hc.
    apply SearchFacts.chained_sorted in Hc. destruct Hc as (Hall & _).
    rewrite Forall_forall in Hall. specialize (Hall _ Hin). simpl in Hall.
    rewrite MatchFacts.matchAt_literal_occurs in Hm by lia.
    destruct (occursAt toUpperCase searchText fullText a); [|discriminate].
    injection Hm as <-. split; reflexivity.
  - intros i Hi.
    pose proof (MatchFacts.occursAt_inside _ _ _ _ Hi) as Hlen.
    apply (MatchFacts.execAll_covers _ _ _ _ _ _ Hms i (i + List.length searchText)).
    + lia.
    + rewrite MatchFacts.matchAt_literal_occurs by assumption.
      rewrite Hi. reflexivity.
Qed.

Lemma search_is_literal_witness :
  units "a.b*c" <> []
  /\ (newRegExp (escapeMetacharacters (units "a.b*c"))
      = Some (literal (units "a.b*c"))
      /\ exists ms,
           findMatches asciiUpperCase (units "xA.B*Cy axbbc a.b*c") (units "a.b*c")
           = Normal ms
           /\ (forall a e, In (a, e) ms ->
                 e = a + List.length (units "a.b*c")
                 /\ occursAt asciiUpperCase (units "a.b*c")
                      (units "xA.B*Cy axbbc a.b*c") a = true)
           /\ (forall i,
                 occursAt asciiUpperCase (units "a.b*c")
                   (units "xA.B*Cy axbbc a.b*c") i = true ->
                 exists a e, In (a, e) ms /\ a <= i < e)).
Proof.
  split; [discriminate|].
  apply (search_is_literal asciiUpperCase (units "xA.B*Cy axbbc a.b*c")
           (units "a.b*c")).
  discriminate.
Defined.

(** The scenario of the specification, run: the escaped text finds the two
    literal occurrences, the unescaped pattern would find other spans. *)
Example metacharacters_scenario :
  findMatches asciiUpperCase (units "xA.B*Cy axbbc a.b*c") (units "a.b*c")
  = Normal [(1, 6); (14, 19)]
  /\ option_map
       (fun r => matchesIn asciiUpperCase r (units "xA.B*Cy axbbc a.b*c"))
       (newRegExp (units "a.b*c"))
     = Some (Some [(8, 13)]).
Proof. split; vm_compute; reflexivity. Qed.

(** Claim C6.  For a non-empty search text the search ends, and the spans
    it reports are non-empty, pairwise non-overlapping (each ends at or
    before the start of every later one) and in strictly ascending order of
    their start index. *)
Theorem matches_sorted_disjoint (toUpperCase : N -> jsstring)
    (fullText searchText : jsstring) :
  searchText <> [] ->
  exists ms,
    findMatches toUpperCase fullText searchText = Normal ms
    /\ Forall (fun m => fst m < snd m <= List.length fullText) ms
    /\ StronglySorted (fun m1 m2 => snd m1 <= fst m2) ms
    /\ StronglySorted (fun m1 m2 => fst m1 < fst m2) ms.
Proof.
  intros Hq. rewrite SearchFacts.findMatches_literal.
  destruct (SearchFacts.literal_matches_spans toUpperCase fullText _ Hq)
    as (ms & Hms & Hne & Hsorted).
  exists ms. split; [rewrite Hms; reflexivity|].
  split; [assumption|]. split; [assumption|].
  apply sorted_starts; [|assumption].
  eapply Forall_impl; [|exact Hne]. simpl. intros m Hm. lia.
Qed.

Lemma matches_sorted_disjoint_witness :
  units "aa" <> []
  /\ exists ms,
       findMatches asciiUpperCase (units "aaaAa") (units "aa") = Normal ms
       /\ Forall (fun m => fst m < snd m <= List.length (units "aaaAa")) ms
       /\ StronglySorted (fun m1 m2 => snd m1 <= fst m2) ms
       /\ StronglySorted (fun m1 m2 => fst m1 < fst m2) ms.
Proof.
  split; [discriminate|].
  apply (matches_sorted_disjoint asciiUpperCase (units "aaaAa") (units "aa")).
  discriminate.
Defined.

(** Overlapping occurrences are not both reported. *)
Example overlapping_occurrences :
  findMatches asciiUpperCase (units "aaaAa") (units "aa")
  = Normal [(0, 2); (2, 4)].
Proof. vm_compute. reflexivity. Qed.

(** Claim C9.  With a search text that is empty or made of white space only
    the function returns the empty array, for any document, and it does
    return. *)
Theorem blank_query_no_highlights (toUpperCase : N -> jsstring)
    (pdfDocument : option PDFDocumentProxy) (searchText : jsstring)
    (color : string) (opacity : R) :
  Forall (fun c => isTrimmed c = true) searchText ->
  createHighlightsForText toUpperCase pdfDocument searchText color opacity
  = Some [].
Proof.
  intros H. unfold createHighlightsForText.
  destruct pdfDocument as [pages|]; [|reflexivity].
  rewrite (SearchFacts.trim_all _ H). reflexivity.
Qed.

Lemma blank_query_no_highlights_witness :
  Forall (fun c => isTrimmed c = true) [32; 9; 160; 10]%N
  /\ createHighlightsForText asciiUpperCase (Some Scenario.document)
       [32; 9; 160; 10]%N "#ffff00" (3 / 10)
     = Some [].
Proof.
  split; [repeat constructor|].
  apply (blank_query_no_highlights asciiUpperCase (Some Scenario.document)
           [32; 9; 160; 10]%N "#ffff00" (3 / 10)).
  repeat constructor.
Defined.

(** Claim C10.  The runs retained for a page tile [[0, fullText.length)] in
    order: the first starts at 0, each next one starts where the previous
    one ends, the last ends at the length of the full text, and none is
    empty.  So every span found for a non-empty search text touches at
    least one run, and the page has one highlight per match, in order: the
    guard on the number of rectangles drops nothing. *)
Theorem runs_tile_fullText (toUpperCase : N -> jsstring)
    (page : TextContent.t) (searchText : jsstring) (pageNum : nat)
    (color : string) (opacity : R) :
  searchText <> [] ->
  let fullText := fst (collectText (TextContent.items page)) in
  let textItems := snd (collectText (TextContent.items page)) in
  tiles 0 textItems (List.length fullText)
  /\ exists ms,
       findMatches toUpperCase fullText searchText = Normal ms
       /\ (forall m, In m ms -> contributing textItems (fst m) (snd m) <> [])
       /\ exists hs,
            pageHighlights toUpperCase searchText pageNum page color opacity
            = Normal hs
            /\ map PDFHighlight.id hs
               = map (fun m => highlightId pageNum (fst m)) ms.
Proof.
  intros Hq fullText textItems.
  split; [apply TextFacts.collectText_tiles|].
  rewrite SearchFacts.findMatches_literal.
  destruct (SearchFacts.literal_matches_spans toUpperCase fullText _ Hq)
    as (ms & Hms & Hne & _).
  assert (forall m, In m ms -> contributing textItems (fst m) (snd m) <> [])
    as Hkept.
  { intros m Hin. rewrite Forall_forall in Hne. specialize (Hne m Hin).
    apply TextFacts.contributing_nonempty; apply Hne. }
  exists ms. split; [rewrite Hms; reflexivity|]. split; [assumption|].
  rewrite SearchFacts.pageHighlights_eq, SearchFacts.findMatches_literal.
  fold fullText textItems. rewrite Hms. eexists. split; [reflexivity|].
  apply SearchFacts.flat_map_kept. assumption.
Qed.

Lemma runs_tile_fullText_witness :
  units "world" <> []
  /\ (let fullText := fst (collectText (TextContent.items Scenario.page)) in
      let textItems := snd (collectText (TextContent.items Scenario.page)) in
      tiles 0 textItems (List.length fullText)
      /\ exists ms,
           findMatches asciiUpperCase fullText (units "world") = Normal ms
           /\ (forall m, In m ms ->
                 contributing textItems (fst m) (snd m) <> [])
           /\ exists hs,
                pageHighlights asciiUpperCase (units "world") 1
                  Scenario.page "#ffff00" (3 / 10) = Normal hs
                /\ map PDFHighlight.id hs
                   = map (fun m => highlightId 1 (fst m)) ms).
Proof.
  split; [discriminate|].
  apply (runs_tile_fullText asciiUpperCase Scenario.page (units "world") 1
           "#ffff00" (3 / 10)).
  discriminate.
Defined.

(** * The text layer ([PDFPage.tsx]) and the highlight boxes ([PDFHighlight.tsx]) *)

Module LayerFacts.
Import PDFPage.
Local Open Scope R_scope.

Lemma sqrt_vertical (x : R) : 0 <= x -> sqrt (0 * 0 + x * x) = x.
Proof.
  intros Hx. replace (0 * 0 + x * x) with (x * x) by ring.
  apply sqrt_square. assumption.
Qed.

Lemma sqrt_horizontal (x : R) : 0 <= x -> sqrt (x * x + 0 * 0) = x.
Proof.
  intros Hx. replace (x * x + 0 * 0) with (x * x) by ring.
  apply sqrt_square. assumption.
Qed.

Lemma truthy_trim (str : jsstring) : truthy (trim str) = true -> truthy str = true.
Proof. destruct str; [discriminate|reflexivity]. Qed.

Section WithMeasure.

Variable round : R -> R.
Variable measureText : R -> string -> jsstring -> R.

(** The span of an item that is not skipped, field by field. *)
Lemma renderTextItem_Some (styles : string -> option string)
    (pdfViewport : PDFPageViewport.t) (textItem : TextItem.t) (span : Span.t) :
  renderTextItem round measureText styles pdfViewport textItem = Some span ->
  let m := TextItem.transform textItem in
  let scale := PDFPageViewport.scale pdfViewport in
  TextItem.str textItem = Some (Span.textContent span)
  /\ truthy (trim (Span.textContent span)) = true
  /\ (6 <= List.length m)%nat
  /\ Span.fontFamily span = fontFamilyOf styles (TextItem.fontName textItem)
  /\ Span.fontSize span
     = sqrt (Matrix.scaleX m * Matrix.scaleX m + Matrix.skewY m * Matrix.skewY m)
       * scale
  /\ Span.left span = Matrix.translateX m * scale
  /\ Span.top span
     = (Matrix.translateY m
        - sqrt (Matrix.skewX m * Matrix.skewX m + Matrix.scaleY m * Matrix.scaleY m))
       * scale
  /\ Span.width span
     = (if Rlt_dec 0 (TextItem.width textItem)
        then Some (TextItem.width textItem * scale) else None).
Proof.
  unfold renderTextItem. intros H.
  destruct (TextItem.str textItem) as [str|]; [|discriminate].
  destruct (truthy str) eqn:Et; [|discriminate].
  destruct (truthy (trim str)) eqn:Ett; [|discriminate].
  cbn [negb orb] in H.
  destruct (Nat.ltb (List.length (TextItem.transform textItem)) 6) eqn:El;
    [discriminate|].
  apply Nat.ltb_ge in El. injection H as <-. cbn.
  repeat (split; [first [reflexivity | assumption]|]).
  destruct (Rlt_dec 0 (TextItem.width textItem)); reflexivity.
Qed.

(** An item with a non-blank string and a full transform gets a span. *)
Lemma renderTextItem_defined (styles : string -> option string)
    (pdfViewport : PDFPageViewport.t) (textItem : TextItem.t) (str : jsstring) :
  TextItem.str textItem = Some str ->
  truthy (trim str) = true ->
  (6 <= List.length (TextItem.transform textItem))%nat ->
  exists span, renderTextItem round measureText styles pdfViewport textItem = Some span.
Proof.
  intros Hs Ht Hl. unfold renderTextItem. rewrite Hs, Ht, (truthy_trim _ Ht).
  cbn [negb orb].
  assert (Nat.ltb (List.length (TextItem.transform textItem)) 6 = false) as ->
      by (apply Nat.ltb_ge; assumption).
  eexists. reflexivity.
Qed.

(** The [transform] style of a span. *)
Lemma renderTextItem_transform (styles : string -> option string)
    (pdfViewport : PDFPageViewport.t) (textItem : TextItem.t) (span : Span.t) :
  renderTextItem round measureText styles pdfViewport textItem = Some span ->
  let textWidth := TextItem.width textItem * PDFPageViewport.scale pdfViewport in
  let measuredWidth :=
    measureText (Span.fontSize span) (Span.fontFamily span) (Span.textContent span) in
  Span.transform span
  = if Rlt_dec 0 (TextItem.width textItem) then
      if Rlt_dec 0 measuredWidth then
        if exceedsTolerance round (TextItem.width textItem)
             (PDFPageViewport.scale pdfViewport) measuredWidth
        then Some (textWidth / measuredWidth)
        else None
      else None
    else None.
Proof.
  unfold renderTextItem. intros H.
  destruct (TextItem.str textItem) as [str|]; [|discriminate].
  destruct (negb (truthy str) || negb (truthy (trim str)))%bool; [discriminate|].
  destruct (Nat.ltb (List.length (TextItem.transform textItem)) 6);
    [discriminate|].
  injection H as <-. cbn.
  destruct (Rlt_dec 0 (TextItem.width textItem)); reflexivity.
Qed.

(** The spans of the layer are those of its items. *)
Lemma renderTextLayer_In (textContent : TextContent.t)
    (pdfViewport : PDFPageViewport.t) (span : Span.t) :
  In span (renderTextLayer round measureText textContent pdfViewport)
  <-> exists textItem,
        In textItem (TextContent.items textContent)
        /\ renderTextItem round measureText (TextContent.styles textContent)
             pdfViewport textItem = Some span.
Proof.
  unfold renderTextLayer. rewrite in_flat_map. split.
  - intros (textItem & Hin & Hspan). exists textItem. split; [assumption|].
    destruct (renderTextItem round measureText _ pdfViewport textItem) as [sp|];
      [|destruct Hspan].
    destruct Hspan as [->|[]]. reflexivity.
  - intros (textItem & Hin & Hspan). exists textItem. split; [assumption|].
    rewrite Hspan. left. reflexivity.
Qed.

End WithMeasure.

End LayerFacts.

Import PDFPage.
Local Open Scope R_scope.

(** The search of the scenario: one highlight with one rectangle. *)
Lemma scenario_highlights :
  createHighlightsForText asciiUpperCase (Some Scenario.document)
    (units "world") "#ffff00" (3 / 10)
  = Some
      [ {| PDFHighlight.id := "highlight-1-6";
           PDFHighlight.pageNumber := 1;
           PDFHighlight.rects :=
             [ {| PDFRect.left := 50; PDFRect.top := 700;
                  PDFRect.width := 66; PDFRect.height := Rabs 12 |} ];
           PDFHighlight.color := "#ffff00";
           PDFHighlight.opacity := 3 / 10;
           PDFHighlight.content := units "world" |} ].
Proof.
  unfold createHighlightsForText.
  change (negb (truthy (trim (units "world")))) with false. cbv iota.
  unfold Scenario.document, pagesFrom. rewrite SearchFacts.pageHighlights_eq.
  assert (findMatches asciiUpperCase
            (fst (collectText (TextContent.items Scenario.page)))
            (units "world")
          = Normal [(6, 11)]%nat) as -> by (vm_compute; reflexivity).
  cbn [flat_map app]. unfold highlightsOfMatch.
  assert (contributing (snd (collectText (TextContent.items Scenario.page))) 6 11
          = snd (collectText (TextContent.items Scenario.page))) as ->
      by reflexivity.
  cbn [collectText Scenario.page TextContent.items fold_left addItem
       Scenario.item TextItem.str TextItem.transform TextItem.width
       TextItem.height units truthy snd fst map app List.length].
  unfold rectOf. cbn.
  destruct (Req_EM_T 66 0) as [Habs|_]; [lra|]. reflexivity.
Qed.

(** Claim C2, evaluated where the code departs from it.  In the scenario
    the search returns one highlight with one rectangle, that of the run
    "Hello world", in PDF coordinates: [top = translateY = 700] and
    [height = |scaleY| = 12].  The [renderHighlight] of
    [PDFHighlight.tsx:21-70] draws it unchanged, at [top = 700], whatever the
    viewport: the Y coordinate is neither flipped around the page height nor
    scaled.  The claimed value on the page 792 units high at scale 1 is
    [(792 - 700 - 12) * 1 = 80]; the other version of [renderHighlight]
    ([PDFHighlight.tsx:115-160]) computes it. *)
Theorem highlight_top_scenario :
  exists h rect,
    createHighlightsForText asciiUpperCase (Some Scenario.document)
      (units "world") "#ffff00" (3 / 10) = Some [h]
    /\ PDFHighlight.pageNumber h = 1%nat
    /\ PDFHighlight.rects h = [rect]
    /\ rect = rectOf (nth 0 (snd (collectText (TextContent.items Scenario.page)))
                        {| Run.text := []; Run.startIndex := 0;
                           Run.endIndex := 0; Run.transform := [];
                           Run.width := 0; Run.height := 0 |})
    /\ PDFRect.top rect = Matrix.translateY (TextItem.transform Scenario.item)
    /\ PDFRect.top rect = 700
    /\ PDFRect.height rect = 12
    /\ (forall viewport,
          PixelSpaceHighlight.render [h] 1 viewport = [[rect]])
    /\ (PDFPageViewport.height Scenario.viewport
         - Matrix.translateY (TextItem.transform Scenario.item)
         - PDFRect.height rect)
        * PDFPageViewport.scale Scenario.viewport = 80
    /\ PDFRect.top (PdfSpaceHighlight.canvasRect Scenario.viewport rect) = 80.
Proof.
  eexists. eexists.
  split; [exact scenario_highlights|].
  split; [reflexivity|]. split; [reflexivity|].
  split.
  - cbn [Scenario.page TextContent.items collectText fold_left addItem
         Scenario.item TextItem.str TextItem.transform TextItem.width
         TextItem.height units truthy snd fst app nth].
    unfold rectOf. cbn.
    destruct (Req_EM_T 66 0) as [Habs|_]; [lra|]. reflexivity.
  - cbn [PDFRect.top PDFRect.height]. rewrite Rabs_pos_eq by lra.
    split; [reflexivity|]. split; [reflexivity|]. split; [reflexivity|].
    split; [intros viewport; reflexivity|].
    cbn. split; lra.
Qed.

(** The text layer of a page with one non-blank item has one span. *)
Lemma single_item_layer (round : R -> R)
    (measureText : R -> string -> jsstring -> R)
    (textContent : TextContent.t) (textItem : TextItem.t) :
  textContent = Scenario.page /\ textItem = Scenario.item
  \/ textContent = Scenario.condensedPage /\ textItem = Scenario.condensedItem ->
  exists span,
    renderTextItem round measureText (TextContent.styles textContent)
      Scenario.viewport textItem = Some span
    /\ renderTextLayer round measureText textContent Scenario.viewport = [span].
Proof.
  intros [[-> ->] | [-> ->]].
  - destruct (LayerFacts.renderTextItem_defined round measureText (fun _ => None)
                Scenario.viewport Scenario.item (units "Hello world")
                eq_refl eq_refl ltac:(simpl; lia)) as (span & Hspan).
    exists span. split; [exact Hspan|].
    unfold renderTextLayer.
    cbn [TextContent.items TextContent.styles Scenario.page flat_map app].
    rewrite Hspan. reflexivity.
  - destruct (LayerFacts.renderTextItem_defined round measureText (fun _ => None)
                Scenario.viewport Scenario.condensedItem (units "Hello world")
                eq_refl eq_refl ltac:(simpl; lia)) as (span & Hspan).
    exists span. split; [exact Hspan|].
    unfold renderTextLayer.
    cbn [TextContent.items TextContent.styles Scenario.condensedPage
         flat_map app].
    rewrite Hspan. reflexivity.
Qed.

(** Claim C1, evaluated where the code departs from it.  For the page of
    the scenario, one run with [transform = [12, 0, 0, 12, 50, 700]] on a
    page 792 units high at scale 1, the text layer holds one span, with
    [top = (700 - 12) * 1 = 688]: the Y coordinate is not flipped around the
    page height.  The claimed value is [(792 - 700) * 1 - 12 = 80]. *)
Theorem text_layer_top_scenario (round : R -> R)
    (measureText : R -> string -> jsstring -> R) :
  exists span,
    renderTextLayer round measureText Scenario.page Scenario.viewport = [span]
    /\ Span.top span = 688
    /\ (PDFPageViewport.height Scenario.viewport
        / PDFPageViewport.scale Scenario.viewport
        - Matrix.translateY (TextItem.transform Scenario.item))
       * PDFPageViewport.scale Scenario.viewport
       - fontHeight Scenario.viewport (TextItem.transform Scenario.item)
       = 80.
Proof.
  destruct (single_item_layer round measureText Scenario.page Scenario.item
              (or_introl (conj eq_refl eq_refl))) as (span & Hspan & Hlayer).
  exists span. split; [assumption|].
  apply LayerFacts.renderTextItem_Some in Hspan.
  destruct Hspan as (_ & _ & _ & _ & _ & _ & Htop & _).
  split.
  - rewrite Htop. cbn. rewrite LayerFacts.sqrt_vertical by lra. lra.
  - unfold fontHeight. cbn. rewrite LayerFacts.sqrt_vertical by lra. lra.
Qed.

(** Claim C3, evaluated where the code departs from it.  For a page with
    one run with [transform = [10, 0, 0, 12, 50, 700]] at scale 1 the font
    size of the span is [sqrt(10^2 + 0^2) * 1 = 10], the length of the
    horizontal basis vector; the claimed value
    [sqrt(skewX^2 + scaleY^2) * scale], which the code computes as
    [fontHeight] and leaves unused, is 12. *)
Theorem text_layer_font_size_condensed
    (round : R -> R)
    (measureText : R -> string -> jsstring -> R) :
  exists span,
    renderTextLayer round measureText Scenario.condensedPage Scenario.viewport = [span]
    /\ Span.fontSize span = 10
    /\ sqrt (Matrix.skewX (TextItem.transform Scenario.condensedItem)
             * Matrix.skewX (TextItem.transform Scenario.condensedItem)
             + Matrix.scaleY (TextItem.transform Scenario.condensedItem)
               * Matrix.scaleY (TextItem.transform Scenario.condensedItem))
       * PDFPageViewport.scale Scenario.viewport = 12
    /\ fontHeight Scenario.viewport (TextItem.transform Scenario.condensedItem)
       = 12.
Proof.
  destruct (single_item_layer round measureText Scenario.condensedPage
              Scenario.condensedItem (or_intror (conj eq_refl eq_refl)))
    as (span & Hspan & Hlayer).
  exists span. split; [assumption|].
  apply LayerFacts.renderTextItem_Some in Hspan.
  destruct Hspan as (_ & _ & _ & _ & Hsize & _).
  split.
  - rewrite Hsize. cbn. rewrite LayerFacts.sqrt_horizontal by lra. lra.
  - unfold fontHeight. cbn. rewrite LayerFacts.sqrt_vertical by lra.
    split; lra.
Qed.

(** Claim C7.  For a fixed text item, a viewport with twice the scale (and
    the same rotation) gives a span whose [left], [top], font size and width
    are twice those of the first; so is the magnitude of [top], and so is
    the glyph height [fontHeight]. *)
Theorem projection_scale_linear (round : R -> R)
    (measureText : R -> string -> jsstring -> R)
    (styles : string -> option string) (viewport viewport2 : PDFPageViewport.t)
    (textItem : TextItem.t) (span : Span.t) :
  renderTextItem round measureText styles viewport textItem = Some span ->
  PDFPageViewport.scale viewport2 = 2 * PDFPageViewport.scale viewport ->
  PDFPageViewport.rotation viewport2 = PDFPageViewport.rotation viewport ->
  exists span2,
    renderTextItem round measureText styles viewport2 textItem = Some span2
    /\ Span.left span2 = 2 * Span.left span
    /\ Span.top span2 = 2 * Span.top span
    /\ Rabs (Span.top span2) = 2 * Rabs (Span.top span)
    /\ Span.fontSize span2 = 2 * Span.fontSize span
    /\ Span.width span2 = option_map (Rmult 2) (Span.width span)
    /\ fontHeight viewport2 (TextItem.transform textItem)
       = 2 * fontHeight viewport (TextItem.transform textItem).
Proof.
  intros Hspan Hscale _.
  apply LayerFacts.renderTextItem_Some in Hspan.
  destruct Hspan as (Hstr & Htrim & Hlen & _ & Hsize & Hleft & Htop & Hwidth).
  destruct (LayerFacts.renderTextItem_defined round measureText styles viewport2
              textItem _ Hstr Htrim Hlen) as (span2 & Hspan2).
  exists span2. split; [assumption|].
  apply LayerFacts.renderTextItem_Some in Hspan2.
  destruct Hspan2 as (_ & _ & _ & _ & Hsize2 & Hleft2 & Htop2 & Hwidth2).
  assert (Span.top span2 = 2 * Span.top span) as Htop'
      by (rewrite Htop2, Htop, Hscale; ring).
  split; [rewrite Hleft2, Hleft, Hscale; ring|].
  split; [assumption|].
  split; [rewrite Htop', Rabs_mult, (Rabs_pos_eq 2) by lra; reflexivity|].
  split; [rewrite Hsize2, Hsize, Hscale; ring|].
  split.
  - rewrite Hwidth2, Hwidth.
    destruct (Rlt_dec 0 (TextItem.width textItem)); [|reflexivity].
    simpl. f_equal. rewrite Hscale. ring.
  - unfold fontHeight. rewrite Hscale. ring.
Qed.

Lemma projection_scale_linear_witness :
  exists span viewport2,
    renderTextItem (fun x => x) (fun _ _ _ => 33) (TextContent.styles Scenario.page)
      Scenario.viewport Scenario.item = Some span
    /\ PDFPageViewport.scale viewport2
       = 2 * PDFPageViewport.scale Scenario.viewport
    /\ PDFPageViewport.rotation viewport2
       = PDFPageViewport.rotation Scenario.viewport
    /\ exists span2,
         renderTextItem (fun x => x) (fun _ _ _ => 33) (TextContent.styles Scenario.page)
           viewport2 Scenario.item = Some span2
         /\ Span.left span2 = 2 * Span.left span
         /\ Span.top span2 = 2 * Span.top span
         /\ Rabs (Span.top span2) = 2 * Rabs (Span.top span)
         /\ Span.fontSize span2 = 2 * Span.fontSize span
         /\ Span.width span2 = option_map (Rmult 2) (Span.width span)
         /\ fontHeight viewport2 (TextItem.transform Scenario.item)
            = 2 * fontHeight Scenario.viewport (TextItem.transform Scenario.item).
Proof.
  eexists.
  exists {| PDFPageViewport.width := 1224; PDFPageViewport.height := 1584;
            PDFPageViewport.scale := 2; PDFPageViewport.rotation := 0 |}.
  assert (renderTextItem (fun x => x) (fun _ _ _ => 33) (TextContent.styles Scenario.page)
            Scenario.viewport Scenario.item = Some _) as Hspan
      by (unfold renderTextItem; reflexivity).
  split; [exact Hspan|].
  split; [simpl; lra|]. split; [reflexivity|].
  apply (projection_scale_linear (fun x => x) (fun _ _ _ => 33)
           (TextContent.styles Scenario.page) Scenario.viewport _
           Scenario.item _ Hspan).
  - simpl. lra.
  - reflexivity.
Defined.



(** The correction in the scenario when the browser measures 33 pixels: the
    span is stretched by a factor of 2, whatever the rounding, provided it
    leaves the doubles 66, 2 and 1 as they are. *)
Example scenario_stretched (round : R -> R) :
  round (66 * 1) = 66 -> round (66 / 33) = 2 -> round (2 - 1) = 1 ->
  exists span,
    renderTextItem round (fun _ _ _ => 33) (TextContent.styles Scenario.page)
      Scenario.viewport Scenario.item = Some span
    /\ Span.transform span = Some (66 * 1 / 33).
Proof.
  intros H66 H2 H1.
  destruct (single_item_layer round (fun _ _ _ => 33) Scenario.page
              Scenario.item (or_introl (conj eq_refl eq_refl)))
    as (span & Hspan & _).
  exists span. split; [assumption|].
  pose proof (LayerFacts.renderTextItem_transform _ _ _ _ _ _ Hspan) as Ht.
  cbn in Ht. rewrite Ht. unfold exceedsTolerance, tolerance.
  rewrite H66, H2, H1.
  destruct (Rlt_dec 0 66) as [_|Hn]; [|lra].
  destruct (Rlt_dec 0 33) as [_|Hn]; [|lra].
  destruct (Rlt_dec _ (Rabs 1)) as [_|Hn]; [reflexivity|].
  exfalso. apply Hn. rewrite Rabs_pos_eq by lra. lra.
Qed.

(** At the edge of the tolerance the rounding decides.  A run 101 units
    wide measured at 100 pixels has a factor of [101/100] exactly; the
    double nearest to it, [4548635623644201 * 2^-52], is further from 1 than
    the double written [0.01], and the span is scaled. *)
Example scenario_edge_of_tolerance (round : R -> R)
    (styles : string -> option string) (textItem : TextItem.t) (span : Span.t) :
  round (101 * 1) = 101 ->
  round (101 / 100) = 4548635623644201 / 4503599627370496 ->
  round (4548635623644201 / 4503599627370496 - 1)
  = 4548635623644201 / 4503599627370496 - 1 ->
  TextItem.width textItem = 101 ->
  renderTextItem round (fun _ _ _ => 100) styles Scenario.viewport textItem
  = Some span ->
  Rabs (101 * 1 / 100 - 1) <= 1 / 100
  /\ Span.transform span = Some (101 * 1 / 100).
Proof.
  intros H101 Hq Hd Hw Hspan.
  split; [rewrite Rabs_pos_eq by lra; lra|].
  pose proof (LayerFacts.renderTextItem_transform _ _ _ _ _ _ Hspan) as Ht.
  cbn in Ht. rewrite Ht, Hw. unfold exceedsTolerance, tolerance.
  rewrite H101, Hq, Hd.
  destruct (Rlt_dec 0 101) as [_|Hn]; [|lra].
  destruct (Rlt_dec 0 100) as [_|Hn]; [|lra].
  destruct (Rlt_dec _ (Rabs _)) as [_|Hn]; [reflexivity|].
  exfalso. apply Hn. rewrite Rabs_pos_eq by lra. lra.
Qed.

(** * Further properties of the search ([utils.ts]) *)

Module IdFacts.
Import Utils.
Local Open Scope nat_scope.

Lemma string_of_uint_no_dash (d : Decimal.uint) :
  forall a : ascii,
    In a (list_ascii_of_string (NilEmpty.string_of_uint d)) -> a <> "-"%char.
Proof.
  induction d; simpl; intros a H;
    [destruct H
    |destruct H as [<-|H]; [discriminate|apply IHd; assumption] ..].
Qed.

Lemma decimal_no_dash (n : nat) (a : ascii) :
  In a (list_ascii_of_string (decimal n)) -> a <> "-"%char.
Proof. apply string_of_uint_no_dash. Qed.

Lemma decimal_injective (n m : nat) : decimal n = decimal m -> n = m.
Proof.
  unfold decimal. intros H.
  apply (f_equal NilEmpty.uint_of_string) in H. rewrite !NilEmpty.usu in H.
  injection H as H. apply (f_equal Nat.of_uint) in H.
  rewrite !DecimalNat.Unsigned.of_to in H. assumption.
Qed.

(** Two strings without a dash, each followed by a dash and a rest, are
    split in one way only. *)
Lemma split_at_dash (a : string) :
  forall (a' b b' : string),
    (forall c, In c (list_ascii_of_string a) -> c <> "-"%char) ->
    (forall c, In c (list_ascii_of_string a') -> c <> "-"%char) ->
    (a ++ String "-" b = a' ++ String "-" b')%string ->
    a = a' /\ b = b'.
Proof.
  induction a as [|c a IH]; intros [|c' a'] b b' Ha Ha' H; simpl in H.
  - injection H as ->. split; reflexivity.
  - injection H as <- _. exfalso. apply (Ha' "-"%char); [left|]; reflexivity.
  - injection H as -> _. exfalso. apply (Ha "-"%char); [left|]; reflexivity.
  - injection H as -> H.
    destruct (IH a' b b') as (-> & ->); [| |assumption|split; reflexivity].
    + intros x Hx. apply Ha. right. assumption.
    + intros x Hx. apply Ha'. right. assumption.
Qed.

(** The identifier of a highlight determines its page and its start index. *)
Lemma highlightId_injective (p s p' s' : nat) :
  highlightId p s = highlightId p' s' -> p = p' /\ s = s'.
Proof.
  unfold highlightId. intros H. cbn [append] in H.
  repeat match type of H with
         | String _ _ = String _ _ => injection H as H
         end.
  destruct (split_at_dash _ _ _ _ (decimal_no_dash p) (decimal_no_dash p') H)
    as (Hp & Hs).
  split; apply decimal_injective; assumption.
Qed.

End IdFacts.

Module SearchMore.
Import JS LiteralSearch Utils Spans.
Local Open Scope nat_scope.

Lemma not_blank_nonempty (s : jsstring) : truthy (trim s) = true -> s <> [].
Proof. intros H ->. discriminate. Qed.

Lemma sorted_starts_NoDup (ms : list (nat * nat)) :
  StronglySorted (fun m1 m2 => fst m1 < fst m2) ms -> NoDup (map fst ms).
Proof.
  induction 1 as [|m ms Hs IH Hall]; simpl; constructor; [|assumption].
  intros Hin. apply in_map_iff in Hin. destruct Hin as (m' & Heq & Hin).
  rewrite Forall_forall in Hall. specialize (Hall m' Hin). lia.
Qed.

Lemma strict_starts (ms : list (nat * nat)) (len : nat) :
  Forall (fun m => fst m < snd m <= len) ms ->
  StronglySorted (fun m1 m2 => snd m1 <= fst m2) ms ->
  StronglySorted (fun m1 m2 => fst m1 < fst m2) ms.
Proof.
  intros Hne Hs. induction Hs as [|m ms Hs IH Hall]; [constructor|].
  inversion Hne as [|m' ms' Hm Hne']; subst.
  constructor; [apply IH; assumption|].
  eapply Forall_impl; [|exact Hall]. simpl. intros m2 H2. lia.
Qed.

Section WithCase.

Variable toUpperCase : N -> jsstring.

(** What one iteration of the loop over the pages yields for a search text
    that is not empty: the matches of the page, each with its highlight. *)
Lemma pageHighlights_literal (searchText : jsstring) (pageNum : nat)
    (page : TextContent.t) (color : string) (opacity : R) :
  searchText <> [] ->
  exists ms,
    findMatches toUpperCase (fst (collectText (TextContent.items page)))
      searchText = Normal ms
    /\ pageHighlights toUpperCase searchText pageNum page color opacity
       = Normal
           (flat_map
              (highlightsOfMatch pageNum
                 (fst (collectText (TextContent.items page)))
                 (snd (collectText (TextContent.items page))) color opacity)
              ms)
    /\ Forall (fun m =>
                 fst m < snd m
                 /\ snd m = fst m + List.length searchText
                 /\ occursAt toUpperCase searchText
                      (fst (collectText (TextContent.items page))) (fst m)
                    = true
                 /\ contributing (snd (collectText (TextContent.items page)))
                      (fst m) (snd m) <> []) ms
    /\ StronglySorted (fun m1 m2 => fst m1 < fst m2) ms.
Proof.
  intros Hq.
  destruct (SearchFacts.literal_matches_spans toUpperCase
              (fst (collectText (TextContent.items page))) _ Hq)
    as (ms & Hms & Hne & Hsorted).
  exists ms.
  assert (findMatches toUpperCase (fst (collectText (TextContent.items page)))
            searchText = Normal ms) as Hfind
      by (rewrite SearchFacts.findMatches_literal, Hms; reflexivity).
  split; [assumption|].
  split; [rewrite SearchFacts.pageHighlights_eq, Hfind; reflexivity|].
  split; [|eapply strict_starts; eassumption].
  rewrite Forall_forall in *. intros [a e] Hin. specialize (Hne _ Hin).
  simpl in *. unfold matchesIn in Hms.
  pose proof (MatchFacts.execAll_matches _ _ _ _ _ _ Hms a e Hin) as Hm.
  rewrite MatchFacts.matchAt_literal_occurs in Hm by lia.
  destruct (occursAt toUpperCase searchText _ a) eqn:Ho; [|discriminate].
  injection Hm as <-.
  split; [lia|]. split; [reflexivity|]. split; [reflexivity|].
  apply (TextFacts.contributing_nonempty (TextContent.items page)); lia.
Qed.

(** The loop over the pages ends normally for a search text that is not
    empty. *)
Lemma pagesFrom_total (searchText : jsstring) (color : string) (opacity : R)
    (pages : list TextContent.t) :
  searchText <> [] ->
  forall pageNum : nat,
    exists hs, pagesFrom toUpperCase searchText pageNum pages color opacity
               = Normal hs.
Proof.
  intros Hq. induction pages as [|page pages IH]; intros pageNum; simpl.
  - eexists. reflexivity.
  - destruct (pageHighlights_literal searchText pageNum page color opacity Hq)
      as (ms & _ & -> & _).
    destruct (IH (S pageNum)) as (hs' & ->). eexists. reflexivity.
Qed.

(** A highlight of a page, taken apart: its match and its fields. *)
Lemma pageHighlights_In (searchText : jsstring) (pageNum : nat)
    (page : TextContent.t) (color : string) (opacity : R)
    (hs : list PDFHighlight.t) (h : PDFHighlight.t) :
  searchText <> [] ->
  pageHighlights toUpperCase searchText pageNum page color opacity = Normal hs ->
  In h hs ->
  exists s : nat,
    s < s + List.length searchText
    /\ occursAt toUpperCase searchText
         (fst (collectText (TextContent.items page))) s = true
    /\ contributing (snd (collectText (TextContent.items page)))
         s (s + List.length searchText) <> []
    /\ h = {| PDFHighlight.id := highlightId pageNum s;
              PDFHighlight.pageNumber := pageNum;
              PDFHighlight.rects :=
                map rectOf
                  (contributing (snd (collectText (TextContent.items page)))
                     s (s + List.length searchText));
              PDFHighlight.color := color;
              PDFHighlight.opacity := opacity;
              PDFHighlight.content :=
                substring (fst (collectText (TextContent.items page)))
                  s (s + List.length searchText) |}.
Proof.
  intros Hq Hp Hin.
  destruct (pageHighlights_literal searchText pageNum page color opacity Hq)
    as (ms & _ & Hp' & Hall & _).
  rewrite Hp' in Hp. injection Hp as <-.
  apply in_flat_map in Hin. destruct Hin as ([a e] & Hm & Hin).
  rewrite Forall_forall in Hall. specialize (Hall _ Hm). simpl in Hall.
  destruct Hall as (Hlt & -> & Ho & Hc).
  exists a. split; [assumption|]. split; [assumption|]. split; [assumption|].
  unfold highlightsOfMatch in Hin.
  destruct (Nat.ltb 0 _); [|destruct Hin].
  destruct Hin as [<-|[]]. reflexivity.
Qed.

(** The highlights of the pages from [pageNum] on carry the numbers of
    their pages, in order. *)
Lemma pagesFrom_pageNumbers (searchText : jsstring) (color : string)
    (opacity : R) (pages : list TextContent.t) :
  forall (pageNum : nat) (hs : list PDFHighlight.t),
    pagesFrom toUpperCase searchText pageNum pages color opacity = Normal hs ->
    Forall (fun h => pageNum <= PDFHighlight.pageNumber h
                     < pageNum + List.length pages) hs
    /\ StronglySorted (fun h1 h2 => PDFHighlight.pageNumber h1
                                    <= PDFHighlight.pageNumber h2) hs.
Proof.
  induction pages as [|page pages IH]; intros pageNum hs H; simpl in H.
  - injection H as <-. split; constructor.
  - destruct (pageHighlights toUpperCase searchText pageNum page color opacity)
      as [hs1| |] eqn:E1; try discriminate.
    destruct (pagesFrom toUpperCase searchText (S pageNum) pages color opacity)
      as [hs2| |] eqn:E2; try discriminate.
    injection H as <-. destruct (IH _ _ E2) as (Hall2 & Hs2).
    assert (Forall (fun h => PDFHighlight.pageNumber h = pageNum) hs1) as Hall1.
    { rewrite SearchFacts.pageHighlights_eq in E1.
      destruct (findMatches toUpperCase _ searchText) as [ms| |];
        try discriminate.
      injection E1 as <-. rewrite Forall_forall. intros h Hin.
      apply in_flat_map in Hin. destruct Hin as (m & _ & Hin).
      apply SearchFacts.highlightsOfMatch_rects in Hin. apply Hin. }
    split.
    + apply Forall_app. split.
      * eapply Forall_impl; [|exact Hall1]. simpl. intros h ->. simpl. lia.
      * eapply Forall_impl; [|exact Hall2]. simpl. intros h Hh. simpl. lia.
    + clear E1 E2 IH. induction hs1 as [|h hs1 IHhs]; [exact Hs2|].
      inversion Hall1 as [|h' hs' Hh Hall1']; subst. simpl.
      constructor; [apply IHhs; assumption|].
      apply Forall_app. split.
      * eapply Forall_impl; [|exact Hall1']. simpl. intros h' ->. lia.
      * eapply Forall_impl; [|exact Hall2]. simpl. intros h' Hh'. lia.
Qed.

End WithCase.

End SearchMore.

Module SearchProperties.
Import JS LiteralSearch Utils Spans.
Local Open Scope nat_scope.

Lemma prefixCI_firstn (toUpperCase : N -> jsstring) (q : jsstring) :
  forall l : jsstring,
    prefixCI toUpperCase q l = true ->
    Forall2 (fun x c => sameChar toUpperCase x c = true)
            (firstn (List.length q) l) q.
Proof.
  induction q as [|c q IH]; intros l H; simpl.
  - constructor.
  - destruct l as [|x l]; simpl in H; [discriminate|].
    apply andb_true_iff in H. destruct H as (Hx & H).
    constructor; [assumption|apply IH; assumption].
Qed.

(** Among runs that tile the text, a span inside one run overlaps that run
    only. *)
Lemma tiles_single (runs : list Run.t) :
  forall (from to : nat) (run : Run.t) (s e : nat),
    tiles from runs to -> In run runs ->
    Run.startIndex run <= s -> s < e -> e <= Run.endIndex run ->
    contributing runs s e = [run].
Proof.
  assert (forall (rs : list Run.t) (from to s e : nat),
             tiles from rs to -> e <= from -> contributing rs s e = [])
    as Hafter.
  { induction rs as [|r rs IH]; intros from to s e Ht He; [reflexivity|].
    simpl in Ht. destruct Ht as (H1 & H2 & H3). unfold contributing. simpl.
    assert (overlaps s e r = false) as ->.
    { unfold overlaps. apply andb_false_iff. right. apply Nat.ltb_ge. lia. }
    apply (IH (Run.endIndex r) to); [assumption|lia]. }
  assert (forall (rs : list Run.t) (from to : nat) (r : Run.t),
             tiles from rs to -> In r rs -> from <= Run.startIndex r) as Hfrom.
  { induction rs as [|r0 rs IH]; intros from to r Ht Hin; [destruct Hin|].
    simpl in Ht. destruct Ht as (H1 & H2 & H3). destruct Hin as [<-|Hin].
    - lia.
    - specialize (IH _ _ _ H3 Hin). lia. }
  induction runs as [|r runs IH]; intros from to run s e Ht Hin Hs Hse He;
    [destruct Hin|].
  simpl in Ht. destruct Ht as (H1 & H2 & H3). unfold contributing. simpl.
  destruct Hin as [->|Hin].
  - assert (overlaps s e run = true) as ->.
    { unfold overlaps. apply andb_true_iff. split; apply Nat.ltb_lt; lia. }
    f_equal. apply (Hafter runs (Run.endIndex run) to); [assumption|lia].
  - pose proof (Hfrom _ _ _ _ H3 Hin) as Hge.
    assert (overlaps s e r = false) as ->.
    { unfold overlaps. apply andb_false_iff. left. apply Nat.ltb_ge. lia. }
    apply (IH _ _ _ _ _ H3 Hin); assumption.
Qed.

Section WithCase.

Variable toUpperCase : N -> jsstring.

(** Every highlight the function returns, taken apart. *)
Lemma createHighlightsForText_In (pages : PDFDocumentProxy)
    (searchText : jsstring) (color : string) (opacity : R)
    (hs : list PDFHighlight.t) (h : PDFHighlight.t) :
  createHighlightsForText toUpperCase (Some pages) searchText color opacity
  = Some hs ->
  In h hs ->
  exists (page : TextContent.t) (s : nat),
    nth_error pages (PDFHighlight.pageNumber h - 1) = Some page
    /\ 1 <= PDFHighlight.pageNumber h <= List.length pages
    /\ s < s + List.length searchText
    /\ occursAt toUpperCase searchText
         (fst (collectText (TextContent.items page))) s = true
    /\ contributing (snd (collectText (TextContent.items page)))
         s (s + List.length searchText) <> []
    /\ h = {| PDFHighlight.id := highlightId (PDFHighlight.pageNumber h) s;
              PDFHighlight.pageNumber := PDFHighlight.pageNumber h;
              PDFHighlight.rects :=
                map rectOf
                  (contributing (snd (collectText (TextContent.items page)))
                     s (s + List.length searchText));
              PDFHighlight.color := color;
              PDFHighlight.opacity := opacity;
              PDFHighlight.content :=
                substring (fst (collectText (TextContent.items page)))
                  s (s + List.length searchText) |}.
Proof.
  unfold createHighlightsForText. intros H Hin.
  destruct (truthy (trim searchText)) eqn:Hq; cbn [negb] in H;
    [|injection H as <-; destruct Hin].
  apply SearchMore.not_blank_nonempty in Hq.
  destruct (pagesFrom toUpperCase searchText 1 pages color opacity)
    as [highlights| |] eqn:E; [|injection H as <-; destruct Hin|discriminate].
  injection H as ->.
  destruct (SearchFacts.pagesFrom_In _ _ _ _ _ _ _ _ E Hin)
    as (k & page & hs' & Hk & Hp & Hin').
  destruct (SearchMore.pageHighlights_In _ _ _ _ _ _ _ _ Hq Hp Hin')
    as (s & Hs & Ho & Hc & Hh).
  assert (PDFHighlight.pageNumber h = 1 + k) as Hn by (rewrite Hh; reflexivity).
  exists page, s. rewrite Hn. replace (1 + k - 1) with k by lia.
  split; [assumption|].
  split; [assert (k < List.length pages)
            by (apply nth_error_Some; congruence); lia|].
  split; [assumption|]. split; [assumption|]. split; assumption.
Qed.

(** On a document whose pages are at hand the call returns: the loop over
    the matches of a page and the loop over the pages end. *)
Lemma createHighlightsForText_loaded_returns
    (pdfDocument : option PDFDocumentProxy) (searchText : jsstring)
    (color : string) (opacity : R) :
  exists hs,
    createHighlightsForText toUpperCase pdfDocument searchText color opacity
    = Some hs.
Proof.
  unfold createHighlightsForText. destruct pdfDocument as [pages|].
  - destruct (truthy (trim searchText)) eqn:Hq; cbn [negb].
    + destruct (SearchMore.pagesFrom_total toUpperCase searchText color
                  opacity pages (SearchMore.not_blank_nonempty _ Hq) 1)
        as (hs & Hhs).
      exists hs. rewrite Hhs. reflexivity.
    + exists []. reflexivity.
  - exists []. reflexivity.
Qed.

(** The identifiers of the highlights returned for a document are pairwise
    distinct. *)
Theorem highlight_ids_distinct (pdfDocument : option PDFDocumentProxy)
    (searchText : jsstring) (color : string) (opacity : R)
    (hs : list PDFHighlight.t) :
  createHighlightsForText toUpperCase pdfDocument searchText color opacity
  = Some hs ->
  NoDup (map PDFHighlight.id hs).
Proof.
  unfold createHighlightsForText. intros H.
  destruct pdfDocument as [pages|]; [|injection H as <-; constructor].
  destruct (truthy (trim searchText)) eqn:Hq; cbn [negb] in H;
    [|injection H as <-; constructor].
  apply SearchMore.not_blank_nonempty in Hq.
  destruct (pagesFrom toUpperCase searchText 1 pages color opacity)
    as [highlights| |] eqn:E; [|injection H as <-; constructor|discriminate].
  injection H as ->. revert hs E. generalize 1.
  induction pages as [|page pages IH]; intros pageNum hs E; simpl in E.
  - injection E as <-. constructor.
  - destruct (SearchMore.pageHighlights_literal toUpperCase searchText pageNum
                page color opacity Hq) as (ms & _ & Hp & Hall & Hsorted).
    rewrite Hp in E.
    destruct (pagesFrom toUpperCase searchText (S pageNum) pages color opacity)
      as [hs2| |] eqn:E2; try discriminate.
    injection E as <-. rewrite map_app. apply NoDup_app.
    + rewrite SearchFacts.flat_map_kept.
      * apply SearchMore.sorted_starts_NoDup in Hsorted.
        rewrite <- (map_map fst (highlightId pageNum)).
        apply NoDup_map_NoDup_ForallPairs; [|assumption].
        intros s s' _ _ Heq. apply IdFacts.highlightId_injective in Heq.
        apply Heq.
      * intros m Hm. rewrite Forall_forall in Hall. apply (Hall m Hm).
    + apply (IH (S pageNum)). assumption.
    + intros i Hi1 Hi2. rewrite SearchFacts.flat_map_kept in Hi1.
      * apply in_map_iff in Hi1. destruct Hi1 as (m & <- & _).
        apply in_map_iff in Hi2. destruct Hi2 as (h & Hid & Hh).
        destruct (SearchFacts.pagesFrom_In _ _ _ _ _ _ _ _ E2 Hh)
          as (k & pg & hs' & _ & Hpg & Hh').
        destruct (SearchMore.pageHighlights_In _ _ _ _ _ _ _ _ Hq Hpg Hh')
          as (s & _ & _ & _ & ->).
        simpl in Hid. apply IdFacts.highlightId_injective in Hid. lia.
      * intros m Hm. rewrite Forall_forall in Hall. apply (Hall m Hm).
Qed.

(** Every highlight returned has at least one rectangle, the number of a
    page of the document, the colour and opacity passed in, and a content
    that equals the search text, untrimmed, up to case. *)
Theorem highlight_fields (pages : PDFDocumentProxy) (searchText : jsstring)
    (color : string) (opacity : R) (hs : list PDFHighlight.t)
    (h : PDFHighlight.t) :
  createHighlightsForText toUpperCase (Some pages) searchText color opacity
  = Some hs ->
  In h hs ->
  PDFHighlight.rects h <> []
  /\ 1 <= PDFHighlight.pageNumber h <= List.length pages
  /\ PDFHighlight.color h = color
  /\ PDFHighlight.opacity h = opacity
  /\ Forall2 (fun x c => sameChar toUpperCase x c = true)
             (PDFHighlight.content h) searchText.
Proof.
  intros H Hin.
  destruct (createHighlightsForText_In _ _ _ _ _ _ H Hin)
    as (page & s & _ & Hn & _ & Ho & Hc & Hh).
  rewrite Hh. simpl. split.
  - intros Hnil. apply map_eq_nil in Hnil. contradiction.
  - split; [assumption|]. split; [reflexivity|]. split; [reflexivity|].
    unfold substring. replace (s + List.length searchText - s)
      with (List.length searchText) by lia.
    apply prefixCI_firstn. unfold occursAt in Ho.
    apply andb_true_iff in Ho. apply Ho.
Qed.

(** A match that lies inside one run gets exactly one rectangle, that of the
    whole run, whatever part of the run matched. *)
Theorem match_inside_run (pages : PDFDocumentProxy) (searchText : jsstring)
    (color : string) (opacity : R) (hs : list PDFHighlight.t)
    (h : PDFHighlight.t) :
  createHighlightsForText toUpperCase (Some pages) searchText color opacity
  = Some hs ->
  In h hs ->
  exists (page : TextContent.t) (s : nat),
    nth_error pages (PDFHighlight.pageNumber h - 1) = Some page
    /\ PDFHighlight.id h = highlightId (PDFHighlight.pageNumber h) s
    /\ PDFHighlight.rects h
       = map rectOf
           (contributing (snd (collectText (TextContent.items page)))
              s (s + List.length searchText))
    /\ forall run,
         In run (snd (collectText (TextContent.items page))) ->
         Run.startIndex run <= s ->
         s + List.length searchText <= Run.endIndex run ->
         PDFHighlight.rects h = [rectOf run].
Proof.
  intros H Hin.
  destruct (createHighlightsForText_In _ _ _ _ _ _ H Hin)
    as (page & s & Hp & _ & Hs & _ & _ & Hh).
  exists page, s. split; [assumption|].
  split; [rewrite Hh; reflexivity|]. split; [rewrite Hh; reflexivity|].
  intros run Hrun Hstart Hend. rewrite Hh. simpl.
  rewrite (tiles_single _ _ _ run s (s + List.length searchText)
             (TextFacts.collectText_tiles (TextContent.items page)) Hrun
             Hstart Hs Hend).
  reflexivity.
Qed.

(** The highlights are returned page by page, in ascending order of page
    number. *)
Theorem highlights_in_page_order (pdfDocument : option PDFDocumentProxy)
    (searchText : jsstring) (color : string) (opacity : R)
    (hs : list PDFHighlight.t) :
  createHighlightsForText toUpperCase pdfDocument searchText color opacity
  = Some hs ->
  StronglySorted (fun h1 h2 => PDFHighlight.pageNumber h1
                               <= PDFHighlight.pageNumber h2) hs.
Proof.
  unfold createHighlightsForText. intros H.
  destruct pdfDocument as [pages|]; [|injection H as <-; constructor].
  destruct (negb (truthy (trim searchText))); [injection H as <-; constructor|].
  destruct (pagesFrom toUpperCase searchText 1 pages color opacity)
    as [highlights| |] eqn:E; [|injection H as <-; constructor|discriminate].
  injection H as ->.
  apply (SearchMore.pagesFrom_pageNumbers _ _ _ _ _ _ _ E).
Qed.

End WithCase.

End SearchProperties.

(** * searchTextInPage and getPageTextContent ([utils.ts]) *)

Module PageSearchFacts.
Import JS LiteralSearch Utils Spans PageSearch.
Local Open Scope nat_scope.





Section WithCase.

Variable toUpperCase : N -> jsstring.


(** With a blank search text, a page number below 1 or above the number of
    pages, or no document, [searchTextInPage] returns the empty array. *)
Theorem searchTextInPage_guards (pdfDocument : option PDFDocumentProxy)
    (pageNumber : nat) (searchText : jsstring) :
  Forall (fun c => isTrimmed c = true) searchText
  \/ pageNumber < 1
  \/ (forall pages, pdfDocument = Some pages -> List.length pages < pageNumber) ->
  searchTextInPage toUpperCase pdfDocument pageNumber searchText = Some [].
Proof.
  intros H. unfold searchTextInPage. destruct pdfDocument as [pages|];
    [|reflexivity].
  destruct H as [H|[H|H]].
  - rewrite (SearchFacts.trim_all _ H). reflexivity.
  - assert (Nat.ltb pageNumber 1 = true) as -> by (apply Nat.ltb_lt; assumption).
    rewrite orb_true_r. reflexivity.
  - assert (Nat.ltb (List.length pages) pageNumber = true) as ->
        by (apply Nat.ltb_lt; apply H; reflexivity).
    rewrite orb_true_r. reflexivity.
Qed.


End WithCase.

Lemma trimStart_head (s : jsstring) :
  trimStart s = [] \/ exists c rest, trimStart s = c :: rest /\ isTrimmed c = false.
Proof.
  induction s as [|c s IH]; simpl; [left; reflexivity|].
  destruct (isTrimmed c) eqn:E; [assumption|].
  right. exists c, s. split; [reflexivity|assumption].
Qed.

Lemma trimStart_snoc (s : jsstring) (c : N) :
  isTrimmed c = false -> trimStart (s ++ [c]) = trimStart s ++ [c].
Proof.
  intros Hc. induction s as [|x s IH]; simpl.
  - rewrite Hc. reflexivity.
  - destruct (isTrimmed x); [assumption|reflexivity].
Qed.

(** What [trim] leaves is empty or has a first and a last character that
    are not white space. *)
Lemma trim_ends (s : jsstring) :
  trim s = []
  \/ exists first last middle,
       (trim s = [first] \/ trim s = first :: middle ++ [last])
       /\ isTrimmed first = false /\ isTrimmed last = false.
Proof.
  unfold trim, trimEnd.
  destruct (trimStart_head s) as [->|(c & rest & -> & Hc)];
    [left; reflexivity|].
  right. cbn [rev]. rewrite trimStart_snoc by assumption.
  rewrite rev_app_distr. cbn [rev app].
  destruct (trimStart_head (rev rest)) as [->|(l & r & -> & Hl)].
  - exists c, c, []. split; [left; reflexivity|]. split; assumption.
  - exists c, l, (rev r). split; [right; reflexivity|]. split; assumption.
Qed.

(** The text of a page has neither leading nor trailing white space, and is
    empty when there is no document or no such page. *)
Theorem getPageTextContent_trimmed (pdfDocument : option PDFDocumentProxy)
    (pageNumber : nat) :
  (getPageTextContent pdfDocument pageNumber = []
   \/ exists first last middle,
        (getPageTextContent pdfDocument pageNumber = [first]
         \/ getPageTextContent pdfDocument pageNumber
            = first :: middle ++ [last])
        /\ isTrimmed first = false /\ isTrimmed last = false)
  /\ (pdfDocument = None \/ pageNumber < 1
      \/ (forall pages, pdfDocument = Some pages ->
            List.length pages < pageNumber) ->
      getPageTextContent pdfDocument pageNumber = []).
Proof.
  unfold getPageTextContent. split.
  - destruct pdfDocument as [pages|]; [|left; reflexivity].
    destruct (Nat.ltb pageNumber 1 || Nat.ltb (List.length pages) pageNumber);
      [left; reflexivity|].
    destruct (nth_error pages (pageNumber - 1)) as [page|]; [|left; reflexivity].
    apply trim_ends.
  - intros [->|[H|H]]; [reflexivity| |].
    + destruct pdfDocument as [pages|]; [|reflexivity].
      assert (Nat.ltb pageNumber 1 = true) as ->
          by (apply Nat.ltb_lt; assumption).
      reflexivity.
    + destruct pdfDocument as [pages|]; [|reflexivity].
      assert (Nat.ltb (List.length pages) pageNumber = true) as ->
          by (apply Nat.ltb_lt; apply H; reflexivity).
      rewrite orb_true_r. reflexivity.
Qed.

End PageSearchFacts.

Module SearchWitnesses.
Import JS LiteralSearch Utils Spans PageSearch.
Local Open Scope nat_scope.

(** The search for "o" in a document of two pages that read
    "Hello world": two matches on each page. *)
Lemma two_page_search :
  exists hs,
    createHighlightsForText asciiUpperCase (Some Samples.twoPages)
      (units "o") "#ffff00" (3 / 10)%R = Some hs
    /\ map PDFHighlight.id hs
       = [ "highlight-1-4"; "highlight-1-7";
           "highlight-2-4"; "highlight-2-7" ]%string
    /\ map PDFHighlight.pageNumber hs = [1; 1; 2; 2].
Proof.
  eexists. split.
  - unfold createHighlightsForText.
    change (negb (truthy (trim (units "o")))) with false. cbv iota.
    unfold Samples.twoPages, pagesFrom.
    rewrite !SearchFacts.pageHighlights_eq.
    assert (findMatches asciiUpperCase
              (fst (collectText (TextContent.items Scenario.page)))
              (units "o")
            = Normal [(4, 5); (7, 8)]) as -> by (vm_compute; reflexivity).
    reflexivity.
  - split; reflexivity.
Qed.

(** Four highlights on two pages: the start indices repeat from page to
    page, the identifiers do not. *)
Lemma highlight_ids_distinct_witness :
  exists hs,
    createHighlightsForText asciiUpperCase (Some Samples.twoPages)
      (units "o") "#ffff00" (3 / 10)%R = Some hs
    /\ map PDFHighlight.id hs
       = [ "highlight-1-4"; "highlight-1-7";
           "highlight-2-4"; "highlight-2-7" ]%string
    /\ NoDup (map PDFHighlight.id hs).
Proof.
  destruct two_page_search as (hs & Hhs & Hids & _).
  exists hs. split; [exact Hhs|]. split; [exact Hids|].
  exact (SearchProperties.highlight_ids_distinct asciiUpperCase
           (Some Samples.twoPages) (units "o") "#ffff00" (3 / 10)%R hs Hhs).
Defined.

Lemma highlight_fields_witness :
  exists hs h,
    createHighlightsForText asciiUpperCase (Some Scenario.document)
      (units "world") "#ffff00" (3 / 10)%R = Some hs
    /\ In h hs
    /\ PDFHighlight.rects h <> []
    /\ 1 <= PDFHighlight.pageNumber h <= List.length Scenario.document
    /\ PDFHighlight.color h = "#ffff00"%string
    /\ PDFHighlight.opacity h = (3 / 10)%R
    /\ Forall2 (fun x c => sameChar asciiUpperCase x c = true)
               (PDFHighlight.content h) (units "world").
Proof.
  eexists. eexists. split; [exact scenario_highlights|].
  split; [left; reflexivity|].
  exact (SearchProperties.highlight_fields asciiUpperCase Scenario.document
           (units "world") "#ffff00" (3 / 10)%R _ _ scenario_highlights
           (or_introl eq_refl)).
Defined.

Lemma match_inside_run_witness :
  exists hs h,
    createHighlightsForText asciiUpperCase (Some Scenario.document)
      (units "world") "#ffff00" (3 / 10)%R = Some hs
    /\ In h hs
    /\ exists (page : TextContent.t) (s : nat),
         nth_error Scenario.document (PDFHighlight.pageNumber h - 1) = Some page
         /\ PDFHighlight.id h = highlightId (PDFHighlight.pageNumber h) s
         /\ PDFHighlight.rects h
            = map rectOf
                (contributing (snd (collectText (TextContent.items page)))
                   s (s + List.length (units "world")))
         /\ forall run,
              In run (snd (collectText (TextContent.items page))) ->
              Run.startIndex run <= s ->
              s + List.length (units "world") <= Run.endIndex run ->
              PDFHighlight.rects h = [rectOf run].
Proof.
  eexists. eexists. split; [exact scenario_highlights|].
  split; [left; reflexivity|].
  exact (SearchProperties.match_inside_run asciiUpperCase Scenario.document
           (units "world") "#ffff00" (3 / 10)%R _ _ scenario_highlights
           (or_introl eq_refl)).
Defined.

(** Four highlights on two pages, those of page 1 before those of
    page 2. *)
Lemma highlights_in_page_order_witness :
  exists hs,
    createHighlightsForText asciiUpperCase (Some Samples.twoPages)
      (units "o") "#ffff00" (3 / 10)%R = Some hs
    /\ map PDFHighlight.pageNumber hs = [1; 1; 2; 2]
    /\ StronglySorted (fun h1 h2 => PDFHighlight.pageNumber h1
                                    <= PDFHighlight.pageNumber h2) hs.
Proof.
  destruct two_page_search as (hs & Hhs & _ & Hpages).
  exists hs. split; [exact Hhs|]. split; [exact Hpages|].
  exact (SearchProperties.highlights_in_page_order asciiUpperCase
           (Some Samples.twoPages) (units "o") "#ffff00" (3 / 10)%R hs Hhs).
Defined.

Lemma searchTextInPage_guards_witness :
  (Forall (fun c => isTrimmed c = true) (units "world")
   \/ 2 < 1
   \/ (forall pages, Some Scenario.document = Some pages ->
         List.length pages < 2))
  /\ searchTextInPage asciiUpperCase (Some Scenario.document) 2 (units "world")
     = Some [].
Proof.
  assert (forall pages, Some Scenario.document = Some pages ->
            List.length pages < 2) as H
      by (intros pages Heq; injection Heq as <-; simpl; lia).
  split; [right; right; exact H|].
  exact (PageSearchFacts.searchTextInPage_guards asciiUpperCase
           (Some Scenario.document) 2 (units "world")
           (or_intror (or_intror H))).
Defined.


End SearchWitnesses.

(** * The search on pages that may fail to load *)

Module PageLoadingProperties.
Import JS Utils.
Local Open Scope nat_scope.

Section WithCase.

Variable toUpperCase : N -> jsstring.

(** The loop over the pages never hangs; it ends with an exception when a
    page fails to load, and as the loop over the loaded pages otherwise. *)
Lemma pagesFrom_outcome (searchText : jsstring) (color : string)
    (opacity : R) (pages : PageLoading.PDFDocumentProxy) :
  searchText <> [] ->
  forall pageNum : nat,
    (In None pages ->
     PageLoading.pagesFrom toUpperCase searchText pageNum pages color opacity
     = Throw)
    /\ (forall loaded, pages = map Some loaded ->
          PageLoading.pagesFrom toUpperCase searchText pageNum pages color
            opacity
          = Utils.pagesFrom toUpperCase searchText pageNum loaded color
              opacity).
Proof.
  intros Hq. induction pages as [|[page|] pages IH]; intros pageNum.
  - split; [intros []|]. intros [|p loaded] Heq; [reflexivity|discriminate].
  - destruct (IH (S pageNum)) as [IHfail IHload]. split.
    + intros [Habs|Hin]; [discriminate|]. cbn [PageLoading.pagesFrom].
      destruct (SearchMore.pageHighlights_literal toUpperCase searchText
                  pageNum page color opacity Hq) as (ms & _ & -> & _).
      rewrite (IHfail Hin). reflexivity.
    + intros [|p loaded] Heq; [discriminate|].
      cbn [map] in Heq. injection Heq as <- ->.
      cbn [PageLoading.pagesFrom Utils.pagesFrom].
      rewrite (IHload loaded eq_refl). reflexivity.
  - split; [reflexivity|].
    intros [|p loaded] Heq; discriminate.
Qed.

(** A page fails to load or all the pages are at hand. *)
Lemma failed_or_loaded (pages : PageLoading.PDFDocumentProxy) :
  In None pages \/ exists loaded, pages = map Some loaded.
Proof.
  induction pages as [|[page|] pages IH].
  - right. exists []. reflexivity.
  - destruct IH as [Hin|(loaded & ->)].
    + left. right. assumption.
    + right. exists (page :: loaded). reflexivity.
  - left. left. reflexivity.
Qed.

(** The search is all or nothing.  It returns for every document; as soon
    as one page fails to load it returns the empty array, whatever it found
    on the pages before; when every page loads it returns the highlights of
    the loaded pages. *)
Theorem createHighlightsForText_all_or_nothing
    (pages : PageLoading.PDFDocumentProxy) (searchText : jsstring)
    (color : string) (opacity : R) :
  exists hs,
    PageLoading.createHighlightsForText toUpperCase (Some pages) searchText
      color opacity = Some hs
    /\ (In None pages -> hs = [])
    /\ (forall loaded, pages = map Some loaded ->
          Utils.createHighlightsForText toUpperCase (Some loaded) searchText
            color opacity = Some hs).
Proof.
  unfold PageLoading.createHighlightsForText, Utils.createHighlightsForText.
  destruct (truthy (trim searchText)) eqn:Hq; cbn [negb].
  - apply SearchMore.not_blank_nonempty in Hq.
    destruct (pagesFrom_outcome searchText color opacity pages Hq 1)
      as [Hfail Hload].
    destruct (failed_or_loaded pages) as [Hin|(loaded & Heq)].
    + rewrite (Hfail Hin). exists []. split; [reflexivity|].
      split; [reflexivity|].
      intros loaded ->. apply in_map_iff in Hin.
      destruct Hin as (p & Habs & _). discriminate.
    + rewrite (Hload loaded Heq).
      destruct (SearchMore.pagesFrom_total toUpperCase searchText color
                  opacity loaded Hq 1) as (hs & Hhs).
      rewrite Hhs. exists hs. split; [reflexivity|]. split.
      * intros Hin. rewrite Heq in Hin. apply in_map_iff in Hin.
        destruct Hin as (p & Habs & _). discriminate.
      * intros loaded' Heq'. rewrite Heq in Heq'.
        assert (loaded' = loaded) as ->.
        { clear - Heq'. revert loaded' Heq'.
          induction loaded as [|p loaded IH]; intros [|p' loaded'] Heq';
            try discriminate; [reflexivity|].
          cbn [map] in Heq'. injection Heq' as -> Hrest.
          f_equal. apply IH. assumption. }
        rewrite Hhs. reflexivity.
  - exists []. split; [reflexivity|]. split; [reflexivity|].
    intros loaded _. reflexivity.
Qed.

End WithCase.

(** The match on page 1 of the scenario is lost when page 2 fails to
    load. *)
Example second_page_fails :
  PageLoading.createHighlightsForText asciiUpperCase
    (Some Samples.secondPageFails) (units "world") "#ffff00" (3 / 10)%R
  = Some []
  /\ exists h,
       Utils.createHighlightsForText asciiUpperCase (Some [Scenario.page])
         (units "world") "#ffff00" (3 / 10)%R = Some [h].
Proof.
  split.
  - unfold PageLoading.createHighlightsForText.
    change (negb (truthy (trim (units "world")))) with false. cbv iota.
    destruct (pagesFrom_outcome asciiUpperCase (units "world") "#ffff00"
                (3 / 10)%R Samples.secondPageFails ltac:(discriminate) 1)
      as [Hfail _].
    rewrite Hfail; [reflexivity|]. right. left. reflexivity.
  - eexists. exact scenario_highlights.
Qed.

End PageLoadingProperties.

(** * Further properties of the text layer and of the highlight boxes *)

Module LayerProperties.
Import JS Utils PDFPage.
Local Open Scope R_scope.

(** The test of the text layer on a retained run: its text is not blank and
    its transform has six entries. *)
Lemma layer_keeps_run (round : R -> R)
    (measureText : R -> string -> jsstring -> R)
    (styles : string -> option string) (pdfViewport : PDFPageViewport.t)
    (textItem : TextItem.t) (s : jsstring) :
  TextItem.str textItem = Some s -> truthy s = true ->
  map Span.textContent
      (match renderTextItem round measureText styles pdfViewport textItem with
       | Some span => [span]
       | None => []
       end)
  = if truthy (trim s) && Nat.leb 6 (List.length (TextItem.transform textItem))
    then [s] else [].
Proof.
  intros Hs Ht. unfold renderTextItem. rewrite Hs, Ht. cbn [negb orb].
  destruct (truthy (trim s)); cbn [negb andb]; [|reflexivity].
  destruct (Nat.ltb (List.length (TextItem.transform textItem)) 6) eqn:El.
  - apply Nat.ltb_lt in El.
    assert (Nat.leb 6 (List.length (TextItem.transform textItem)) = false) as ->
        by (apply Nat.leb_gt; assumption).
    reflexivity.
  - apply Nat.ltb_ge in El.
    assert (Nat.leb 6 (List.length (TextItem.transform textItem)) = true) as ->
        by (apply Nat.leb_le; assumption).
    reflexivity.
Qed.

Section WithMeasure.

Variable round : R -> R.
Variable measureText : R -> string -> jsstring -> R.

(** The texts of the spans of the text layer are, in order, the texts of
    the runs the search retains for the same page whose text is not blank
    and whose transform has six entries. *)
Theorem layer_texts_are_runs (textContent : TextContent.t)
    (pdfViewport : PDFPageViewport.t) :
  map Span.textContent (renderTextLayer round measureText textContent pdfViewport)
  = map Run.text
      (filter (fun run => truthy (trim (Run.text run))
                          && Nat.leb 6 (List.length (Run.transform run)))
              (snd (collectText (TextContent.items textContent)))).
Proof.
  unfold renderTextLayer, collectText.
  set (keep := fun run => truthy (trim (Run.text run))
                          && Nat.leb 6 (List.length (Run.transform run))).
  set (one := fun textItem =>
                match renderTextItem round measureText (TextContent.styles textContent)
                        pdfViewport textItem with
                | Some span => [span]
                | None => []
                end).
  assert (forall items acc,
             map Run.text (filter keep (snd (fold_left addItem items acc)))
             = map Run.text (filter keep (snd acc))
               ++ map Span.textContent (flat_map one items)) as Hgen.
  { induction items as [|item items IH]; intros [fullText textItems].
    - simpl. rewrite app_nil_r. reflexivity.
    - cbn [fold_left flat_map]. rewrite IH, map_app, app_assoc. f_equal.
      unfold addItem.
      destruct (TextItem.str item) as [s|] eqn:Es.
      + destruct (truthy s) eqn:Et.
        * cbn [snd]. rewrite filter_app, map_app. f_equal.
          unfold one. rewrite (layer_keeps_run _ _ _ _ _ _ Es Et).
          cbn [filter]. unfold keep at 1. cbn [Run.text Run.transform].
          destruct (truthy (trim s)
                    && Nat.leb 6 (List.length (TextItem.transform item)));
            reflexivity.
        * cbn [snd]. unfold one, renderTextItem. rewrite Es, Et.
          rewrite app_nil_r. reflexivity.
      + cbn [snd]. unfold one, renderTextItem. rewrite Es.
        rewrite app_nil_r. reflexivity. }
  rewrite Hgen. reflexivity.
Qed.

(** With a positive scale, every span of the text layer has a font size
    that is not negative, a positive width when one is set, and a positive
    horizontal scale: the correction never mirrors or collapses the text. *)
Theorem layer_scale_positive (textContent : TextContent.t)
    (pdfViewport : PDFPageViewport.t) (span : Span.t) :
  0 < PDFPageViewport.scale pdfViewport ->
  In span (renderTextLayer round measureText textContent pdfViewport) ->
  0 <= Span.fontSize span
  /\ (forall w, Span.width span = Some w -> 0 < w)
  /\ 0 < horizontalScale span.
Proof.
  intros Hscale Hin.
  apply LayerFacts.renderTextLayer_In in Hin.
  destruct Hin as (textItem & _ & Hspan).
  pose proof (LayerFacts.renderTextItem_transform _ _ _ _ _ _ Hspan) as Ht.
  apply LayerFacts.renderTextItem_Some in Hspan.
  destruct Hspan as (_ & _ & _ & _ & Hsize & _ & _ & Hwidth).
  cbv zeta in *. split; [|split].
  - rewrite Hsize. apply Rmult_le_pos; [apply sqrt_pos|lra].
  - intros w Hw. rewrite Hwidth in Hw.
    destruct (Rlt_dec 0 (TextItem.width textItem)) as [Hpos|_];
      [|discriminate].
    injection Hw as <-. apply Rmult_lt_0_compat; assumption.
  - unfold horizontalScale. rewrite Ht.
    destruct (Rlt_dec 0 (TextItem.width textItem)) as [Hpos|_]; [|lra].
    destruct (Rlt_dec 0 _) as [Hm|_]; [|lra].
    destruct (exceedsTolerance _ _ _ _); [|lra].
    apply Rdiv_lt_0_compat; [|assumption].
    apply Rmult_lt_0_compat; assumption.
Qed.

(** The text layer reads the scale of the viewport and nothing else: two
    viewports with the same scale, whatever their rotation and their size,
    give the same spans. *)
Theorem layer_ignores_rotation (textContent : TextContent.t)
    (viewport viewport2 : PDFPageViewport.t) :
  PDFPageViewport.scale viewport2 = PDFPageViewport.scale viewport ->
  renderTextLayer round measureText textContent viewport2
  = renderTextLayer round measureText textContent viewport.
Proof.
  intros Hscale. unfold renderTextLayer. f_equal.
  unfold renderTextItem. rewrite Hscale. reflexivity.
Qed.

End WithMeasure.



(** The same rectangle on the same page shown at scale 2: the viewport is
    1584 pixels high and the box is drawn at [top = 1744]. *)
Example pdf_space_box_at_scale_2 :
  PDFRect.top
    (PdfSpaceHighlight.canvasRect
       {| PDFPageViewport.width := 1224; PDFPageViewport.height := 1584;
          PDFPageViewport.scale := 2; PDFPageViewport.rotation := 0 |}
       Samples.rect) = 1744.
Proof. cbn. lra. Qed.

Lemma layer_scale_positive_witness :
  exists span,
    0 < PDFPageViewport.scale Scenario.viewport
    /\ In span (renderTextLayer (fun x => x) (fun _ _ _ => 33) Scenario.page
                  Scenario.viewport)
    /\ 0 <= Span.fontSize span
    /\ (forall w, Span.width span = Some w -> 0 < w)
    /\ 0 < horizontalScale span.
Proof.
  eexists.
  assert (0 < PDFPageViewport.scale Scenario.viewport) as H by (simpl; lra).
  assert (In _ (renderTextLayer (fun x => x) (fun _ _ _ => 33) Scenario.page
                  Scenario.viewport)) as Hin by (left; reflexivity).
  split; [exact H|]. split; [exact Hin|].
  exact (layer_scale_positive (fun x => x) (fun _ _ _ => 33) Scenario.page
           Scenario.viewport _ H Hin).
Defined.

Lemma layer_ignores_rotation_witness :
  PDFPageViewport.scale Samples.rotatedViewport
  = PDFPageViewport.scale Scenario.viewport
  /\ renderTextLayer (fun x => x) (fun _ _ _ => 33) Scenario.page Samples.rotatedViewport
     = renderTextLayer (fun x => x) (fun _ _ _ => 33) Scenario.page Scenario.viewport.
Proof.
  assert (PDFPageViewport.scale Samples.rotatedViewport
          = PDFPageViewport.scale Scenario.viewport) as H by reflexivity.
  split; [exact H|].
  exact (layer_ignores_rotation (fun x => x) (fun _ _ _ => 33) Scenario.page
           Scenario.viewport Samples.rotatedViewport H).
Defined.

End LayerProperties.

(** * The highlights of the API and the highlight layer of a page *)

Module ApiProperties.
Import Utils HighlightAPI.
Local Open Scope R_scope.

Lemma apiHighlightId_injective (p i p' i' : nat) :
  apiHighlightId p i = apiHighlightId p' i' -> p = p' /\ i = i'.
Proof.
  unfold apiHighlightId. intros H. cbn [append] in H.
  repeat match type of H with
         | String _ _ = String _ _ => injection H as H
         end.
  destruct (IdFacts.split_at_dash _ _ _ _ (IdFacts.decimal_no_dash p)
              (IdFacts.decimal_no_dash p') H) as (Hp & Hi).
  split; apply IdFacts.decimal_injective; assumption.
Qed.

Lemma convertFrom_In (viewport : ViewportInfo.t) (options : SearchOptions.t)
    (matches : list APISearchResult.t) :
  forall (matchIndex : nat) (h : PDFHighlight.t),
    In h (convertFrom matchIndex matches viewport options) ->
    exists (m : APISearchResult.t) (i : nat),
      In m matches /\ (matchIndex <= i)%nat
      /\ h = convertMatch viewport options i m.
Proof.
  induction matches as [|m matches IH]; intros matchIndex h Hin;
    [destruct Hin|].
  destruct Hin as [<-|Hin].
  - exists m, matchIndex. split; [left; reflexivity|]. split; [lia|reflexivity].
  - destruct (IH _ _ Hin) as (m' & i & Hm & Hi & Hh).
    exists m', i. split; [right; assumption|]. split; [lia|assumption].
Qed.

Lemma pixel_canvasRect_id (viewport : PDFPageViewport.t) (rect : PDFRect.t) :
  PixelSpaceHighlight.canvasRect viewport rect = rect.
Proof. destruct rect. reflexivity. Qed.

Lemma pixel_renderHighlight_id (viewport : PDFPageViewport.t)
    (h : PDFHighlight.t) :
  PixelSpaceHighlight.renderHighlight viewport h = PDFHighlight.rects h.
Proof.
  unfold PixelSpaceHighlight.renderHighlight.
  induction (PDFHighlight.rects h) as [|rect rects IH]; [reflexivity|].
  simpl. rewrite IH. destruct rect. reflexivity.
Qed.

Lemma filter_filter_page (hs : list PDFHighlight.t) (n : nat) :
  filter (fun h => Nat.eqb (PDFHighlight.pageNumber h) n)
         (filter (fun h => Nat.eqb (PDFHighlight.pageNumber h) n) hs)
  = filter (fun h => Nat.eqb (PDFHighlight.pageNumber h) n) hs.
Proof.
  induction hs as [|h hs IH]; [reflexivity|]. simpl.
  destruct (Nat.eqb (PDFHighlight.pageNumber h) n) eqn:E; [|assumption].
  simpl. rewrite E, IH. reflexivity.
Qed.

(** The highlight layer of a page shows the highlights that carry the
    number of the page, each at exactly the coordinates of its rectangles,
    whatever the viewport; it shows nothing when there is no highlight at
    all or no viewport yet. *)
Theorem highlightLayer_draws_page (highlights : list PDFHighlight.t)
    (viewport : PDFPageViewport.t) (pageNumber : nat) :
  highlights <> [] ->
  PDFPageHighlights.highlightLayer highlights (Some viewport) pageNumber
  = Some (map PDFHighlight.rects
              (filter (fun h => Nat.eqb (PDFHighlight.pageNumber h) pageNumber)
                      highlights))
  /\ PDFPageHighlights.highlightLayer highlights None pageNumber = None
  /\ PDFPageHighlights.highlightLayer [] (Some viewport) pageNumber = None.
Proof.
  intros Hne. unfold PDFPageHighlights.highlightLayer.
  destruct highlights as [|h hs]; [congruence|]. cbn [List.length Nat.ltb Nat.leb].
  split; [|split; reflexivity].
  unfold PixelSpaceHighlight.render. rewrite filter_filter_page.
  f_equal. apply map_ext. intros h'. apply pixel_renderHighlight_id.
Qed.

Lemma highlightLayer_draws_page_witness :
  [HighlightAPI.convertMatch (getViewportInfo Scenario.viewport)
     Samples.apiOptions 0 Samples.apiMatch] <> []
  /\ (PDFPageHighlights.highlightLayer
        [HighlightAPI.convertMatch (getViewportInfo Scenario.viewport)
           Samples.apiOptions 0 Samples.apiMatch]
        (Some Scenario.viewport) 1
      = Some (map PDFHighlight.rects
                (filter (fun h => Nat.eqb (PDFHighlight.pageNumber h) 1)
                   [HighlightAPI.convertMatch (getViewportInfo Scenario.viewport)
                      Samples.apiOptions 0 Samples.apiMatch]))
      /\ PDFPageHighlights.highlightLayer
           [HighlightAPI.convertMatch (getViewportInfo Scenario.viewport)
              Samples.apiOptions 0 Samples.apiMatch] None 1 = None
      /\ PDFPageHighlights.highlightLayer [] (Some Scenario.viewport) 1 = None).
Proof.
  split; [discriminate|].
  apply (highlightLayer_draws_page
           [HighlightAPI.convertMatch (getViewportInfo Scenario.viewport)
              Samples.apiOptions 0 Samples.apiMatch] Scenario.viewport 1).
  discriminate.
Defined.

(** The conversion yields one highlight per match of the API, in order,
    with the page number and the matched text of the match and with
    pairwise distinct ids; no highlight has an opacity of 0 or an empty
    colour, the defaults taking their place. *)
Theorem api_highlights_per_match (matches : list APISearchResult.t)
    (viewport : ViewportInfo.t) (options : SearchOptions.t) :
  map PDFHighlight.pageNumber (convertToReactHighlights matches viewport options)
  = map APISearchResult.page_number matches
  /\ map PDFHighlight.content (convertToReactHighlights matches viewport options)
     = map APISearchResult.matched_text matches
  /\ NoDup (map PDFHighlight.id
              (convertToReactHighlights matches viewport options))
  /\ Forall (fun h => PDFHighlight.opacity h <> 0
                      /\ PDFHighlight.color h <> ""%string)
            (convertToReactHighlights matches viewport options).
Proof.
  unfold convertToReactHighlights. generalize 0%nat.
  assert (opacityOf options <> 0) as Hop.
  { unfold opacityOf, defaultOpacity.
    destruct (SearchOptions.opacity options) as [o|]; [|lra].
    destruct (Req_EM_T o 0); [lra|assumption]. }
  assert (colorOf options <> ""%string) as Hcol.
  { unfold colorOf, defaultColor.
    destruct (SearchOptions.color options) as [c|]; [|discriminate].
    destruct (String.eqb c "") eqn:E; [discriminate|].
    apply String.eqb_neq. assumption. }
  induction matches as [|m matches IH]; intros k; simpl.
  - repeat split; constructor.
  - destruct (IH (S k)) as (Hp & Hc & Hid & Hall).
    split; [f_equal; assumption|]. split; [f_equal; assumption|].
    split; [|constructor; [split; assumption|assumption]].
    constructor; [|assumption].
    intros Hin. apply in_map_iff in Hin. destruct Hin as (h & Heq & Hin).
    apply convertFrom_In in Hin. destruct Hin as (m' & i & _ & Hi & ->).
    simpl in Heq. apply apiHighlightId_injective in Heq. lia.
Qed.

(** Rectangles the API gives as fractions of the page are drawn with
    their corner in the viewport they were converted for, and no larger
    than it: horizontal fractions are taken of the width, vertical ones of
    the height.  (That a box ends inside the viewport is not claimed: the
    sum of two rounded products may pass the edge by a rounding error.) *)
Theorem api_boxes_within_viewport (matches : list APISearchResult.t)
    (viewport : PDFPageViewport.t) (options : SearchOptions.t)
    (pageNumber : nat) (boxes : list (list PDFRect.t)) (hbox : list PDFRect.t)
    (box : PDFRect.t) :
  (forall m apiRect, In m matches -> In apiRect (APISearchResult.rectangles m) ->
     normalised apiRect) ->
  0 <= PDFPageViewport.width viewport ->
  0 <= PDFPageViewport.height viewport ->
  PDFPageHighlights.highlightLayer
    (convertToReactHighlights matches (getViewportInfo viewport) options)
    (Some viewport) pageNumber = Some boxes ->
  In hbox boxes -> In box hbox ->
  withinViewport viewport box.
Proof.
  intros Hnorm Hw Hh Hlayer Hhbox Hbox.
  unfold PDFPageHighlights.highlightLayer in Hlayer.
  destruct (Nat.ltb 0 _); [|discriminate]. injection Hlayer as <-.
  unfold PixelSpaceHighlight.render in Hhbox.
  apply in_map_iff in Hhbox. destruct Hhbox as (h & <- & Hin).
  rewrite pixel_renderHighlight_id in Hbox.
  apply filter_In in Hin. destruct Hin as (Hin & _).
  apply filter_In in Hin. destruct Hin as (Hin & _).
  apply convertFrom_In in Hin. destruct Hin as (m & i & Hm & _ & ->).
  simpl in Hbox. apply in_map_iff in Hbox.
  destruct Hbox as (apiRect & <- & Hrect).
  destruct (Hnorm m apiRect Hm Hrect) as (H1 & H2 & H3 & H4).
  unfold withinViewport. simpl. repeat split; nra.
Qed.

Lemma api_boxes_within_viewport_witness :
  exists boxes hbox box,
    (forall m apiRect, In m [Samples.apiMatch] ->
       In apiRect (APISearchResult.rectangles m) -> normalised apiRect)
    /\ 0 <= PDFPageViewport.width Scenario.viewport
    /\ 0 <= PDFPageViewport.height Scenario.viewport
    /\ PDFPageHighlights.highlightLayer
         (convertToReactHighlights [Samples.apiMatch]
            (getViewportInfo Scenario.viewport) Samples.apiOptions)
         (Some Scenario.viewport) 1 = Some boxes
    /\ In hbox boxes /\ In box hbox
    /\ withinViewport Scenario.viewport box.
Proof.
  eexists. eexists. eexists.
  assert (forall m apiRect, In m [Samples.apiMatch] ->
            In apiRect (APISearchResult.rectangles m) -> normalised apiRect)
    as Hnorm.
  { intros m apiRect [<-|[]] [<-|[]]. unfold normalised. simpl.
    repeat split; lra. }
  assert (0 <= PDFPageViewport.width Scenario.viewport) as Hw by (simpl; lra).
  assert (0 <= PDFPageViewport.height Scenario.viewport) as Hh by (simpl; lra).
  assert (PDFPageHighlights.highlightLayer
            (convertToReactHighlights [Samples.apiMatch]
               (getViewportInfo Scenario.viewport) Samples.apiOptions)
            (Some Scenario.viewport) 1 = Some _) as Hlayer by reflexivity.
  split; [exact Hnorm|]. split; [exact Hw|]. split; [exact Hh|].
  split; [exact Hlayer|].
  assert (In _ (map (PixelSpaceHighlight.renderHighlight Scenario.viewport)
                  [HighlightAPI.convertMatch (getViewportInfo Scenario.viewport)
                     Samples.apiOptions 0 Samples.apiMatch])) as Hhbox
      by (left; reflexivity).
  assert (In _ (PixelSpaceHighlight.renderHighlight Scenario.viewport
                  (HighlightAPI.convertMatch (getViewportInfo Scenario.viewport)
                     Samples.apiOptions 0 Samples.apiMatch))) as Hbox
      by (left; reflexivity).
  split; [exact Hhbox|]. split; [exact Hbox|].
  exact (api_boxes_within_viewport [Samples.apiMatch] Scenario.viewport
           Samples.apiOptions 1 _ _ _ Hnorm Hw Hh Hlayer Hhbox Hbox).
Defined.

End ApiProperties.

(** * The keyboard shortcuts *)

Module KeyboardProperties.
Import JS KeyboardShortcuts.

Lemma strEq_true (a b : jsstring) : strEq a b = true <-> a = b.
Proof.
  unfold strEq. destruct (list_eq_dec N.eq_dec a b); split; congruence.
Qed.

(** Case analysis over the tests of the handler, outermost first. *)
Ltac split_tests :=
  repeat match goal with
         | |- context [if ?b then _ else _] =>
             match b with
             | context [if _ then _ else _] => fail 1
             | _ => destruct b eqn:?
             end
         end.

Section WithLowerCase.

Variable toLowerCase : jsstring -> jsstring.

(** The handler does nothing, and leaves the event to the browser, when the
    shortcuts are disabled or when the key is typed into an input, a text
    area or an editable element. *)
Theorem shortcuts_inert (enabled : bool) (event : KeyboardEvent.t) :
  enabled = false
  \/ KeyboardEvent.tagName event = units "INPUT"
  \/ KeyboardEvent.tagName event = units "TEXTAREA"
  \/ KeyboardEvent.isContentEditable event = true ->
  handleKeyDown toLowerCase enabled event = (None, false).
Proof.
  unfold handleKeyDown. intros [->|[H|[H|H]]]; [reflexivity| | |];
    destruct enabled; cbn [negb]; try reflexivity.
  - rewrite H. reflexivity.
  - rewrite H. reflexivity.
  - rewrite H, !orb_true_r. reflexivity.
Qed.

(** The default action of the browser is prevented exactly when the key
    selects an entry of the handlers. *)
Theorem preventDefault_iff_handler (enabled : bool) (event : KeyboardEvent.t) :
  snd (handleKeyDown toLowerCase enabled event) = true
  <-> fst (handleKeyDown toLowerCase enabled event) <> None.
Proof.
  unfold handleKeyDown, call, pass. cbv zeta.
  destruct (KeyboardEvent.ctrlKey event || KeyboardEvent.metaKey event);
    destruct (KeyboardEvent.shiftKey event);
    destruct (KeyboardEvent.altKey event);
    cbn [negb andb orb];
    split_tests; cbn [fst snd]; split; congruence.
Qed.

(** No key selects [onGoToPage]: its branch comes after the two branches
    for Ctrl+G with and without the shift key, which cover every case. *)
Theorem goToPage_unreachable (enabled : bool) (event : KeyboardEvent.t) :
  fst (handleKeyDown toLowerCase enabled event) <> Some onGoToPage.
Proof.
  unfold handleKeyDown, call, pass. cbv zeta.
  destruct (KeyboardEvent.ctrlKey event || KeyboardEvent.metaKey event);
    destruct (KeyboardEvent.shiftKey event);
    destruct (KeyboardEvent.altKey event);
    cbn [negb andb orb];
    split_tests; cbn [fst]; congruence.
Qed.

(** The Ctrl key and the Meta key are interchangeable: the handler reads
    them through their disjunction only. *)
Theorem ctrl_meta_interchangeable (enabled : bool) (event : KeyboardEvent.t) :
  handleKeyDown toLowerCase enabled (foldMeta event)
  = handleKeyDown toLowerCase enabled event.
Proof.
  unfold handleKeyDown, foldMeta. cbn [KeyboardEvent.key KeyboardEvent.ctrlKey
    KeyboardEvent.metaKey KeyboardEvent.shiftKey KeyboardEvent.altKey
    KeyboardEvent.tagName KeyboardEvent.isContentEditable].
  rewrite orb_false_r. reflexivity.
Qed.

(** Printing and the presentation mode need the key ["p"] itself: with a
    modifier and a key that is only equal to ["p"] in lower case, the
    capital P, the handler selects nothing and leaves the event to the
    browser. *)
Theorem print_needs_lowercase_p (event : KeyboardEvent.t) :
  toLowerCase (KeyboardEvent.key event) = units "p" ->
  KeyboardEvent.key event <> units "p" ->
  KeyboardEvent.ctrlKey event || KeyboardEvent.metaKey event = true ->
  strEq (KeyboardEvent.tagName event) (units "INPUT")
  || strEq (KeyboardEvent.tagName event) (units "TEXTAREA")
  || KeyboardEvent.isContentEditable event = false ->
  handleKeyDown toLowerCase true event = (None, false).
Proof.
  intros Hlow Hkey Hmod Htarget.
  assert (strEq (KeyboardEvent.key event) (units "p") = false) as E.
  { destruct (strEq (KeyboardEvent.key event) (units "p")) eqn:E;
      [|reflexivity].
    apply strEq_true in E. contradiction. }
  unfold handleKeyDown. cbv zeta. rewrite Htarget, Hlow, Hmod, E.
  destruct (KeyboardEvent.altKey event); reflexivity.
Qed.

End WithLowerCase.

Lemma shortcuts_inert_witness :
  (true = false
   \/ KeyboardEvent.tagName Samples.typedN = units "INPUT"
   \/ KeyboardEvent.tagName Samples.typedN = units "TEXTAREA"
   \/ KeyboardEvent.isContentEditable Samples.typedN = true)
  /\ handleKeyDown asciiLowerCase true Samples.typedN = (None, false).
Proof.
  assert (true = false
          \/ KeyboardEvent.tagName Samples.typedN = units "INPUT"
          \/ KeyboardEvent.tagName Samples.typedN = units "TEXTAREA"
          \/ KeyboardEvent.isContentEditable Samples.typedN = true) as H
      by (right; left; reflexivity).
  split; [exact H|].
  exact (shortcuts_inert asciiLowerCase true Samples.typedN H).
Defined.

Lemma print_needs_lowercase_p_witness :
  asciiLowerCase (KeyboardEvent.key Samples.ctrlCapitalP) = units "p"
  /\ KeyboardEvent.key Samples.ctrlCapitalP <> units "p"
  /\ KeyboardEvent.ctrlKey Samples.ctrlCapitalP
     || KeyboardEvent.metaKey Samples.ctrlCapitalP = true
  /\ strEq (KeyboardEvent.tagName Samples.ctrlCapitalP) (units "INPUT")
     || strEq (KeyboardEvent.tagName Samples.ctrlCapitalP) (units "TEXTAREA")
     || KeyboardEvent.isContentEditable Samples.ctrlCapitalP = false
  /\ handleKeyDown asciiLowerCase true Samples.ctrlCapitalP = (None, false).
Proof.
  assert (asciiLowerCase (KeyboardEvent.key Samples.ctrlCapitalP) = units "p")
    as H1 by reflexivity.
  assert (KeyboardEvent.key Samples.ctrlCapitalP <> units "p") as H2
      by discriminate.
  assert (KeyboardEvent.ctrlKey Samples.ctrlCapitalP
          || KeyboardEvent.metaKey Samples.ctrlCapitalP = true) as H3
      by reflexivity.
  assert (strEq (KeyboardEvent.tagName Samples.ctrlCapitalP) (units "INPUT")
          || strEq (KeyboardEvent.tagName Samples.ctrlCapitalP) (units "TEXTAREA")
          || KeyboardEvent.isContentEditable Samples.ctrlCapitalP = false) as H4
      by reflexivity.
  split; [exact H1|]. split; [exact H2|]. split; [exact H3|].
  split; [exact H4|].
  exact (print_needs_lowercase_p asciiLowerCase Samples.ctrlCapitalP
           H1 H2 H3 H4).
Defined.

(** Ctrl+Alt+G, the shortcut the source means for "go to page", finds the
    next match instead. *)
Example ctrl_alt_g_finds_next :
  handleKeyDown asciiLowerCase true Samples.ctrlAltG = (Some onFindNext, true).
Proof. reflexivity. Qed.

End KeyboardProperties.

(** * The worker configuration ([worker.ts]) *)

Module WorkerProperties.
Import JS Worker.
Local Open Scope nat_scope.

(** A string that starts with a character other than white space is not
    blank. *)
Lemma trim_nonblank_head (c : N) (rest : jsstring) :
  isTrimmed c = false -> truthy (trim (c :: rest)) = true.
Proof.
  intros Hc. unfold trim, trimEnd. cbn [trimStart]. rewrite Hc. cbn [rev].
  rewrite PageSearchFacts.trimStart_snoc by assumption.
  rewrite rev_app_distr. reflexivity.
Qed.

Section WithVersion.

Variable version : jsstring.

Local Abbreviation jsdelivr :=
  (units "https://cdn.jsdelivr.net/npm/pdfjs-dist@" ++ version
     ++ units "/build/pdf.worker.min.mjs").
Local Abbreviation unpkg :=
  (units "https://unpkg.com/pdfjs-dist@" ++ version
     ++ units "/build/pdf.worker.min.mjs").
Local Abbreviation cdnjs :=
  (units "https://cdnjs.cloudflare.com/ajax/libs/pdf.js/" ++ version
     ++ units "/pdf.worker.min.js").

(** The fallback chosen for a retry count. *)
Lemma fallback_defined (n : nat) :
  exists s,
    nth_error (fallbackWorkers version)
      (Nat.modulo n (List.length (fallbackWorkers version))) = Some s
    /\ In s (fallbackWorkers version).
Proof.
  destruct (nth_error (fallbackWorkers version)
              (Nat.modulo n (List.length (fallbackWorkers version))))
    as [s|] eqn:E.
  - exists s. split; [reflexivity|]. eapply nth_error_In. eassumption.
  - apply nth_error_None in E.
    pose proof (Nat.mod_upper_bound n (List.length (fallbackWorkers version))
                  ltac:(discriminate)). lia.
Qed.

(** Each fallback is a proper worker source. *)
Lemma fallback_proper (s : jsstring) :
  In s (fallbackWorkers version) ->
  truthy s = true /\ truthy (trim s) = true /\ s <> units "undefined".
Proof.
  intros [<-|[<-|[<-|[]]]]; cbn [units list_ascii_of_string map app];
    (split; [reflexivity|]);
    (split; [apply trim_nonblank_head; reflexivity|discriminate]).
Qed.

(** A forced configuration without a source selects the fallback of the
    retry count. *)
Lemma configure_forced_default (st : State.t) :
  configurePDFWorker version None true st
  = {| State.isWorkerConfigured := true;
       State.workerRetryCount := State.workerRetryCount st;
       State.workerSrc :=
         nth_error (fallbackWorkers version)
           (Nat.modulo (State.workerRetryCount st)
                       (List.length (fallbackWorkers version))) |}.
Proof.
  unfold configurePDFWorker. rewrite andb_false_r. reflexivity.
Qed.

(** The state after a reset. *)
Lemma reset_canonical_state (st : State.t) :
  resetWorkerConfiguration version st
  = {| State.isWorkerConfigured := true;
       State.workerRetryCount := 0;
       State.workerSrc := Some jsdelivr |}.
Proof.
  unfold resetWorkerConfiguration. rewrite configure_forced_default.
  reflexivity.
Qed.

(** [resetWorkerConfiguration] (and [resetWorker] of [utils.ts]) leads to
    one and the same state whatever the state before: configured, no retry
    counted, the first fallback as worker source; [getWorkerInfo] then
    reports a properly configured worker. *)
Theorem reset_is_canonical (st : State.t) :
  resetWorkerConfiguration version st
  = {| State.isWorkerConfigured := true;
       State.workerRetryCount := 0;
       State.workerSrc := Some jsdelivr |}
  /\ getWorkerInfo (resetWorker version st)
     = {| WorkerInfo.configured := true;
          WorkerInfo.workerSrc := Some jsdelivr;
          WorkerInfo.retryCount := 0 |}.
Proof.
  assert (resetWorkerConfiguration version st
          = {| State.isWorkerConfigured := true;
               State.workerRetryCount := 0;
               State.workerSrc := Some jsdelivr |}) as Hreset
      by (unfold resetWorkerConfiguration;
          rewrite configure_forced_default; reflexivity).
  split; [assumption|].
  unfold resetWorker, getWorkerInfo, getWorkerSrc, getWorkerRetryCount.
  rewrite Hreset. cbn [State.workerSrc State.workerRetryCount].
  f_equal. unfold isWorkerConfiguredProperly.
  cbn [State.workerSrc State.isWorkerConfigured].
  destruct (fallback_proper jsdelivr ltac:(left; reflexivity))
    as (H1 & H2 & H3).
  rewrite H1, H2.
  destruct (list_eq_dec N.eq_dec jsdelivr (units "undefined")) as [Heq|_];
    [contradiction|reflexivity].
Qed.

(** A retry succeeds exactly while fewer than three retries are counted; it
    then counts one more and selects the fallback of the new count, a
    proper worker source.  Otherwise it changes nothing.  The third retry
    selects the first fallback again. *)
Theorem retry_steps (st : State.t) :
  (State.workerRetryCount st < 3 ->
   exists s,
     retryWorkerConfiguration version st
     = ({| State.isWorkerConfigured := true;
           State.workerRetryCount := S (State.workerRetryCount st);
           State.workerSrc := Some s |}, true)
     /\ nth_error [jsdelivr; unpkg; cdnjs]
          (Nat.modulo (S (State.workerRetryCount st)) 3) = Some s
     /\ (State.workerRetryCount st = 2 -> s = jsdelivr)
     /\ isWorkerConfiguredProperly (fst (retryWorkerConfiguration version st))
        = true)
  /\ (3 <= State.workerRetryCount st ->
      retryWorkerConfiguration version st = (st, false)).
Proof.
  unfold retryWorkerConfiguration, MAX_WORKER_RETRIES. split.
  - intros Hlt.
    assert (Nat.ltb (State.workerRetryCount st) 3 = true) as ->
        by (apply Nat.ltb_lt; assumption).
    rewrite configure_forced_default. cbn [State.workerRetryCount].
    destruct (fallback_defined (S (State.workerRetryCount st)))
      as (s & Hs & Hin).
    rewrite Hs. exists s. split; [reflexivity|]. split; [exact Hs|]. split.
    + intros H2. rewrite H2 in Hs. change (Some jsdelivr = Some s) in Hs.
      congruence.
    + cbn [fst]. unfold isWorkerConfiguredProperly.
      cbn [State.workerSrc State.isWorkerConfigured].
      destruct (fallback_proper s Hin) as (H1 & H2 & H3). rewrite H1, H2.
      destruct (list_eq_dec N.eq_dec s (units "undefined")) as [Heq|_];
        [contradiction|reflexivity].
  - intros Hge.
    assert (Nat.ltb (State.workerRetryCount st) 3 = false) as ->
        by (apply Nat.ltb_ge; assumption).
    reflexivity.
Qed.

Lemma configure_settled (workerSrc : option jsstring) (force : bool)
    (st : State.t) :
  State.workerRetryCount st <= 3 ->
  (State.isWorkerConfigured st = true -> settled st) ->
  settled (configurePDFWorker version workerSrc force st).
Proof.
  intros Hcount Hst. unfold configurePDFWorker.
  destruct (State.isWorkerConfigured st && negb force) eqn:E.
  - apply andb_true_iff in E. apply Hst. apply E.
  - unfold settled. cbn [State.isWorkerConfigured State.workerRetryCount
                         State.workerSrc].
    split; [reflexivity|]. split; [assumption|].
    destruct (truthyOpt workerSrc && truthyOpt (option_map trim workerSrc))
      eqn:Ew.
    + destruct workerSrc as [w|]; [|discriminate]. exists w.
      split; [reflexivity|]. intros ->. discriminate.
    + destruct (truthyOpt (if force then None else State.workerSrc st)) eqn:Ec.
      * cbn [negb]. destruct force; [discriminate|].
        destruct (State.workerSrc st) as [s|]; [|discriminate].
        exists s. split; [reflexivity|]. intros ->. discriminate.
      * cbn [negb].
        destruct (fallback_defined (State.workerRetryCount st))
          as (s & Hs & Hin).
        rewrite Hs. exists s. split; [reflexivity|].
        destruct (fallback_proper s Hin) as (H1 & _). intros ->. discriminate.
Qed.

Lemma apply_settled (op : operation) (st : State.t) :
  settled st -> settled (Worker.apply version op st).
Proof.
  intros Hst. pose proof Hst as (_ & Hcount & _).
  destruct op as [workerSrc force| | |]; cbn [Worker.apply].
  - apply configure_settled; [assumption|intros _; assumption].
  - unfold resetWorkerConfiguration. apply configure_settled.
    + cbn. lia.
    + cbn. discriminate.
  - unfold retryWorkerConfiguration, MAX_WORKER_RETRIES.
    destruct (Nat.ltb (State.workerRetryCount st) 3) eqn:E; [|assumption].
    apply Nat.ltb_lt in E. cbn [fst]. apply configure_settled.
    + cbn. lia.
    + cbn. discriminate.
  - cbn [testWorker fst]. apply configure_settled;
      [assumption|intros _; assumption].
Qed.

Lemma run_settled (hostWorkerSrc : option jsstring) (ops : list operation) :
  settled (run version hostWorkerSrc ops).
Proof.
  unfold run.
  assert (settled (onImport version hostWorkerSrc)) as Hinit.
  { unfold onImport. apply configure_settled; cbn; [lia|discriminate]. }
  revert Hinit. generalize (onImport version hostWorkerSrc).
  induction ops as [|op ops IH]; intros st Hst; [assumption|].
  cbn [fold_left]. apply IH. apply apply_settled. assumption.
Qed.

(** After the import and any sequence of calls the worker is configured,
    its source is a non-empty string and at most three retries are
    counted. *)
Theorem worker_invariant (hostWorkerSrc : option jsstring)
    (ops : list operation) :
  State.isWorkerConfigured (run version hostWorkerSrc ops) = true
  /\ State.workerRetryCount (run version hostWorkerSrc ops) <= 3
  /\ exists s,
       State.workerSrc (run version hostWorkerSrc ops) = Some s /\ s <> [].
Proof. apply run_settled. Qed.

(** Once the module is imported, [configurePDFWorker] without [force] has
    no effect, whatever source it is given; with [force] and a source that
    is not blank, that source is installed. *)
Theorem configure_needs_force (hostWorkerSrc : option jsstring)
    (ops : list operation) (workerSrc : jsstring) :
  run version hostWorkerSrc (ops ++ [Configure (Some workerSrc) false])
  = run version hostWorkerSrc ops
  /\ (truthy (trim workerSrc) = true ->
      State.workerSrc
        (run version hostWorkerSrc (ops ++ [Configure (Some workerSrc) true]))
      = Some workerSrc).
Proof.
  unfold run. rewrite !fold_left_app. cbn [fold_left Worker.apply].
  fold (run version hostWorkerSrc ops).
  destruct (run_settled hostWorkerSrc ops) as (Hconf & _).
  split.
  - unfold configurePDFWorker. rewrite Hconf. reflexivity.
  - intros Ht. unfold configurePDFWorker. rewrite andb_false_r.
    cbn [truthyOpt option_map State.workerSrc].
    rewrite Ht, (LayerFacts.truthy_trim _ Ht). reflexivity.
Qed.

End WithVersion.

End WorkerProperties.

(** * The loader: [src/lib/PDFLoader.ts] *)

Module LoaderProperties.
Import JS Worker PDFLoader.
Local Open Scope nat_scope.

(** The loop body runs [n + 1] times for [retries = n]. *)
Lemma iterations_INR (n : nat) : iterations (INR n) = S n.
Proof.
  unfold iterations.
  assert (up (INR n) = Z.of_nat (S n)) as ->; [|apply Znat.Nat2Z.id].
  symmetry. apply tech_up; rewrite <- INR_IZR_INZ, S_INR; lra.
Qed.

(** The loop condition [attempt <= retries] holds for the attempts counted
    and for no other. *)
Lemma iterations_condition (retries : R) (attempt : nat) :
  attempt < iterations retries <-> (INR attempt <= retries)%R.
Proof.
  unfold iterations. destruct (archimed retries) as [Hlow Hup]. split.
  - intros Hlt.
    assert (Z.of_nat (S attempt) <= up retries)%Z as Hz by lia.
    apply IZR_le in Hz. rewrite <- INR_IZR_INZ, S_INR in Hz. lra.
  - intros Hle.
    assert (IZR (Z.of_nat attempt) < IZR (up retries))%R as Hz
        by (rewrite <- INR_IZR_INZ; lra).
    apply lt_IZR in Hz. lia.
Qed.

(** It does not run for a negative number of retries. *)
Lemma iterations_negative (retries : R) :
  (retries < 0)%R -> iterations retries = 0.
Proof.
  intros Hneg. unfold iterations.
  destruct (archimed retries) as [_ Hup].
  assert (IZR (up retries) < 1)%R as H1 by lra.
  apply lt_IZR in H1. destruct (up retries); try reflexivity. lia.
Qed.

(** It runs at most [retries + 1] times otherwise. *)
Lemma iterations_bound (retries : R) :
  (0 <= retries)%R -> (INR (iterations retries) <= retries + 1)%R.
Proof.
  intros Hpos. unfold iterations.
  destruct (archimed retries) as [Hlow Hup].
  assert (0 < IZR (up retries))%R as H0 by lra.
  apply lt_IZR in H0.
  rewrite INR_IZR_INZ, Znat.Z2Nat.id by lia. lra.
Qed.

Section Loader.

Variable version : jsstring.
Variable toLowerCase : jsstring -> jsstring.
Variable load : nat -> State.t -> PDFDocumentProxy + jsstring.

Local Abbreviation attemptsFrom := (PDFLoader.attemptsFrom version toLowerCase load).
Local Abbreviation loadPDF := (PDFLoader.loadPDF version toLowerCase load).
Local Abbreviation isWorkerError := (PDFLoader.isWorkerError toLowerCase).

(** Without the option the loader retries three times. *)
Lemma loadPDF_default (st : State.t) :
  loadPDF None st = loadPDF (Some 3%R) st.
Proof.
  unfold PDFLoader.loadPDF, DEFAULT_RETRIES.
  replace (INR 3) with 3%R by (simpl; lra). reflexivity.
Qed.

(** What the loop returns or falls through with. *)
Lemma attemptsFrom_shape (retries : R) (remaining : nat) :
  forall (attempt : nat) (lastError : option jsstring) (retriesUsed : nat)
         (st : State.t),
    match snd (attemptsFrom retries remaining attempt lastError retriesUsed
                 st) with
    | inl result =>
        PDFLoadResult.pdf result <> None
        /\ PDFLoadResult.error result = None
        /\ attempt <= PDFLoadResult.retriesUsed result < attempt + remaining
    | inr (lastError', retriesUsed') =>
        remaining = 0 /\ lastError' = lastError /\ retriesUsed' = retriesUsed
        \/ lastError' <> None
           /\ attempt + 1 <= retriesUsed' <= attempt + remaining
    end.
Proof.
  induction remaining as [|remaining IH];
    intros attempt lastError retriesUsed st; cbn [PDFLoader.attemptsFrom].
  - cbn [snd]. left. repeat split.
  - destruct (load attempt st) as [pdf|message].
    + cbn [snd PDFLoadResult.pdf PDFLoadResult.error
           PDFLoadResult.retriesUsed].
      split; [discriminate|]. split; [reflexivity|lia].
    + assert (forall st',
                match snd (attemptsFrom retries remaining (S attempt)
                             (Some message) (attempt + 1) st') with
                | inl result =>
                    PDFLoadResult.pdf result <> None
                    /\ PDFLoadResult.error result = None
                    /\ attempt <= PDFLoadResult.retriesUsed result
                       < attempt + S remaining
                | inr (lastError', retriesUsed') =>
                    S remaining = 0 /\ lastError' = lastError
                    /\ retriesUsed' = retriesUsed
                    \/ lastError' <> None
                       /\ attempt + 1 <= retriesUsed' <= attempt + S remaining
                end) as Hnext.
      { intros st'. specialize (IH (S attempt) (Some message) (attempt + 1) st').
        destruct (snd (attemptsFrom retries remaining (S attempt)
                         (Some message) (attempt + 1) st'))
          as [result|[lastError' retriesUsed']].
        - destruct IH as (H1 & H2 & H3). split; [assumption|].
          split; [assumption|lia].
        - right. destruct IH as [(-> & -> & ->)|[H1 H2]].
          + split; [discriminate|lia].
          + split; [assumption|lia]. }
      destruct (isWorkerError message
                && (if Rlt_dec (INR attempt) retries then true else false));
        [|apply Hnext].
      destruct (retryWorkerConfiguration version st) as [st' [|]];
        [apply Hnext|].
      cbn [snd]. right. split; [discriminate|lia].
Qed.

(** [loadPDF] resolves to a document or to an error, never to both and
    never to neither, whatever the number of retries, negative and
    fractional ones included.  With [n] the number of times the loop body
    runs, [retriesUsed] is at most [n + 1] with a document and at most [n]
    with an error: the attempt after the reset of the worker is counted
    only when it succeeds.  [n] is 0 for a negative number of retries, and
    the result is then that of this one attempt; [n] is at most
    [retries + 1] otherwise, and an error then comes with a [retriesUsed] of
    at least 1. *)
Theorem loadPDF_result_shape (retries : R) (st : State.t) :
  (PDFLoadResult.pdf (snd (loadPDF (Some retries) st)) = None
   <-> PDFLoadResult.error (snd (loadPDF (Some retries) st)) <> None)
  /\ PDFLoadResult.retriesUsed (snd (loadPDF (Some retries) st))
     <= iterations retries + 1
  /\ (PDFLoadResult.pdf (snd (loadPDF (Some retries) st)) = None ->
      PDFLoadResult.retriesUsed (snd (loadPDF (Some retries) st))
      <= iterations retries)
  /\ ((retries < 0)%R ->
      iterations retries = 0
      /\ snd (loadPDF (Some retries) st)
         = match load 0 (resetWorkerConfiguration version st) with
           | inl pdf =>
               {| PDFLoadResult.pdf := Some pdf;
                  PDFLoadResult.error := None;
                  PDFLoadResult.retriesUsed := 1 |}
           | inr finalError =>
               {| PDFLoadResult.pdf := None;
                  PDFLoadResult.error := Some finalError;
                  PDFLoadResult.retriesUsed := 0 |}
           end)
  /\ ((0 <= retries)%R ->
      (INR (iterations retries) <= retries + 1)%R
      /\ (PDFLoadResult.pdf (snd (loadPDF (Some retries) st)) = None ->
          1 <= PDFLoadResult.retriesUsed (snd (loadPDF (Some retries) st)))).
Proof.
  split; [|split; [|split; [|split]]].
  - unfold PDFLoader.loadPDF.
    pose proof (attemptsFrom_shape retries (iterations retries) 0 None 0 st)
      as H.
    destruct (attemptsFrom retries (iterations retries) 0 None 0 st)
      as [st' [result|[lastError used]]]; cbn [snd] in H |- *.
    + destruct H as (H1 & H2 & _). rewrite H2.
      split; [intros E; contradiction|intros E; exfalso; apply E; reflexivity].
    + destruct lastError as [message|].
      * destruct (isWorkerError message);
          [destruct (load used (resetWorkerConfiguration version st'))
             as [pdf|finalError]|];
          cbn [snd PDFLoadResult.pdf PDFLoadResult.error];
          split; intros E; try discriminate; try reflexivity;
          exfalso; apply E; reflexivity.
      * destruct (load used (resetWorkerConfiguration version st'))
          as [pdf|finalError];
          cbn [snd PDFLoadResult.pdf PDFLoadResult.error];
          split; intros E; try discriminate; try reflexivity;
          exfalso; apply E; reflexivity.
  - unfold PDFLoader.loadPDF.
    pose proof (attemptsFrom_shape retries (iterations retries) 0 None 0 st)
      as H.
    destruct (attemptsFrom retries (iterations retries) 0 None 0 st)
      as [st' [result|[lastError used]]]; cbn [snd] in H |- *.
    + lia.
    + assert (used <= iterations retries) as Hused
          by (destruct H as [(_ & _ & ->)|[_ H]]; lia).
      destruct (match lastError with
                | Some message => isWorkerError message
                | None => true
                end);
        [destruct (load used (resetWorkerConfiguration version st'))|];
        cbn [snd PDFLoadResult.retriesUsed]; lia.
  - unfold PDFLoader.loadPDF.
    pose proof (attemptsFrom_shape retries (iterations retries) 0 None 0 st)
      as H.
    destruct (attemptsFrom retries (iterations retries) 0 None 0 st)
      as [st' [result|[lastError used]]]; cbn [snd] in H |- *.
    + intros E. destruct H as (H1 & _). contradiction.
    + assert (used <= iterations retries) as Hused
          by (destruct H as [(_ & _ & ->)|[_ H]]; lia).
      destruct (match lastError with
                | Some message => isWorkerError message
                | None => true
                end);
        [destruct (load used (resetWorkerConfiguration version st'))|];
        cbn [snd PDFLoadResult.retriesUsed PDFLoadResult.pdf];
        intros E; try discriminate; lia.
  - intros Hneg. pose proof (iterations_negative retries Hneg) as H0.
    split; [assumption|].
    unfold PDFLoader.loadPDF. rewrite H0. cbn [PDFLoader.attemptsFrom].
    destruct (load 0 (resetWorkerConfiguration version st)); reflexivity.
  - intros Hpos. split; [apply iterations_bound; assumption|].
    unfold PDFLoader.loadPDF.
    assert (iterations retries <> 0) as Hn.
    { unfold iterations. destruct (archimed retries) as [Hlow _].
      assert (0 < IZR (up retries))%R as Hz by lra.
      apply lt_IZR in Hz. lia. }
    pose proof (attemptsFrom_shape retries (iterations retries) 0 None 0 st)
      as H.
    destruct (attemptsFrom retries (iterations retries) 0 None 0 st)
      as [st' [result|[lastError used]]]; cbn [snd] in H |- *.
    + intros E. destruct H as (H1 & _). contradiction.
    + destruct H as [(Habs & _)|[_ Hused]]; [contradiction|].
      destruct (match lastError with
                | Some message => isWorkerError message
                | None => true
                end);
        [destruct (load used (resetWorkerConfiguration version st'))|];
        cbn [snd PDFLoadResult.retriesUsed PDFLoadResult.pdf];
        intros E; try discriminate; lia.
Qed.

(** While the failures are not worker errors, the loop goes on at the same
    worker. *)
Lemma attemptsFrom_plain (retries : R) (k : nat) :
  forall (remaining attempt : nat) (lastError : option jsstring)
         (retriesUsed : nat) (st : State.t),
    k <= remaining ->
    (forall i, i < k ->
       exists message,
         load (attempt + i) st = inr message
         /\ isWorkerError message = false) ->
    attemptsFrom retries remaining attempt lastError retriesUsed st
    = attemptsFrom retries (remaining - k) (attempt + k)
        (match k with
         | O => lastError
         | S k' => errorOf (load (attempt + k') st)
         end)
        (match k with
         | O => retriesUsed
         | S _ => attempt + k
         end) st.
Proof.
  induction k as [|k IH];
    intros remaining attempt lastError retriesUsed st Hk Hfail.
  - rewrite Nat.sub_0_r, Nat.add_0_r. reflexivity.
  - destruct remaining as [|remaining]; [lia|].
    cbn [PDFLoader.attemptsFrom].
    destruct (Hfail 0 ltac:(lia)) as (message & Hload & Hplain).
    rewrite Nat.add_0_r in Hload. rewrite Hload, Hplain. cbn [andb].
    rewrite (IH remaining (S attempt) (Some message) (attempt + 1) st
               ltac:(lia)).
    + replace (S remaining - S k) with (remaining - k) by lia.
      replace (S attempt + k) with (attempt + S k) by lia.
      destruct k as [|k].
      * rewrite Nat.add_0_r, Hload. reflexivity.
      * replace (S attempt + k) with (attempt + S k) by lia. reflexivity.
    + intros i Hi. destruct (Hfail (S i) ltac:(lia)) as (m & Hm & Hp).
      exists m. split; [|assumption]. rewrite <- Hm. f_equal. lia.
Qed.

(** Failures that are not worker errors leave the worker alone and are
    retried up to [retries] times.  When attempt [k] (counted from 0, at
    most [retries]) is the first to succeed, the result is its document
    with [retriesUsed = k]; when all [retries + 1] attempts fail, the result
    is the error of the last one with [retriesUsed = retries + 1], and no
    further attempt is made. *)
Theorem loadPDF_plain_errors (retries k : nat) (st : State.t) :
  k <= retries + 1 ->
  (forall i, i < k ->
     exists message,
       load i st = inr message /\ isWorkerError message = false) ->
  (forall pdf, k <= retries -> load k st = inl pdf ->
     loadPDF (Some (INR retries)) st
     = (st, {| PDFLoadResult.pdf := Some pdf;
               PDFLoadResult.error := None;
               PDFLoadResult.retriesUsed := k |}))
  /\ (k = retries + 1 ->
      exists message,
        load retries st = inr message
        /\ loadPDF (Some (INR retries)) st
           = (st, {| PDFLoadResult.pdf := None;
                     PDFLoadResult.error := Some message;
                     PDFLoadResult.retriesUsed := retries + 1 |})).
Proof.
  intros Hk Hfail. unfold PDFLoader.loadPDF. rewrite iterations_INR.
  rewrite (attemptsFrom_plain (INR retries) k (S retries) 0 None 0 st
             ltac:(lia) Hfail).
  cbn [Nat.add]. split.
  - intros pdf Hle Hload.
    destruct (S retries - k) as [|n] eqn:En; [lia|].
    cbn [PDFLoader.attemptsFrom]. rewrite Hload. reflexivity.
  - intros ->.
    destruct (Hfail retries ltac:(lia)) as (message & Hload & Hplain).
    exists message. split; [assumption|].
    replace (S retries - (retries + 1)) with 0 by lia.
    replace (retries + 1) with (S retries) by lia.
    cbn [PDFLoader.attemptsFrom]. rewrite Hload. cbn [errorOf].
    rewrite Hplain. reflexivity.
Qed.

(** The loop when every failure is a worker error: it ends after as many
    further attempts as fallbacks are left, and falls through with a
    worker error. *)
Lemma attemptsFrom_worker_errors (retries remaining : nat) :
  (forall i st' message,
     load i st' = inr message -> isWorkerError message = true) ->
  forall (attempt : nat) (lastError : option jsstring) (retriesUsed : nat)
         (st : State.t),
    remaining + attempt = S retries ->
    0 < remaining ->
    match snd (attemptsFrom (INR retries) remaining attempt lastError
                 retriesUsed st) with
    | inl result =>
        PDFLoadResult.retriesUsed result
        <= attempt + (3 - State.workerRetryCount st)
    | inr (lastError', retriesUsed') =>
        (exists message,
           lastError' = Some message /\ isWorkerError message = true)
        /\ attempt + 1 <= retriesUsed'
           <= attempt + (3 - State.workerRetryCount st) + 1
    end.
Proof.
  intros Hall. induction remaining as [|remaining IH];
    intros attempt lastError retriesUsed st Hsum Hpos; [lia|].
  cbn [PDFLoader.attemptsFrom].
  destruct (load attempt st) as [pdf|message] eqn:Hload;
    cbn [snd PDFLoadResult.retriesUsed]; [lia|].
  pose proof (Hall _ _ _ Hload) as Hworker. rewrite Hworker. cbn [andb].
  destruct (Rlt_dec (INR attempt) (INR retries)) as [Hlt|Hge].
  - apply INR_lt in Hlt.
    unfold retryWorkerConfiguration, MAX_WORKER_RETRIES.
    destruct (Nat.ltb (State.workerRetryCount st) 3) eqn:E.
    + apply Nat.ltb_lt in E.
      rewrite WorkerProperties.configure_forced_default.
      cbn [State.workerRetryCount].
      match goal with
      | |- context [attemptsFrom _ remaining (S attempt) _ _ ?s] =>
          specialize (IH (S attempt) (Some message) (attempt + 1) s
                        ltac:(lia) ltac:(lia));
          destruct (snd (attemptsFrom (INR retries) remaining (S attempt)
                           (Some message) (attempt + 1) s))
            as [result|[lastError' retriesUsed']]
      end; cbn [State.workerRetryCount] in IH.
      * lia.
      * destruct IH as [H1 H2]. split; [assumption|lia].
    + cbn [snd]. split; [exists message; split; [reflexivity|assumption]|lia].
  - assert (remaining = 0) as ->.
    { destruct (Nat.eq_dec remaining 0) as [|Hne]; [assumption|].
      exfalso. apply Hge. apply lt_INR. lia. }
    cbn [PDFLoader.attemptsFrom snd].
    split; [exists message; split; [reflexivity|assumption]|lia].
Qed.

(** When every failure is a worker error, the number of attempts does not
    grow with [retries]: the loop stops when the fallbacks are used up, so
    that [retriesUsed] is at most 5; and a load that fails leaves the worker
    reset, with no retry counted and the first fallback as source. *)
Theorem loadPDF_worker_errors (retries : nat) (st : State.t) :
  (forall i st' message,
     load i st' = inr message -> isWorkerError message = true) ->
  PDFLoadResult.retriesUsed (snd (loadPDF (Some (INR retries)) st)) <= 5
  /\ (PDFLoadResult.pdf (snd (loadPDF (Some (INR retries)) st)) = None ->
      fst (loadPDF (Some (INR retries)) st)
      = resetWorkerConfiguration version st
      /\ State.workerRetryCount (fst (loadPDF (Some (INR retries)) st)) = 0
      /\ 1 <= PDFLoadResult.retriesUsed
                (snd (loadPDF (Some (INR retries)) st)) <= 4).
Proof.
  intros Hall. unfold PDFLoader.loadPDF. rewrite iterations_INR.
  pose proof (attemptsFrom_worker_errors retries (S retries) Hall 0 None 0 st
                ltac:(lia) ltac:(lia)) as H.
  pose proof (attemptsFrom_shape (INR retries) (S retries) 0 None 0 st)
    as Hshape.
  destruct (attemptsFrom (INR retries) (S retries) 0 None 0 st)
    as [st' [result|[lastError used]]]; cbn [snd fst] in H, Hshape |- *.
  - split; [lia|]. intros E. destruct Hshape as (Hpdf & _). contradiction.
  - destruct H as [(message & -> & Hworker) Hused]. rewrite Hworker.
    pose proof (WorkerProperties.reset_canonical_state version st') as Hst'.
    destruct (load used (resetWorkerConfiguration version st'))
      as [pdf|finalError];
      cbn [snd fst PDFLoadResult.pdf PDFLoadResult.retriesUsed].
    + split; [lia|discriminate].
    + split; [lia|]. intros _.
      rewrite Hst', (WorkerProperties.reset_canonical_state version st).
      cbn [State.workerRetryCount]. repeat split; lia.
Qed.

End Loader.

(** A damaged file is tried three times; the third answer is taken. *)
Lemma loadPDF_plain_errors_witness :
  2 <= 3 + 1
  /\ (forall i, i < 2 ->
        exists message,
          Samples.damagedTwice i Samples.freshWorker = inr message
          /\ PDFLoader.isWorkerError KeyboardShortcuts.asciiLowerCase message
             = false)
  /\ PDFLoader.loadPDF (units "4.0") KeyboardShortcuts.asciiLowerCase
       Samples.damagedTwice (Some (INR 3)) Samples.freshWorker
     = (Samples.freshWorker,
        {| PDFLoadResult.pdf := Some Scenario.document;
           PDFLoadResult.error := None;
           PDFLoadResult.retriesUsed := 2 |}).
Proof.
  assert (forall i, i < 2 ->
            exists message,
              Samples.damagedTwice i Samples.freshWorker = inr message
              /\ PDFLoader.isWorkerError KeyboardShortcuts.asciiLowerCase
                   message = false) as Hfail.
  { intros i Hi. exists (units "Invalid PDF structure"). split.
    - unfold Samples.damagedTwice.
      destruct (Nat.ltb_spec i 2) as [_|Hge]; [reflexivity|lia].
    - vm_compute. reflexivity. }
  split; [lia|]. split; [exact Hfail|].
  exact (proj1 (loadPDF_plain_errors (units "4.0")
                  KeyboardShortcuts.asciiLowerCase Samples.damagedTwice
                  3 2 Samples.freshWorker ltac:(lia) Hfail)
           Scenario.document ltac:(lia) eq_refl).
Defined.

(** Without a worker, ten retries asked for end after four attempts. *)
Lemma loadPDF_worker_errors_witness :
  (forall i st' message,
     Samples.noWorker i st' = inr message ->
     PDFLoader.isWorkerError KeyboardShortcuts.asciiLowerCase message = true)
  /\ PDFLoadResult.retriesUsed
       (snd (PDFLoader.loadPDF (units "4.0") KeyboardShortcuts.asciiLowerCase
               Samples.noWorker (Some (INR 10)) Samples.freshWorker)) <= 5.
Proof.
  assert (forall i st' message,
            Samples.noWorker i st' = inr message ->
            PDFLoader.isWorkerError KeyboardShortcuts.asciiLowerCase message
            = true) as Hall.
  { intros i st' message H. unfold Samples.noWorker in H.
    injection H as <-. vm_compute. reflexivity. }
  split; [exact Hall|].
  exact (proj1 (loadPDF_worker_errors (units "4.0")
                  KeyboardShortcuts.asciiLowerCase Samples.noWorker
                  10 Samples.freshWorker Hall)).
Defined.

(** With [retries = -1] the loop is skipped.  Without a worker the one
    attempt after the reset fails, and the error comes with
    [retriesUsed = 0]. *)
Example loadPDF_negative_retries :
  snd (PDFLoader.loadPDF (units "4.0") KeyboardShortcuts.asciiLowerCase
         Samples.noWorker (Some (-1)%R) Samples.freshWorker)
  = {| PDFLoadResult.pdf := None;
       PDFLoadResult.error := Some (units "Setting up fake worker failed");
       PDFLoadResult.retriesUsed := 0 |}.
Proof.
  unfold PDFLoader.loadPDF.
  rewrite (iterations_negative (-1)%R) by lra. reflexivity.
Qed.

End LoaderProperties.
